(** * The message-queue worker of mc-gatekeeper, embedded in Rocq

    The worker (package [worker]) consumes deliveries from [work.queue],
    decodes each body into a [types.WhitelistRequest] and runs the handler
    of its status.  A handler talks to the game server (RCON), the mailer,
    the document store and the cache, and either acknowledges the delivery
    or republishes it to [retry.ex] with a growing expiration.

    The embedding is shallow: every Go function below is a Rocq function of
    the same name.  Effects are threaded through a [World] (the trace of
    the calls made so far and the document store); what the collaborators
    answer is read from an [Env] of oracles; a Go panic is an outcome of its
    own.  [int] is the 64-bit [int] of the platforms the worker is built
    for, [int32] wraps at 32 bits. *)

From Stdlib Require Import ZArith Lia Ascii DecimalString DecimalPos.
From stdpp Require Import gmap strings list fin_maps.

#[local] Set Warnings "-register-all".
#[local] Open Scope Z_scope.

(** ** Go integers *)

Module GoInt.

(** Two's complement wrap-around of a [w]-bit signed integer. *)
Definition wrap (w : Z) (z : Z) : Z :=
  (z + 2 ^ (w - 1)) mod 2 ^ w - 2 ^ (w - 1).

Definition int32 (z : Z) : Z := wrap 32 z.
Definition int (z : Z) : Z := wrap 64 z.

Definition maxInt32 : Z := 2 ^ 31 - 1.
Definition maxInt64 : Z := 2 ^ 63 - 1.
Definition minInt64 : Z := - 2 ^ 63.
Definition maxUint64 : Z := 2 ^ 64 - 1.

Definition in_int32 (z : Z) : Prop := - 2 ^ 31 <= z <= maxInt32.
Definition in_int (z : Z) : Prop := minInt64 <= z <= maxInt64.

End GoInt.

(** ** strconv *)

Module strconv.

Inductive NumErr := ErrSyntax | ErrRange.

Definition digit_of (c : ascii) : option Z :=
  let n := Z.of_N (Ascii.N_of_ascii c) in
  if (48 <=? n) && (n <=? 57) then Some (n - 48) else None.

(** [ParseUint(s, 10, 64)] after the empty-string test: the digit loop,
    with the two overflow tests of the library ([n >= cutoff] before the
    multiplication, [n1 > maxVal] after the addition). *)
Fixpoint parseUint_loop (s : string) (n : Z) : Z * option NumErr :=
  match s with
  | EmptyString => (n, None)
  | String c s' =>
      match digit_of c with
      | None => (0, Some ErrSyntax)
      | Some d =>
          if n >=? GoInt.maxUint64 / 10 + 1 then (GoInt.maxUint64, Some ErrRange)
          else
            let n1 := n * 10 + d in
            if n1 >? GoInt.maxUint64 then (GoInt.maxUint64, Some ErrRange)
            else parseUint_loop s' n1
      end
  end.

Definition ParseUint (s : string) : Z * option NumErr :=
  match s with
  | EmptyString => (0, Some ErrSyntax)
  | _ => parseUint_loop s 0
  end.

(** [ParseInt(s, 10, 0)]: optional sign, magnitude by [ParseUint], a syntax
    error gives 0, a magnitude out of range gives the nearest bound. *)
Definition ParseInt (s : string) : Z * option NumErr :=
  match s with
  | EmptyString => (0, Some ErrSyntax)
  | String c s' =>
      let neg := Ascii.eqb c "-" in
      let body := if Ascii.eqb c "+" || neg then s' else s in
      match ParseUint body with
      | (_, Some ErrSyntax) => (0, Some ErrSyntax)
      | (un, _) =>
          if negb neg && (un >=? 2 ^ 63) then (GoInt.maxInt64, Some ErrRange)
          else if neg && (un >? 2 ^ 63) then (GoInt.minInt64, Some ErrRange)
          else (if neg then - un else un, None)
      end
  end.

(** [Atoi] is [ParseInt(s, 10, 0)]; its fast path for short strings computes
    the same value and the same kind of error. *)
Definition Atoi (s : string) : Z * option NumErr := ParseInt s.

(** [Itoa]: the decimal digits, [-] in front of a negative number. *)
Definition Itoa (i : Z) : string := NilZero.string_of_int (Z.to_int i).

End strconv.

(** ** amqp: field tables, deliveries, publishings *)

Module amqp.

(** The values a field table holds ([interface{}] in Go): the dynamic type
    is the constructor, so a type assertion is a match. *)
Inductive value :=
| VNil
| VBool (b : bool)
| VInt16 (z : Z)
| VInt32 (z : Z)
| VInt64 (z : Z)
| VString (s : string)
| VBytes (s : string)
| VList (l : list value)
| VTable (t : gmap string value).

Abbreviation Table := (gmap string value).

Inductive Mode := Transient | Persistent.

Record Delivery := {
  Headers : Table;
  DeliveryTag : Z;
  Body : option string          (* [None] is the nil slice *)
}.

Record Publishing := {
  PHeaders : Table;
  DeliveryMode : Mode;
  ContentType : string;
  Expiration : string;
  PBody : option string
}.

End amqp.
Import amqp.

(** ** types: the request carried by a message *)

Module types.

(** An ObjectID, held as its 24 hexadecimal digits (what [ID.Hex()]
    returns). *)
Definition ObjectID := string.

(** Modelled from the spec: the struct [types.WhitelistRequest] is declared
    outside the files at hand; these are the fields of the wire format
    (section 6), which are also the only ones the worker reads. *)
Record WhitelistRequest := {
  ID : ObjectID;
  Username : string;
  Email : string;
  Status : string
}.

Definition NilObjectID : ObjectID := "000000000000000000000000".

(** The zero value [var msg types.WhitelistRequest]. *)
Definition zero : WhitelistRequest :=
  {| ID := NilObjectID; Username := ""; Email := ""; Status := "" |}.

(** Modelled from the spec: the status constants of package [types], with
    the values of the wire format and of the onserver-status field. *)
Definition StatusPending : string := "Pending".
Definition StatusApproved : string := "Approved".
Definition StatusDenied : string := "Denied".
Definition StatusDeactivated : string := "Deactivated".
Definition StatusBanned : string := "Banned".
Definition OnserverNone : string := "None".
Definition OnserverBanned : string := "Banned".

End types.
Import types.

(** ** The world a handler runs in *)

(** A Go [error] is its message; [None] is the nil error. *)
Abbreviation error := (option string).

Inductive Level := InfoLevel | WarnLevel | ErrorLevel.

(** The values given to [logrus.Fields]. *)
Inductive Field :=
| FStr (s : string)
| FInt (z : Z)
| FStrs (l : list string)
| FBody (b : option string)
| FRequest (r : WhitelistRequest).

(** What a [$set] writes. *)
Inductive DocValue :=
| DString (s : string)
| DStrings (l : list string).

(** One call to a collaborator, with what it answered. *)
Inductive event :=
| Log (lv : Level) (fields : list (string * Field)) (msg : string)
| Ack (tag : Z)
| Publish (exchange key : string) (mandatory immediate : bool)
          (msg : Publishing) (err : error)
| SendCommand (command : string) (err : error)
| Encrypt (plaintext passphrase : string) (res : string + string)
| Send (template link subject recipient : string) (err : error)
| UpdateRequest (id : ObjectID) (field : string) (v : DocValue) (err : error)
| UpdateAllRequests (err : error)
| UpdateRealTimeStats (r : WhitelistRequest) (err : error).

(** A document of the store, reduced to the two fields the worker writes;
    [None] is a field that was never set. *)
Record Document := {
  assignees : option (list string);
  onserverStatus : option string
}.

Record World := {
  trace : list event;                 (* oldest first *)
  store : gmap ObjectID Document
}.

(** A Go slice of strings: the elements up to [len] and the rest of the
    backing array up to [cap]. *)
Record slice := {
  elems : list string;
  spare : list string
}.

Definition len (s : slice) : Z := Z.of_nat (length (elems s)).
Definition cap (s : slice) : Z := Z.of_nat (length (elems s ++ spare s)).

(** The configuration registry (viper) and the environment variable the
    worker reads. *)
Record Config := {
  ops : slice;
  dispatchingStrategy : string;
  randomDispatchingThreshold : Z;
  minRequiredReceiver : Z;
  passphrase : string;
  approvedEmailTitle : string;
  deniedEmailTitle : string;
  confirmationEmailTitle : string;
  FRONTEND_DEPLOYED_URL : string
}.

(** What the collaborators answer.  Each oracle sees the trace so far, so
    two calls with the same arguments may be answered differently. *)
Record Env := {
  rcon_SendCommand : list event -> string -> error;
  utils_EncodeAndEncrypt : list event -> string -> string -> string + string;
  mailer_Send : list event -> string -> string -> string -> string -> error;
  db_UpdateRequest : list event -> ObjectID -> string -> DocValue -> error;
  cache_UpdateAllRequests : list event -> error;
  cache_UpdateRealTimeStats : list event -> WhitelistRequest -> error;
  channel_Publish : list event -> string -> Publishing -> error;
  rand_Intn : list event -> nat -> nat
}.

(** *** The monad of handlers: state, and panics *)

Inductive outcome (A : Type) :=
| Done (a : A) (w : World)
| Panic (msg : string) (w : World).
Arguments Done {A} a w.
Arguments Panic {A} msg w.

Definition M (A : Type) : Type := World -> outcome A.

Definition ret {A} (a : A) : M A := fun w => Done a w.

Definition bind {A B} (m : M A) (k : A -> M B) : M B :=
  fun w => match m w with
           | Done a w' => k a w'
           | Panic msg w' => Panic msg w'
           end.

Definition panic {A} (msg : string) : M A := fun w => Panic msg w.

Declare Scope go_scope.
Delimit Scope go_scope with go.
Notation "'do' x <- m ; k" := (bind m (fun x => k))
  (at level 10, x name, m at level 100, k at level 200) : go_scope.
Notation "'run' m ; k" := (bind m (fun _ => k))
  (at level 10, m at level 100, k at level 200) : go_scope.
#[local] Open Scope go_scope.

Definition emit (e : event) : M unit :=
  fun w => Done tt {| trace := trace w ++ [e]; store := store w |}.

(** [call f mk]: ask the oracle [f] with the trace so far, record the call. *)
Definition call {R} (f : list event -> R) (mk : R -> event) : M R :=
  fun w => let r := f (trace w) in
           Done r {| trace := trace w ++ [mk r]; store := store w |}.

Definition world_of {A} (o : outcome A) : World :=
  match o with Done _ w => w | Panic _ w => w end.

(** ** math/rand and slices *)

(** [ops[i], ops[j] = ops[j], ops[i]]: both operands are read, then [ops[i]]
    and [ops[j]] are written in this order.  [Shuffle] only passes indices
    below the length. *)
Definition swap (l : list string) (i j : nat) : list string :=
  match l !! i, l !! j with
  | Some x, Some y => <[j := x]> (<[i := y]> l)
  | _, _ => l
  end.

(** [rand.Shuffle(n, swap)]: Fisher-Yates, [i] from [n-1] down to 1, each
    time [j := Intn(i+1)] and [swap(i, j)]. *)
Fixpoint Shuffle_from (intn : nat -> nat) (i : nat) (l : list string)
  : list string :=
  match i with
  | O => l
  | S i' => Shuffle_from intn i' (swap l i (intn (S i) mod S i))
  end.

Definition Shuffle (intn : nat -> nat) (n : nat) (l : list string)
  : list string :=
  Shuffle_from intn (n - 1) l.

(** [s[:n]], for [0 <= n <= cap(s)] (Go panics outside of this range). *)
Definition slice_to (s : slice) (n : Z) : slice :=
  let backing := elems s ++ spare s in
  {| elems := take (Z.to_nat n) backing; spare := drop (Z.to_nat n) backing |}.

(** ** encoding/json, as far as [deserialize] uses it

    The buffer holds one JSON text.  The scanner covers whitespace, the
    literals, numbers, strings with their escapes, arrays and objects; the
    decoder stores an object into the struct.  Two things the library does
    are left out: it replaces ill-formed UTF-8 inside a string by U+FFFD,
    and it refuses a text nested deeper than 10000 levels. *)

Module json.

(** A JSON text once scanned.  A number keeps its literal. *)
Inductive value :=
| Null
| Bool (b : bool)
| Number (lit : string)
| Str (s : string)
| Array (l : list value)
| Object (members : list (string * value)).

Definition code (c : ascii) : Z := Z.of_N (Ascii.N_of_ascii c).
Definition char (z : Z) : ascii := Ascii.ascii_of_N (Z.to_N z).

(** The double quote that opens and closes a string. *)
Definition dquote : ascii := char 34.

Definition isSpace (c : ascii) : bool :=
  let n := code c in (n =? 32) || (n =? 9) || (n =? 13) || (n =? 10).

Definition isDigit (c : ascii) : bool := (48 <=? code c) && (code c <=? 57).

Definition hexval (c : ascii) : option Z :=
  let n := code c in
  if (48 <=? n) && (n <=? 57) then Some (n - 48)
  else if (97 <=? n) && (n <=? 102) then Some (n - 87)
  else if (65 <=? n) && (n <=? 70) then Some (n - 55)
  else None.

Definition getu4 (h1 h2 h3 h4 : ascii) : option Z :=
  match hexval h1, hexval h2, hexval h3, hexval h4 with
  | Some a, Some b, Some c, Some d => Some (((a * 16 + b) * 16 + c) * 16 + d)
  | _, _, _, _ => None
  end.

(** [utf8.EncodeRune] *)
Definition EncodeRune (r : Z) : string :=
  if r <? 128 then String (char r) ""
  else if r <? 2048 then
    String (char (192 + r / 64)) (String (char (128 + r mod 64)) "")
  else if r <? 65536 then
    String (char (224 + r / 4096))
      (String (char (128 + (r / 64) mod 64)) (String (char (128 + r mod 64)) ""))
  else
    String (char (240 + r / 262144))
      (String (char (128 + (r / 4096) mod 64))
         (String (char (128 + (r / 64) mod 64)) (String (char (128 + r mod 64)) ""))).

Definition ReplacementChar : Z := 65533.

Fixpoint skip_ws (s : string) : string :=
  match s with
  | String c s' => if isSpace c then skip_ws s' else s
  | EmptyString => s
  end.

(** The rest of a literal ([rue], [alse], [ull]). *)
Fixpoint expect (word s : string) : option string :=
  match word with
  | EmptyString => Some s
  | String c word' =>
      match s with
      | String c' s' => if Ascii.eqb c c' then expect word' s' else None
      | EmptyString => None
      end
  end.

Fixpoint span_digits (s : string) : string * string :=
  match s with
  | String c s' =>
      if isDigit c then let (ds, r) := span_digits s' in (String c ds, r)
      else ("", s)
  | EmptyString => ("", s)
  end.

(** A number: an optional minus sign; 0, or a digit from 1 to 9 and any
    digits; optionally a dot and one digit or more; optionally e or E, a
    sign, and one digit or more. *)
Definition scan_number (s : string) : option (string * string) :=
  let (sign, s1) :=
    match s with
    | String "-"%char r => ("-", r)
    | _ => ("", s)
    end in
  match s1 with
  | EmptyString => None
  | String c r =>
      if isDigit c then
        let (int, r1) :=
          if Ascii.eqb c "0" then (String c "", r)
          else let (ds, r') := span_digits r in (String c ds, r') in
        let frac :=
          match r1 with
          | String "."%char r2 =>
              let (ds, r3) := span_digits r2 in
              match ds with
              | EmptyString => None
              | _ => Some ("." +:+ ds, r3)
              end
          | _ => Some ("", r1)
          end in
        match frac with
        | None => None
        | Some (fr, r4) =>
            let after (e : ascii) (r5 : string) :=
              let (sg, r6) :=
                match r5 with
                | String "+"%char x => ("+", x)
                | String "-"%char x => ("-", x)
                | _ => ("", r5)
                end in
              let (ds, r7) := span_digits r6 in
              match ds with
              | EmptyString => None
              | _ => Some (sign +:+ int +:+ fr +:+ String e sg +:+ ds, r7)
              end in
            match r4 with
            | String "e"%char r5 => after "e"%char r5
            | String "E"%char r5 => after "E"%char r5
            | _ => Some (sign +:+ int +:+ fr, r4)
            end
        end
      else None
  end.

(** The scanner inside a string, after the opening quote: the raw literal
    up to the closing quote, and what follows it.  Escapes are checked,
    control characters are refused. *)
Fixpoint scan_string (s : string) : option (string * string) :=
  let keep (pre : string) (o : option (string * string)) :=
    match o with
    | Some (raw, rest) => Some (pre +:+ raw, rest)
    | None => None
    end in
  match s with
  | EmptyString => None
  | String c s' =>
      if Ascii.eqb c dquote then Some ("", s')
      else if Ascii.eqb c "\" then
        match s' with
        | String e s'' =>
            if Ascii.eqb e "u" then
              match s'' with
              | String h1 (String h2 (String h3 (String h4 r))) =>
                  match getu4 h1 h2 h3 h4 with
                  | Some _ =>
                      keep (String c (String e (String h1 (String h2
                              (String h3 (String h4 ""))))))
                           (scan_string r)
                  | None => None
                  end
              | _ => None
              end
            else if existsb (Ascii.eqb e)
                      [dquote; "\"; "/"; "b"; "f"; "n"; "r"; "t"]%char
            then keep (String c (String e "")) (scan_string s'')
            else None
        | EmptyString => None
        end
      else if code c <? 32 then None
      else keep (String c "") (scan_string s')
  end.

Definition unescape (e : ascii) : ascii :=
  if Ascii.eqb e "b" then char 8
  else if Ascii.eqb e "f" then char 12
  else if Ascii.eqb e "n" then char 10
  else if Ascii.eqb e "r" then char 13
  else if Ascii.eqb e "t" then char 9
  else e.

(** [unquote], on a literal the scanner accepted.  A surrogate escape is
    combined with the low surrogate escape that follows it, and replaced
    by U+FFFD when none follows. *)
Fixpoint unquote (raw : string) : string :=
  match raw with
  | EmptyString => ""
  | String c r =>
      if Ascii.eqb c "\" then
        match r with
        | String e r1 =>
            if Ascii.eqb e "u" then
              match r1 with
              | String h1 (String h2 (String h3 (String h4 r2))) =>
                  let rr := default ReplacementChar (getu4 h1 h2 h3 h4) in
                  if (55296 <=? rr) && (rr <? 57344) then
                    match r2 with
                    | String b (String u (String l1 (String l2
                        (String l3 (String l4 r3))))) =>
                        let rr1 := default (-1) (getu4 l1 l2 l3 l4) in
                        if Ascii.eqb b "\" && Ascii.eqb u "u"
                           && (rr <? 56320) && (56320 <=? rr1) && (rr1 <? 57344)
                        then EncodeRune
                               (65536 + (rr - 55296) * 1024 + (rr1 - 56320))
                             +:+ unquote r3
                        else EncodeRune ReplacementChar +:+ unquote r2
                    | _ => EncodeRune ReplacementChar +:+ unquote r2
                    end
                  else EncodeRune rr +:+ unquote r2
              | _ => ""
              end
            else String (unescape e) (unquote r1)
        | EmptyString => ""
        end
      else String c (unquote r)
  end.

(** The first JSON value of the input, and the input left after it (a
    [Decoder] reads one value and leaves the rest of the stream).  [fuel]
    bounds the nesting and the number of members; every step consumes a
    character, so [Scan] gives the length of the input and one more. *)
Fixpoint scan_value (fuel : nat) (s : string) {struct fuel}
  : option (value * string) :=
  match fuel with
  | O => None
  | S n =>
      match skip_ws s with
      | EmptyString => None
      | String c r =>
          if Ascii.eqb c "{" then
            match skip_ws r with
            | String "}"%char r' => Some (Object [], r')
            | r' =>
                match scan_members n r' with
                | Some (ms, rest) => Some (Object ms, rest)
                | None => None
                end
            end
          else if Ascii.eqb c "[" then
            match skip_ws r with
            | String "]"%char r' => Some (Array [], r')
            | _ =>
                match scan_elements n r with
                | Some (vs, rest) => Some (Array vs, rest)
                | None => None
                end
            end
          else if Ascii.eqb c dquote then
            match scan_string r with
            | Some (raw, rest) => Some (Str (unquote raw), rest)
            | None => None
            end
          else if Ascii.eqb c "t" then
            option_map (pair (Bool true)) (expect "rue" r)
          else if Ascii.eqb c "f" then
            option_map (pair (Bool false)) (expect "alse" r)
          else if Ascii.eqb c "n" then
            option_map (pair Null) (expect "ull" r)
          else
            match scan_number (String c r) with
            | Some (lit, rest) => Some (Number lit, rest)
            | None => None
            end
      end
  end
with scan_members (fuel : nat) (s : string) {struct fuel}
  : option (list (string * value) * string) :=
  match fuel with
  | O => None
  | S n =>
      match s with
      | String c r =>
          if Ascii.eqb c dquote then
            match scan_string r with
            | Some (raw, r1) =>
                match skip_ws r1 with
                | String ":"%char r2 =>
                    match scan_value n r2 with
                    | Some (v, r3) =>
                        match skip_ws r3 with
                        | String ","%char r4 =>
                            match scan_members n (skip_ws r4) with
                            | Some (ms, rest) =>
                                Some ((unquote raw, v) :: ms, rest)
                            | None => None
                            end
                        | String "}"%char r4 => Some ([(unquote raw, v)], r4)
                        | _ => None
                        end
                    | None => None
                    end
                | _ => None
                end
            | None => None
            end
          else None
      | EmptyString => None
      end
  end
with scan_elements (fuel : nat) (s : string) {struct fuel}
  : option (list value * string) :=
  match fuel with
  | O => None
  | S n =>
      match scan_value n s with
      | Some (v, r1) =>
          match skip_ws r1 with
          | String ","%char r2 =>
              match scan_elements n r2 with
              | Some (vs, rest) => Some (v :: vs, rest)
              | None => None
              end
          | String "]"%char r2 => Some ([v], r2)
          | _ => None
          end
      | None => None
      end
  end.

Definition Scan (b : string) : option (value * string) :=
  scan_value (S (String.length b)) b.

End json.

(** *** Decoding into a [types.WhitelistRequest] *)

Fixpoint lower (s : string) : string :=
  match s with
  | EmptyString => EmptyString
  | String c s' =>
      String (if (65 <=? json.code c) && (json.code c <=? 90)
              then json.char (json.code c + 32) else c)
             (lower s')
  end.

Fixpoint all_hex (s : string) : bool :=
  match s with
  | EmptyString => true
  | String c s' =>
      match json.hexval c with Some _ => all_hex s' | None => false end
  end.

(** How the decoder matches a key with a field name: the same letters,
    whatever their case.  Two letters outside ASCII fold to ASCII ones, the
    long s (bytes 197 191) to s and the Kelvin sign (bytes 226 132 170) to
    k; the names of the fields are in ASCII, so no other folding counts. *)
Fixpoint foldName (s : string) : string :=
  match s with
  | EmptyString => EmptyString
  | String c s1 =>
      let folded :=
        if (65 <=? json.code c) && (json.code c <=? 90)
        then json.char (json.code c + 32) else c in
      match s1 with
      | String c2 s2 =>
          if (json.code c =? 197) && (json.code c2 =? 191)
          then String "s" (foldName s2)
          else
            match s2 with
            | String c3 s3 =>
                if (json.code c =? 226) && (json.code c2 =? 132)
                   && (json.code c3 =? 170)
                then String "k" (foldName s3)
                else String folded (foldName s1)
            | EmptyString => String folded (foldName s1)
            end
      | EmptyString => String folded EmptyString
      end
  end.

Definition equalFold (a b : string) : bool :=
  String.eqb (foldName a) (foldName b).

(** Modelled from the spec: the ObjectID type is declared outside the files at
    hand; its JSON form is the string of 24 hexadecimal digits of the wire
    format (section 6), and nothing else is taken for an id. *)
Definition ObjectID_UnmarshalJSON (v : json.value) : ObjectID + string :=
  match v with
  | json.Str s =>
      if (String.length s =? 24)%nat && all_hex s then inl (lower s)
      else inr "cannot unmarshal into an ObjectID"
  | _ => inr "not an extended JSON ObjectID"
  end.

(** A JSON value stored into a field of type [string]: a string is stored,
    [null] leaves the field as it is, anything else is a type error (which
    the decoder saves, going on with the next member). *)
Definition store_string (v : json.value) (field : string) : string * error :=
  match v with
  | json.Str s => (s, None)
  | json.Null => (field, None)
  | json.Bool _ => (field, Some "json: cannot unmarshal bool into Go struct field of type string")
  | json.Number _ => (field, Some "json: cannot unmarshal number into Go struct field of type string")
  | json.Array _ => (field, Some "json: cannot unmarshal array into Go struct field of type string")
  | json.Object _ => (field, Some "json: cannot unmarshal object into Go struct field of type string")
  end.

Definition first_error (saved e : error) : error :=
  match saved with Some _ => saved | None => e end.

(** The members of an object, in order, into the struct: a key that matches
    no field is skipped, a later member overwrites an earlier one, and a
    field no member names keeps the value it had.  The error of an
    [UnmarshalJSON] method stops the decoding; a type error is saved and
    returned at the end. *)
Fixpoint decode_object (members : list (string * json.value))
    (msg : WhitelistRequest) (saved : error) : WhitelistRequest * error :=
  match members with
  | [] => (msg, saved)
  | (key, v) :: rest =>
      if equalFold key "_id" then
        match ObjectID_UnmarshalJSON v with
        | inl id =>
            decode_object rest
              {| ID := id; Username := Username msg; Email := Email msg;
                 Status := Status msg |} saved
        | inr e => (msg, Some e)
        end
      else if equalFold key "username" then
        let (s, e) := store_string v (Username msg) in
        decode_object rest
          {| ID := ID msg; Username := s; Email := Email msg;
             Status := Status msg |} (first_error saved e)
      else if equalFold key "email" then
        let (s, e) := store_string v (Email msg) in
        decode_object rest
          {| ID := ID msg; Username := Username msg; Email := s;
             Status := Status msg |} (first_error saved e)
      else if equalFold key "status" then
        let (s, e) := store_string v (Status msg) in
        decode_object rest
          {| ID := ID msg; Username := Username msg; Email := Email msg;
             Status := s |} (first_error saved e)
      else decode_object rest msg saved
  end.

(** [json.NewDecoder(buf).Decode(&msg)]: the first JSON value of the buffer
    is decoded into [msg]. *)
Definition Decode (b : string) (msg : WhitelistRequest)
  : WhitelistRequest * error :=
  match json.Scan b with
  | None => (msg, Some "invalid character or unexpected end of JSON input")
  | Some (json.Object members, _) => decode_object members msg None
  | Some (json.Null, _) => (msg, None)
  | Some (_, _) =>
      (msg, Some "json: cannot unmarshal into Go value of type types.WhitelistRequest")
  end.

Definition deserialize (b : string) : WhitelistRequest * error :=
  Decode b types.zero.

(** ** The worker *)

Section Worker.

Context (cfg : Config) (env : Env).

Definition log (lv : Level) (fields : list (string * Field)) (msg : string)
  : M unit :=
  emit (Log lv fields msg).

(** [d.Ack(false)]; the error it returns is dropped by every caller. *)
Definition Ack_ (d : Delivery) : M unit := emit (Ack (DeliveryTag d)).

(** Modelled from the spec: [dbService.UpdateRequest] is declared outside
    the files at hand.  With the filter [{_id: id}] and the change
    [{$set: {field: v}}] it sets the field of the document of that id;
    nothing is written when the store answers with an error or holds no
    such document. *)
Definition set_field (field : string) (v : DocValue) (doc : Document)
  : Document :=
  match v with
  | DStrings l =>
      if String.eqb field "assignees"
      then {| assignees := Some l; onserverStatus := onserverStatus doc |}
      else doc
  | DString s =>
      if String.eqb field "onserverStatus"
      then {| assignees := assignees doc; onserverStatus := Some s |}
      else doc
  end.

Definition dbService_UpdateRequest (id : ObjectID) (field : string)
    (v : DocValue) : M error :=
  fun w =>
    let err := db_UpdateRequest env (trace w) id field v in
    Done err
      {| trace := trace w ++ [UpdateRequest id field v err];
         store := match err with
                  | None => alter (set_field field v) id (store w)
                  | Some _ => store w
                  end |}.

Definition EncodeAndEncrypt (plaintext : string) : M (string + string) :=
  call (fun tr => utils_EncodeAndEncrypt env tr plaintext (passphrase cfg))
       (Encrypt plaintext (passphrase cfg)).

(** [mailer.Send(template, map[string]string{"link": link}, subject, to)] *)
Definition Send_ (template link subject recipient : string) : M error :=
  call (fun tr => mailer_Send env tr template link subject recipient)
       (Send template link subject recipient).

Definition updateCache (request : WhitelistRequest) : M unit :=
  do err <- call (cache_UpdateAllRequests env) UpdateAllRequests;
  run match err with
      | Some e => log WarnLevel [("err", FStr e)]
                    "Unable to refresh all requests in cache"
      | None => ret tt
      end;
  do err <- call (fun tr => cache_UpdateRealTimeStats env tr request)
                 (UpdateRealTimeStats request);
  match err with
  | Some e => log WarnLevel [("err", FStr e)] "Unable to update stats in cache"
  | None => ret tt
  end.

Definition issueRCON (command : string) : M error :=
  do err <- call (fun tr => rcon_SendCommand env tr command)
                 (SendCommand command);
  match err with
  | Some e => ret (Some e)
  | None =>
      run log InfoLevel [("command", FStr command)]
            "Command has been issued successfully on the game server";
      ret None
  end.

Definition updateOnserverStatus (request : WhitelistRequest)
    (onserverStatus : string) : M unit :=
  do err <- dbService_UpdateRequest (ID request) "onserverStatus"
              (DString onserverStatus);
  match err with
  | Some e => log ErrorLevel [("err", FStr e); ("ID", FStr (ID request))]
                "Unable to update onserver status"
  | None => ret tt
  end.

(** The expiration of the republished message: 15 minutes, or twice the
    [original-expiration] of the first [x-death] record.  Each type
    assertion of the source panics on a value of another type (and on a
    missing key, whose value is nil); the error of [Atoi] is dropped, its
    value is used. *)
Definition retryExpiration (d : Delivery) : M Z :=
  match Headers d !! "x-death" with
  | Some val =>
      match val with
      | VList val =>
          match val with
          | v0 :: _ =>
              match v0 with
              | VTable t =>
                  match t !! "original-expiration" with
                  | Some (VString expirationStr) =>
                      let (i, _) := strconv.Atoi expirationStr in
                      ret (GoInt.int (i * 2))
                  | _ => panic "interface conversion: interface {} is not string"
                  end
              | _ => panic "interface conversion: interface {} is not amqp.Table"
              end
          | [] => ret (15 * 60 * 1000)
          end
      | _ => panic "interface conversion: interface {} is not []interface {}"
      end
  | None => ret (15 * 60 * 1000)
  end.

Definition retryCountOf (d : Delivery) : M Z :=
  match Headers d !! "x-retry-count" with
  | Some val =>
      match val with
      | VInt32 v => ret (GoInt.int32 (v + 1))
      | _ => panic "interface conversion: interface {} is not int32"
      end
  | None => ret 1
  end.

Definition retryMsgWithDelay (d : Delivery) (actionDescription : string)
  : M unit :=
  do expiration <- retryExpiration d;
  do retryCount <- retryCountOf d;
  if retryCount >? 6 then
    run log ErrorLevel [("action", FStr actionDescription)]
          "Unable to performe this operation. Give up on tries";
    Ack_ d
  else
    let headers : Table := {[ "x-retry-count" := VInt32 retryCount ]} in
    let msg := {| PHeaders := headers;
                  DeliveryMode := Persistent;
                  ContentType := "application/json";
                  Expiration := strconv.Itoa expiration;
                  PBody := Body d |} in
    do e <- call (fun tr => channel_Publish env tr "retry.ex" msg)
                 (Publish "retry.ex" "" false false msg);
    match e with
    | Some e => log ErrorLevel [("err", FStr e)]
                  "Unable to republish message for retry"
    | None => ret tt
    end.

Definition emailDecision (whitelistRequest : WhitelistRequest) : M error :=
  do r <- EncodeAndEncrypt (ID whitelistRequest);
  match r with
  | inr err =>
      run log ErrorLevel [("err", FStr err)] "Failed to encode requestID Token";
      ret (Some err)
  | inl requestIDToken =>
      let (subject, template) :=
        if String.eqb (Status whitelistRequest) StatusApproved
        then (approvedEmailTitle cfg, "./mailer/templates/approve.html")
        else (deniedEmailTitle cfg, "./mailer/templates/deny.html") in
      do err <- Send_ template requestIDToken subject (Email whitelistRequest);
      run match err with
          | Some e =>
              log ErrorLevel [("recipent", FStr (Email whitelistRequest));
                              ("err", FStr e);
                              ("ID", FStr (ID whitelistRequest))]
                "Failed to send decision email"
          | None =>
              log InfoLevel [("recipent", FStr (Email whitelistRequest))]
                "Decision email sent"
          end;
      ret err
  end.

Definition emailConfirmation (whitelistRequest : WhitelistRequest)
  : M error :=
  let subject := confirmationEmailTitle cfg in
  do r <- EncodeAndEncrypt (ID whitelistRequest);
  match r with
  | inr err =>
      run log ErrorLevel [("err", FStr err)] "Failed to encode requestID Token";
      ret (Some err)
  | inl requestIDToken =>
      let confirmationLink :=
        FRONTEND_DEPLOYED_URL cfg +:+ "status/" +:+ requestIDToken in
      do err <- Send_ "./mailer/templates/confirmation.html" confirmationLink
                  subject (Email whitelistRequest);
      run match err with
          | Some e =>
              log ErrorLevel [("recipent", FStr (Email whitelistRequest));
                              ("err", FStr e);
                              ("ID", FStr (ID whitelistRequest))]
                "Failed to send confirmation email"
          | None =>
              log InfoLevel [("recipent", FStr (Email whitelistRequest))]
                "Confirmation email sent"
          end;
      ret err
  end.

(** The dispatching strategy.  [ops[:n]] panics unless [0 <= n <= cap(ops)];
    the clock that seeds the generator is the trace so far. *)
Definition getTargetOps : M slice :=
  let ops := ops cfg in
  if String.eqb (dispatchingStrategy cfg) "Broadcast" then ret ops
  else
    let n := randomDispatchingThreshold cfg in
    fun w =>
      let ops := {| elems := Shuffle (rand_Intn env (trace w))
                               (length (elems ops)) (elems ops);
                    spare := spare ops |} in
      if (0 <=? n) && (n <=? cap ops) then Done (slice_to ops n) w
      else Panic "slice bounds out of range" w.

(** The loop of [emailToOps] over the target ops.  [inl] is the early
    [return 0, err] of a failed encryption, [inr] the assignees and the
    success count when the loop ends.  (The count is at most the number of
    ops, so it never wraps.) *)
Fixpoint emailToOps_loop (whitelistRequest : WhitelistRequest)
    (subject requestIDToken : string) (ops : list string)
    (assignees : list string) (successCount : Z)
  : M ((Z * error) + (list string * Z)) :=
  match ops with
  | [] => ret (inr (assignees, successCount))
  | op :: rest =>
      do r <- EncodeAndEncrypt op;
      match r with
      | inr err =>
          run log ErrorLevel [("err", FStr err)] "Failed to encode opEmail Token";
          ret (inl (0, Some err))
      | inl opEmailToken =>
          let opLink := FRONTEND_DEPLOYED_URL cfg +:+ "action/"
                        +:+ requestIDToken +:+ "?adm=" +:+ opEmailToken in
          do err <- Send_ "./mailer/templates/ops.html" opLink subject op;
          match err with
          | Some e =>
              run log ErrorLevel [("recipent", FStr op); ("err", FStr e);
                                  ("ID", FStr (ID whitelistRequest))]
                    "Failed to send email to op";
              emailToOps_loop whitelistRequest subject requestIDToken rest
                assignees successCount
          | None =>
              run log InfoLevel [("recipent", FStr op);
                                 ("ID", FStr (ID whitelistRequest))]
                    "Action email sent to op";
              emailToOps_loop whitelistRequest subject requestIDToken rest
                (assignees ++ [op]) (successCount + 1)
          end
      end
  end.

Definition emailToOps (whitelistRequest : WhitelistRequest) (quoram : Z)
  : M (Z * error) :=
  let subject := "[Action Required] Whitelist request from "
                 +:+ Username whitelistRequest in
  do r <- EncodeAndEncrypt (ID whitelistRequest);
  match r with
  | inr err =>
      run log ErrorLevel [("err", FStr err)] "Failed to encode requestID Token";
      ret (0, Some err)
  | inl requestIDToken =>
      do ops <- getTargetOps;
      do r <- emailToOps_loop whitelistRequest subject requestIDToken
                (elems ops) [] 0;
      match r with
      | inl early => ret early
      | inr (assignees, successCount) =>
          run (if (0 <? length assignees)%nat then
                 do err <- dbService_UpdateRequest (ID whitelistRequest)
                             "assignees" (DStrings assignees);
                 match err with
                 | Some e =>
                     log ErrorLevel [("err", FStr e);
                                     ("assignees", FStrs assignees);
                                     ("ID", FStr (ID whitelistRequest))]
                       "Unable to update request db object with assignees metadata"
                 | None => ret tt
                 end
               else ret tt);
          if successCount >=? quoram then ret (successCount, None)
          else ret (successCount,
                    Some "Success count does not reach minimum requirement")
      end
  end.

Definition received (request : WhitelistRequest) (type : string) : M unit :=
  log InfoLevel [("username", FStr (Username request));
                 ("ID", FStr (ID request)); ("Type", FStr type)]
    "Received new task".

Definition processApproval (d : Delivery) (request : WhitelistRequest)
  : M unit :=
  run received request "Approval Task";
  run updateCache request;
  do err <- issueRCON ("whitelist add " +:+ Username request);
  match err with
  | Some e =>
      run log WarnLevel [("username", FStr (Username request)); ("err", FStr e)]
            "Unable to whitelist user at this moment. Will retry later.";
      retryMsgWithDelay d ("Whitelist " +:+ Username request)
  | None =>
      run match Headers d !! "x-retry-count" with
          | None => do _e <- emailDecision request; ret tt
          | Some _ => ret tt
          end;
      run updateOnserverStatus request "Whitelisted";
      Ack_ d
  end.

Definition processDenial (d : Delivery) (request : WhitelistRequest)
  : M unit :=
  run received request "Denial Task";
  run updateCache request;
  do _e <- emailDecision request;
  Ack_ d.

Definition processBan (d : Delivery) (request : WhitelistRequest)
  : M unit :=
  run received request "Ban Task";
  do err <- issueRCON ("ban " +:+ Username request);
  run match err with
      | Some e =>
          run log WarnLevel [("username", FStr (Username request));
                             ("err", FStr e)]
                "Unable to ban user on the game server at this moment. Will retry later.";
          retryMsgWithDelay d ("Ban " +:+ Username request)
      | None => ret tt
      end;
  run updateOnserverStatus request OnserverBanned;
  run updateCache request;
  Ack_ d.

Definition processDeactivate (d : Delivery) (request : WhitelistRequest)
  : M unit :=
  run received request "Deactivate Task";
  do err <- issueRCON ("whitelist remove " +:+ Username request);
  match err with
  | Some e =>
      run log WarnLevel [("username", FStr (Username request)); ("err", FStr e)]
            "Unable to deactivate user on the game server at this moment. Will retry later.";
      retryMsgWithDelay d ("Deactivate " +:+ Username request)
  | None =>
      run updateOnserverStatus request OnserverNone;
      run updateCache request;
      Ack_ d
  end.

Definition processNewRequest (d : Delivery) (request : WhitelistRequest)
  : M unit :=
  run received request "New Reqeust Task";
  do _e <- emailConfirmation request;
  do r <- emailToOps request (minRequiredReceiver cfg);
  let (successCount, err) := r in
  match err with
  | Some _ =>
      log ErrorLevel [("message", FRequest request);
                      ("successCount", FInt successCount)]
        "Failed to dispatch action emails to required number of ops"
  | None =>
      run updateCache request;
      Ack_ d
  end.

(** The delivery case of the [select] of [runLoop]: one delivery, decoded
    and given to the handler of its status.  The [switch] has no default
    case. *)
Definition runLoop_delivery (d : Delivery) : M unit :=
  match Body d with
  | None => ret tt
  | Some body =>
      let (whitelistRequest, err) := deserialize body in
      match err with
      | Some e =>
          run log ErrorLevel [("messageBody", FBody (Body d)); ("err", FStr e)]
                "Unable to decode message into whitelistRequest";
          Ack_ d
      | None =>
          let status := Status whitelistRequest in
          if String.eqb status StatusApproved then
            processApproval d whitelistRequest
          else if String.eqb status StatusDenied then
            processDenial d whitelistRequest
          else if String.eqb status StatusPending then
            processNewRequest d whitelistRequest
          else if String.eqb status StatusDeactivated then
            processDeactivate d whitelistRequest
          else if String.eqb status StatusBanned then
            processBan d whitelistRequest
          else ret tt
      end
  end.

End Worker.

(** ** The broker's delayed redelivery *)

(** A message published to [retry.ex] waits in [retry.queue] until its
    expiration has elapsed, and is then dead-lettered to [work.ex]: the
    worker receives it with the headers and the body it was published with
    and a new first [x-death] record that holds the expiration the message
    had. *)
Definition dead_letter (p : Publishing) (tag : Z) : Delivery :=
  let record : Table :=
    <["count" := VInt64 1]> (<["reason" := VString "expired"]>
    (<["queue" := VString "retry.queue"]> (<["exchange" := VString "retry.ex"]>
    (<["original-expiration" := VString (Expiration p)]> ∅)))) in
  let older :=
    match PHeaders p !! "x-death" with
    | Some (VList l) => l
    | _ => []
    end in
  {| Headers := <["x-death" := VList (VTable record :: older)]> (PHeaders p);
     DeliveryTag := tag;
     Body := PBody p |}.

(** The message an event put in [retry.queue], if it did. *)
Definition republished (e : event) : option Publishing :=
  match e with
  | Publish exchange _ _ _ msg None =>
      if String.eqb exchange "retry.ex" then Some msg else None
  | _ => None
  end.

(** The events a run added to the trace of the world it started from. *)
Definition added {A} (w : World) (o : outcome A) : list event :=
  drop (length (trace w)) (trace (world_of o)).

(** A retry chain: the delivery is handled; when the handler republished it,
    the broker delivers the republished message later on, which is handled
    in turn, at most [n] times in all. *)
Fixpoint chain (handle : Delivery -> M unit) (n : nat) (d : Delivery)
  : M unit :=
  match n with
  | O => ret tt
  | S n' =>
      fun w =>
        match handle d w with
        | Done _ w' =>
            match omap republished (added w (Done tt w')) with
            | p :: _ => chain handle n' (dead_letter p (DeliveryTag d + 1)) w'
            | [] => Done tt w'
            end
        | Panic msg w' => Panic msg w'
        end
  end.

(** The expirations of the messages republished along a trace. *)
Definition delays (tr : list event) : list string :=
  Expiration <$> omap republished tr.

(** The decision e-mails sent along a trace. *)
Definition is_decision_mail (e : event) : bool :=
  match e with
  | Send template _ _ _ _ =>
      String.eqb template "./mailer/templates/approve.html"
      || String.eqb template "./mailer/templates/deny.html"
  | _ => false
  end.

(** The ops an action e-mail was sent to along a trace, and those of them
    for whom the mailer returned no error. *)
Definition action_mail (e : event) : option (string * error) :=
  match e with
  | Send template _ _ recipient err =>
      if String.eqb template "./mailer/templates/ops.html"
      then Some (recipient, err) else None
  | _ => None
  end.

Definition mailed_ok (tr : list event) : list string :=
  fst <$> filter (fun x => snd x = None) (omap action_mail tr).

Definition is_ack (e : event) : bool :=
  match e with Ack _ => true | _ => false end.

Definition is_publish (e : event) : bool :=
  match e with Publish _ _ _ _ _ _ => true | _ => false end.

Definition encrypt_failed (e : event) : bool :=
  match e with Encrypt _ _ (inr _) => true | _ => false end.

Definition is_update (e : event) : bool :=
  match e with UpdateRequest _ _ _ _ => true | _ => false end.

(** ** What the claims say about a delivery *)

(** The retry count a republished message is to carry: the one of the
    delivery plus 1, or 1 when the delivery has none. *)
Definition projected_count (d : Delivery) : Z :=
  match Headers d !! "x-retry-count" with
  | Some (VInt32 v) => v + 1
  | _ => 1
  end.

(** The retry headers the worker itself and the broker write: a retry count
    that is an int32 below the largest one, and a death trace that is a list
    whose first record, if any, has a string for [original-expiration]. *)
Definition retry_count_typed (d : Delivery) : Prop :=
  match Headers d !! "x-retry-count" with
  | None => True
  | Some (VInt32 v) => - 2 ^ 31 <= v < GoInt.maxInt32
  | Some _ => False
  end.

Definition death_trace_typed (d : Delivery) : Prop :=
  match Headers d !! "x-death" with
  | None | Some (VList []) => True
  | Some (VList (VTable t :: _)) =>
      match t !! "original-expiration" with
      | Some (VString _) => True
      | _ => False
      end
  | Some _ => False
  end.

(** ** Traces, as the theorems read them *)

(** The world after more events. *)
Definition extend (w : World) (evs : list event) : World :=
  {| trace := trace w ++ evs; store := store w |}.

(** The events of a run of [retryMsgWithDelay] that gives up, and of one that
    republishes. *)
Definition gives_up (actionDescription : string) (d : Delivery) : list event :=
  [Log ErrorLevel [("action", FStr actionDescription)]
     "Unable to performe this operation. Give up on tries";
   Ack (DeliveryTag d)].

Definition retry_message (retryCount expiration : Z) (body : option string)
  : Publishing :=
  {| PHeaders := {[ "x-retry-count" := VInt32 retryCount ]};
     DeliveryMode := Persistent;
     ContentType := "application/json";
     Expiration := strconv.Itoa expiration;
     PBody := body |}.

Definition republish (msg : Publishing) (err : error) : list event :=
  Publish "retry.ex" "" false false msg err ::
  match err with
  | Some e => [Log ErrorLevel [("err", FStr e)]
                 "Unable to republish message for retry"]
  | None => []
  end.

(** The delay before the delivery at hand, as its death trace tells it: the
    [original-expiration] of the first record, when it is a string that
    [Atoi] reads without error. *)
Definition previous_delay (d : Delivery) : option Z :=
  match Headers d !! "x-death" with
  | Some (VList (VTable t :: _)) =>
      match t !! "original-expiration" with
      | Some (VString s) =>
          match strconv.Atoi s with
          | (n, None) => Some n
          | (_, Some _) => None
          end
      | _ => None
      end
  | _ => None
  end.

(** The delay of the claim: twice the previous one, 15 minutes without. *)
Definition expected_delay (d : Delivery) : Z :=
  match previous_delay d with
  | Some n => 2 * n
  | None => 15 * 60 * 1000
  end.

(** The death traces for which the worker computes that delay: none, an
    empty one, or a first record whose [original-expiration] is a number
    whose double is an [int]. *)
Definition delay_readable (d : Delivery) : Prop :=
  match Headers d !! "x-death" with
  | None | Some (VList []) => True
  | Some (VList (VTable t :: _)) =>
      match t !! "original-expiration" with
      | Some (VString s) =>
          exists n, strconv.Atoi s = (n, None) /\ GoInt.in_int (2 * n)
      | _ => False
      end
  | Some _ => False
  end.

(** The claim on the retry count, at one run of the retry step: a message
    published by the run goes to [retry.ex], carries the projected count,
    and this count is at most 6; with a projected count of at most 6 the run
    does publish one message, which carries that count and the body of the
    delivery; a projected count above 6 makes the run give up, that is log
    it and acknowledge the delivery. *)
Definition retry_count_claim (env : Env) (d : Delivery) (desc : string)
    (w : World) : Prop :=
  let o := retryMsgWithDelay env d desc w in
  (forall exchange key mandatory immediate msg err,
      Publish exchange key mandatory immediate msg err ∈ added w o ->
      exchange = "retry.ex"
      /\ PHeaders msg = {[ "x-retry-count" := VInt32 (projected_count d) ]}
      /\ projected_count d <= 6)
  /\ (projected_count d <= 6 ->
      exists msg err,
        filter is_publish (added w o)
        = [Publish "retry.ex" "" false false msg err]
        /\ PHeaders msg = {[ "x-retry-count" := VInt32 (projected_count d) ]}
        /\ PBody msg = Body d)
  /\ (6 < projected_count d -> o = Done tt (extend w (gives_up desc d))).

(** The claim on the delay, at one run: the step computes the expected
    delay, whatever the death trace. *)
Definition retry_delay_claim (d : Delivery) (w : World) : Prop :=
  retryExpiration d w = Done (expected_delay d) w.

(** 900000, 1800000, 3600000, ... as the expirations of six republished
    messages. *)
Definition doubling_delays : list string :=
  (fun k => strconv.Itoa (900000 * 2 ^ Z.of_nat k)) <$> seq 0 6.

(** The value of a decimal number read from the left with [acc] read so
    far. *)
Fixpoint uint_value (d : Decimal.uint) (acc : Z) : Z :=
  match d with
  | Decimal.Nil => acc
  | Decimal.D0 l => uint_value l (acc * 10)
  | Decimal.D1 l => uint_value l (acc * 10 + 1)
  | Decimal.D2 l => uint_value l (acc * 10 + 2)
  | Decimal.D3 l => uint_value l (acc * 10 + 3)
  | Decimal.D4 l => uint_value l (acc * 10 + 4)
  | Decimal.D5 l => uint_value l (acc * 10 + 5)
  | Decimal.D6 l => uint_value l (acc * 10 + 6)
  | Decimal.D7 l => uint_value l (acc * 10 + 7)
  | Decimal.D8 l => uint_value l (acc * 10 + 8)
  | Decimal.D9 l => uint_value l (acc * 10 + 9)
  end.

(** A run only adds events to the trace. *)
Definition trace_grows {A} (m : M A) : Prop :=
  forall w, exists evs, trace (world_of (m w)) = trace w ++ evs.

(** A run adds at most [n] events of the kind [P] to the trace. *)
Definition at_most {A} (P : event -> bool) (n : nat) (m : M A) : Prop :=
  forall w, exists evs,
    trace (world_of (m w)) = trace w ++ evs
    /\ (length (filter P evs) <= n)%nat.

(** A republished message that carries no retry count. *)
Definition uncounted (e : event) : bool :=
  match republished e with
  | Some msg => negb (bool_decide (is_Some (PHeaders msg !! "x-retry-count")))
  | None => false
  end.

(** The delivery of a retry chain after [k] republishings: it carries the
    count [k] (none when [k] is 0) and the delay number [k] of the doubling
    sequence is the one to come. *)
Definition attempt (k : nat) (d : Delivery) : Prop :=
  retry_count_typed d
  /\ projected_count d = Z.of_nat k + 1
  /\ delay_readable d
  /\ expected_delay d = 900000 * 2 ^ Z.of_nat k.

(** The broker accepts every message published to [retry.ex]. *)
Definition publish_succeeds (env : Env) : Prop :=
  forall tr msg, channel_Publish env tr "retry.ex" msg = None.

(** ** What the claims say about the main loop and the codec *)

Definition known_status (status : string) : bool :=
  String.eqb status StatusApproved || String.eqb status StatusDenied
  || String.eqb status StatusPending || String.eqb status StatusDeactivated
  || String.eqb status StatusBanned.

(** The claim on a task of unknown status: the delivery is acknowledged, and
    nothing else happens. *)
Definition unknown_status_claim (cfg : Config) (env : Env) (d : Delivery)
    (w : World) : Prop :=
  forall body request,
    Body d = Some body -> deserialize body = (request, None) ->
    known_status (Status request) = false ->
    added w (runLoop_delivery cfg env d w) = [Ack (DeliveryTag d)].

(** The keys that name a field of the request. *)
Definition known_key (key : string) : bool :=
  equalFold key "_id" || equalFold key "username" || equalFold key "email"
  || equalFold key "status".

Definition names (field : string) (member : string * json.value) : bool :=
  equalFold (fst member) field.

(** The claim on a payload that misses the id or the status: decoding it is
    an error. *)
Definition missing_field_claim (b : string) : Prop :=
  forall members rest,
    json.Scan b = Some (json.Object members, rest) ->
    existsb (names "_id") members = false
    \/ existsb (names "status") members = false ->
    snd (deserialize b) <> None.

(** A member whose value the decoder stores without error: the id is a
    string of 24 hexadecimal digits, another field is a string or null, and
    a key that names no field may come with any value. *)
Definition storable (member : string * json.value) : bool :=
  let (key, v) := member in
  if equalFold key "_id" then
    match ObjectID_UnmarshalJSON v with inl _ => true | inr _ => false end
  else if known_key key then
    match v with json.Str _ | json.Null => true | _ => false end
  else true.

(** ** What the claims say about the dispatcher *)

(** Under the random strategy the dispatcher returns min(N, L) of the
    configured ops, none of them twice. *)
Definition dispatch_claim (cfg : Config) (env : Env) (w : World) : Prop :=
  String.eqb (dispatchingStrategy cfg) "Broadcast" = false ->
  exists s,
    getTargetOps cfg env w = Done s w
    /\ len s = randomDispatchingThreshold cfg `min` len (ops cfg)
    /\ elems s ⊆+ elems (ops cfg).

(** ** What the claims say about the new-request handler *)

(** The ops an action e-mail was sent to, whatever the mailer answered. *)
Definition recipients (tr : list event) : list string :=
  fst <$> omap action_mail tr.

(** The two events of an encryption that fails. *)
Definition encode_failure (plaintext pass err what : string) : list event :=
  [Encrypt plaintext pass (inr err); Log ErrorLevel [("err", FStr err)] what].

(** What [emailToOps] returns when no encryption fails. *)
Definition quorum_result (sent : list string) (quoram : Z) : Z * error :=
  let successCount := Z.of_nat (length sent) in
  (successCount,
   if successCount >=? quoram then None
   else Some "Success count does not reach minimum requirement").

(** The events of the update of the assignees, and the store after it. *)
Definition assignees_update (env : Env) (request : WhitelistRequest)
    (sent : list string) (w : World) : list event :=
  match sent with
  | [] => []
  | _ =>
      let err := db_UpdateRequest env (trace w) (ID request) "assignees"
                   (DStrings sent) in
      UpdateRequest (ID request) "assignees" (DStrings sent) err ::
      match err with
      | Some e =>
          [Log ErrorLevel [("err", FStr e); ("assignees", FStrs sent);
                           ("ID", FStr (ID request))]
             "Unable to update request db object with assignees metadata"]
      | None => []
      end
  end.

Definition assignees_store (env : Env) (request : WhitelistRequest)
    (sent : list string) (w : World) : gmap ObjectID Document :=
  match sent with
  | [] => store w
  | _ =>
      match db_UpdateRequest env (trace w) (ID request) "assignees"
              (DStrings sent) with
      | None => alter (set_field "assignees" (DStrings sent)) (ID request)
                  (store w)
      | Some _ => store w
      end
  end.

(** The configurations with which the dispatcher returns a selection. *)
Definition dispatcher_returns (cfg : Config) : Prop :=
  String.eqb (dispatchingStrategy cfg) "Broadcast" = true
  \/ 0 <= randomDispatchingThreshold cfg <= cap (ops cfg).

(** The store accepts every update. *)
Definition store_accepts (env : Env) : Prop :=
  forall tr id field v, db_UpdateRequest env tr id field v = None.

(** The new-request handler up to the call of [emailToOps]. *)
Definition new_request_prologue (cfg : Config) (env : Env)
    (request : WhitelistRequest) : M error :=
  run received request "New Reqeust Task";
  emailConfirmation cfg env request.

(** The last event of a handler that misses the quorum. *)
Definition dispatch_failed (request : WhitelistRequest) (successCount : Z)
  : event :=
  Log ErrorLevel [("message", FRequest request);
                  ("successCount", FInt successCount)]
    "Failed to dispatch action emails to required number of ops".

Definition is_cache_refresh (e : event) : bool :=
  match e with
  | UpdateAllRequests _ | UpdateRealTimeStats _ _ => true
  | _ => false
  end.

(** The claim on the quorum, at one run of the new-request handler: below
    the quorum the handler returns after an error log, with no acknowledge
    and no publish; at the quorum or above it refreshes the cache and
    acknowledges. *)
Definition quorum_claim (cfg : Config) (env : Env) (d : Delivery)
    (request : WhitelistRequest) (w : World) : Prop :=
  let o := processNewRequest cfg env d request w in
  let sent := Z.of_nat (length (mailed_ok (added w o))) in
  (sent < minRequiredReceiver cfg ->
   (exists w', o = Done tt w')
   /\ (exists n, last (added w o) = Some (dispatch_failed request n))
   /\ filter is_ack (added w o) = []
   /\ filter is_publish (added w o) = [])
  /\ (minRequiredReceiver cfg <= sent ->
      (exists w', o = Done tt w')
      /\ filter is_cache_refresh (added w o) <> []
      /\ last (added w o) = Some (Ack (DeliveryTag d))).

(** The claim on the assignees, at one run of [emailToOps]: the document of
    the request ends with the ops that were mailed as its assignees. *)
Definition assignees_claim (cfg : Config) (env : Env)
    (request : WhitelistRequest) (quoram : Z) (w : World) : Prop :=
  let o := emailToOps cfg env request quoram w in
  exists doc,
    store (world_of o) !! ID request = Some doc
    /\ assignees doc = Some (mailed_ok (added w o)).

(** ** Sample configurations, environments and deliveries *)

Module Sample.

Definition store0 : gmap ObjectID Document :=
  {[ "5d8e1b2f9c0a4b0012345678" :=
       {| assignees := None; onserverStatus := None |} ]}.

Definition w0 : World := {| trace := []; store := store0 |}.

(** The world of a redelivery: the document has the assignees an earlier
    run of the handler gave it. *)
Definition w1 : World :=
  {| trace := [];
     store := {[ "5d8e1b2f9c0a4b0012345678" :=
                   {| assignees := Some ["m1@x"]; onserverStatus := None |} ]} |}.

Definition alice (status : string) : WhitelistRequest :=
  {| ID := "5d8e1b2f9c0a4b0012345678"; Username := "alice";
     Email := "a@x"; Status := status |}.

Definition cfg (strategy : string) (n quorum : Z) (l : list string) : Config :=
  {| ops := {| elems := l; spare := [] |};
     dispatchingStrategy := strategy;
     randomDispatchingThreshold := n;
     minRequiredReceiver := quorum;
     passphrase := "secret";
     approvedEmailTitle := "Approved";
     deniedEmailTitle := "Denied";
     confirmationEmailTitle := "Received";
     FRONTEND_DEPLOYED_URL := "https://mc.example/" |}.

Definition moderators : list string := ["m1@x"; "m2@x"; "m3@x"].

(** Every collaborator answers without error, except those named by the
    arguments: the game server when [rcon_up] is false, the encryption of
    the plaintexts of [unencryptable], the mail to the recipients of
    [unreachable]. *)
Definition env (rcon_up : bool) (unencryptable unreachable : list string)
  : Env :=
  {| rcon_SendCommand := fun _ _ =>
       if rcon_up then None else Some "dial tcp: connection refused";
     utils_EncodeAndEncrypt := fun _ plaintext _ =>
       if bool_decide (plaintext ∈ unencryptable)
       then inr "cipher: message too large"
       else inl ("enc-" +:+ plaintext);
     mailer_Send := fun _ _ _ _ recipient =>
       if bool_decide (recipient ∈ unreachable)
       then Some "smtp: mailbox unavailable" else None;
     db_UpdateRequest := fun _ _ _ _ => None;
     cache_UpdateAllRequests := fun _ => None;
     cache_UpdateRealTimeStats := fun _ _ => None;
     channel_Publish := fun _ _ _ => None;
     rand_Intn := fun _ n => 0%nat |}.

(** The game server is down until a message has been republished. *)
Definition flaky : Env :=
  {| rcon_SendCommand := fun tr _ =>
       if existsb is_publish tr then None
       else Some "dial tcp: connection refused";
     utils_EncodeAndEncrypt := utils_EncodeAndEncrypt (env true [] []);
     mailer_Send := mailer_Send (env true [] []);
     db_UpdateRequest := db_UpdateRequest (env true [] []);
     cache_UpdateAllRequests := cache_UpdateAllRequests (env true [] []);
     cache_UpdateRealTimeStats := cache_UpdateRealTimeStats (env true [] []);
     channel_Publish := channel_Publish (env true [] []);
     rand_Intn := rand_Intn (env true [] []) |}.

Definition delivery (headers : Table) (body : string) : Delivery :=
  {| Headers := headers; DeliveryTag := 1; Body := Some body |}.

(** A delivery whose retry count is the largest int32. *)
Definition overflowing : Delivery :=
  delivery {[ "x-retry-count" := VInt32 2147483647 ]} "{}".

(** A delivery after six retries, whose first death record has no
    [original-expiration] (the record of a message that had no expiration
    of its own), has one that is no number, has the one the sixth
    republishing gave it. *)
Definition sixth (record : Table) : Delivery :=
  delivery (<["x-retry-count" := VInt32 6]>
            {[ "x-death" := VList [VTable record] ]}) "{}".

(** A delivery after five retries: the death record has the expiration
    the fifth republishing gave the message. *)
Definition fifth : Delivery :=
  delivery (<["x-retry-count" := VInt32 5]>
            {[ "x-death" := VList [VTable {[ "original-expiration"
                                             := VString "14400000" ]}] ]})
    "{}".

Definition untraceable : Delivery := sixth ∅.
Definition unreadable : Delivery :=
  sixth {[ "original-expiration" := VString "abc" ]}.
Definition exhausted : Delivery :=
  sixth {[ "original-expiration" := VString "28800000" ]}.

(** The text of a JSON object whose members are strings. *)
Definition quoted (s : string) : string :=
  String json.dquote s +:+ String json.dquote EmptyString.

Fixpoint members_text (ms : list (string * string)) : string :=
  match ms with
  | [] => EmptyString
  | [(k, v)] => quoted k +:+ ":" +:+ quoted v
  | (k, v) :: ms' => quoted k +:+ ":" +:+ quoted v +:+ "," +:+ members_text ms'
  end.

Definition object_text (ms : list (string * string)) : string :=
  "{" +:+ members_text ms +:+ "}".

Definition body (status : string) : string :=
  object_text [("_id", "5d8e1b2f9c0a4b0012345678"); ("username", "alice");
               ("email", "a@x"); ("status", status)].

End Sample.

(** * The handlers beyond the claims *)

(** ** Kinds of events *)

Definition is_command (e : event) : bool :=
  match e with SendCommand _ _ => true | _ => false end.

Definition command_failed (e : event) : bool :=
  match e with SendCommand _ (Some _) => true | _ => false end.

Definition is_mail (e : event) : bool :=
  match e with Send _ _ _ _ _ => true | _ => false end.

(** The onserver status an event asked the store to set. *)
Definition status_update (e : event) : option (ObjectID * string) :=
  match e with
  | UpdateRequest id field (DString s) _ =>
      if String.eqb field "onserverStatus" then Some (id, s) else None
  | _ => None
  end.


(** ** Bodies the decoder refuses as a whole *)

(** A body that is no JSON text, or a JSON value other than an object and
    [null]. *)
Definition not_a_request (body : string) : Prop :=
  match json.Scan body with
  | Some (json.Object _, _) | Some (json.Null, _) => False
  | _ => True
  end.

(** The events of the main loop on a body it cannot decode. *)
Definition discarded (d : Delivery) (e : string) : list event :=
  [Log ErrorLevel [("messageBody", FBody (Body d)); ("err", FStr e)]
     "Unable to decode message into whitelistRequest";
   Ack (DeliveryTag d)].

(** * The connection to the broker

    [Start], [updateDeliveryChannel], [reconnect] and the close case of
    [runLoop] set up and repair the connection of the worker.  They write
    the fields of the [Worker] struct and talk to the broker only, so they
    run over a state of their own: the struct, the calls made so far, and
    the number of Go channels made so far.  A run ends by returning, or
    halts: [logrus]'s [Fatal] logs and exits with status 1, a nil pointer
    is dereferenced, or the goroutine blocks for ever. *)

Inductive halt :=
| Exit (code : Z)
| Panicked (msg : string)
| Blocked.

Inductive result (S A : Type) :=
| Return (a : A) (s : S)
| Halt (h : halt) (s : S).
Arguments Return {S A} a s.
Arguments Halt {S A} h s.

Definition Prog (S A : Type) : Type := S -> result S A.

Definition pure {S A} (a : A) : Prog S A := fun s => Return a s.

Definition andThen {S A B} (m : Prog S A) (k : A -> Prog S B) : Prog S B :=
  fun s => match m s with
           | Return a s' => k a s'
           | Halt h s' => Halt h s'
           end.

Definition halts {S A} (h : halt) : Prog S A := fun s => Halt h s.

Definition state_of {S A} (r : result S A) : S :=
  match r with Return _ s => s | Halt _ s => s end.

Declare Scope prog_scope.
Delimit Scope prog_scope with prog.
Notation "'do' x <- m ; k" := (andThen m (fun x => k))
  (at level 10, x name, m at level 100, k at level 200) : prog_scope.
Notation "'run' m ; k" := (andThen m (fun _ => k))
  (at level 10, m at level 100, k at level 200) : prog_scope.

(** ** try.Do (gopkg.in/matryer/try.v1)

    The library is no part of the repository.  [Do] calls the function with
    the attempts 1, 2, ... until it returns without error or asks not to be
    called again, and gives up with an error of its own after [MaxRetries]
    attempts. *)

Module try.

Definition MaxRetries : Z := 10.

Definition errMaxRetriesReached : string := "exceeded retry limit".

(** [err == nil] *)
Definition is_nil (err : error) : bool :=
  match err with None => true | Some _ => false end.

(** The loop of [Do] from the attempt at hand on; [fuel] bounds the number
    of rounds, which [MaxRetries] bounds in the source. *)
Fixpoint Do_from {S} (fuel : nat) (fn : Z -> Prog S (bool * error))
    (attempt : Z) : Prog S error :=
  match fuel with
  | O => pure (Some errMaxRetriesReached)
  | S fuel' =>
      andThen (fn attempt) (fun r =>
        let (cont, err) := r in
        if negb cont || is_nil err then pure err
        else
          let attempt := attempt + 1 in
          if attempt >? MaxRetries then pure (Some errMaxRetriesReached)
          else Do_from fuel' fn attempt)
  end.

Definition Do {S} (fn : Z -> Prog S (bool * error)) : Prog S error :=
  Do_from (Z.to_nat MaxRetries) fn 1.

End try.

(** ** The worker and the broker *)

Module lifecycle.

#[local] Open Scope prog_scope.

(** Connections, channels and consumers are known by the number the broker
    gave them, Go channels by their rank of creation. *)
Definition Connection := nat.
Definition Channel := nat.
Definition Deliveries := nat.
Definition GoChan := nat.

(** One call, with what it answered.  A nil [amqp.Table] is the empty
    one. *)
Inductive call :=
| Dial (url : string) (res : Connection + string)
| NotifyClose (c : Connection) (receiver : GoChan)
| OpenChannel (c : Connection) (res : Channel + string)
| ExchangeDeclare (ch : Channel) (name kind : string)
    (durable autoDelete internal noWait : bool) (args : Table) (err : error)
| QueueDeclare (ch : Channel) (name : string)
    (durable autoDelete exclusive noWait : bool) (args : Table) (err : error)
| QueueBind (ch : Channel) (name key exchange : string) (noWait : bool)
    (args : Table) (err : error)
| Qos (ch : Channel) (prefetchCount prefetchSize : Z) (global : bool)
    (err : error)
| Consume (ch : Channel) (queue consumer : string)
    (autoAck exclusive noLocal noWait : bool) (args : Table)
    (res : Deliveries + string)
| Sleep (nanoseconds : Z)
| Logged (lv : Level) (fields : list (string * Field)) (msg : string)
| Fatal (fields : list (string * Field)) (msg : string)
| Go (routine : string)
| WaitGroupDone.

(** The fields of the [Worker] struct that these functions write; a nil
    pointer is [None]. *)
Record Worker := {
  conn : option Connection;
  channel : option Channel;
  rabbitCloseError : GoChan;
  delivery : option Deliveries
}.

Record State := {
  worker : Worker;
  calls : list call;                  (* oldest first *)
  chans : nat                         (* Go channels made so far *)
}.

(** What the broker answers; each oracle sees the calls made so far. *)
Record Broker := {
  amqp_Dial : list call -> string -> Connection + string;
  conn_Channel : list call -> Connection -> Channel + string;
  ch_ExchangeDeclare : list call -> Channel -> error;
  ch_QueueDeclare : list call -> Channel -> error;
  ch_QueueBind : list call -> Channel -> error;
  ch_Qos : list call -> Channel -> error;
  ch_Consume : list call -> Channel -> Deliveries + string
}.

(** The two results of a Go call that returns a value and an error. *)
Definition value_of {A} (r : A + string) : option A :=
  match r with inl a => Some a | inr _ => None end.

Definition error_of {A} (r : A + string) : error :=
  match r with inl _ => None | inr e => Some e end.

Definition Second : Z := 1000000000.

Definition newline : string := String (Ascii.ascii_of_nat 10) "".

Definition nil_pointer {A} : Prog State A :=
  halts (Panicked "invalid memory address or nil pointer dereference").

Section Lifecycle.

(** [rabbitMQConn] is the key of the configuration registry the worker
    dials. *)
Context (rabbitMQConn : string) (broker : Broker).

Definition record (c : call) : Prog State unit :=
  fun s => Return tt {| worker := worker s; calls := calls s ++ [c];
                        chans := chans s |}.

Definition ask {R} (f : list call -> R) (mk : R -> call) : Prog State R :=
  fun s => let r := f (calls s) in
           Return r {| worker := worker s; calls := calls s ++ [mk r];
                       chans := chans s |}.

Definition get : Prog State Worker := fun s => Return (worker s) s.

Definition set (f : Worker -> Worker) : Prog State unit :=
  fun s => Return tt {| worker := f (worker s); calls := calls s;
                        chans := chans s |}.

(** [make(chan T)] *)
Definition make : Prog State GoChan :=
  fun s => Return (chans s) {| worker := worker s; calls := calls s;
                               chans := S (chans s) |}.

(** [logger.WithFields(fields).Fatal(msg)]: the entry is logged and the
    process exits with status 1. *)
Definition fatal {A} (fields : list (string * Field)) (msg : string)
  : Prog State A :=
  run record (Fatal fields msg);
  halts (Exit 1).

Definition failOnError (err : error) (msg : string) : Prog State unit :=
  match err with
  | Some e => fatal [("err", FStr e)] msg
  | None => pure tt
  end.

Definition updateDeliveryChannel : Prog State unit :=
  do w <- get;
  match channel w with
  | None => nil_pointer
  | Some ch =>
      do r <- ask (fun tr => ch_Consume broker tr ch)
                  (Consume ch "work.queue" "" false false false false ∅);
      run failOnError (error_of r) "Failed to register a consumer";
      set (fun w => {| conn := conn w; channel := channel w;
                       rabbitCloseError := rabbitCloseError w;
                       delivery := value_of r |})
  end.

(** The function [reconnect] gives to [try.Do]. *)
Definition reconnect_attempt (attempt : Z) : Prog State (bool * error) :=
  run (if attempt >? 1 then
         record (Logged InfoLevel []
                   ("Trying to connect to RabbitMQ [" +:+ strconv.Itoa attempt
                    +:+ "/3]" +:+ newline))
       else pure tt);
  do r <- ask (fun tr => amqp_Dial broker tr rabbitMQConn) (Dial rabbitMQConn);
  run match r with
      | inr _ => record (Sleep (5 * Second))
      | inl c =>
          set (fun w => {| conn := Some c; channel := channel w;
                           rabbitCloseError := rabbitCloseError w;
                           delivery := delivery w |})
      end;
  pure (attempt <? 3, error_of r).

Definition reconnect : Prog State unit :=
  run record (Logged WarnLevel []
                "Worker connection with message queue closed unexpectedly. About to reconnect");
  do c <- make;
  run set (fun w => {| conn := conn w; channel := channel w;
                       rabbitCloseError := c; delivery := delivery w |});
  do err <- try.Do reconnect_attempt;
  run match err with
      | Some e => fatal [("err", FStr e)] "Unable to reconnect to message queue"
      | None => pure tt
      end;
  do w <- get;
  match conn w with
  | None => nil_pointer
  | Some c =>
      do r <- ask (fun tr => conn_Channel broker tr c) (OpenChannel c);
      run failOnError (error_of r) "Failed to open a channel";
      run set (fun w => {| conn := conn w; channel := value_of r;
                           rabbitCloseError := rabbitCloseError w;
                           delivery := delivery w |});
      run updateDeliveryChannel;
      run record (Logged InfoLevel []
                    "Worker-message queue connection established. Continue to process messages");
      do w <- get;
      match conn w with
      | None => nil_pointer
      | Some c => record (NotifyClose c (rabbitCloseError w))
      end
  end.

(** The arguments of the work queue: expired and rejected messages go to
    [retry.ex]; a message lives 24 hours ([int32(8.64e+7)]). *)
Definition work_queue_args : Table :=
  <["x-message-ttl" := VInt32 86400000]>
    (<["x-dead-letter-exchange" := VString "retry.ex"]> ∅).

(** [Start]; the goroutines it starts are events, and its last statement,
    [<-forever], blocks for ever. *)
Definition Start : Prog State unit :=
  do r <- ask (fun tr => amqp_Dial broker tr rabbitMQConn) (Dial rabbitMQConn);
  run failOnError (error_of r) "Failed to connect to RabbitMQ";
  match value_of r with
  | None => nil_pointer
  | Some c =>
      run set (fun w => {| conn := Some c; channel := channel w;
                           rabbitCloseError := rabbitCloseError w;
                           delivery := delivery w |});
      do w <- get;
      run record (NotifyClose c (rabbitCloseError w));
      do r <- ask (fun tr => conn_Channel broker tr c) (OpenChannel c);
      run failOnError (error_of r) "Failed to open a channel";
      match value_of r with
      | None => nil_pointer
      | Some ch =>
          run set (fun w => {| conn := conn w; channel := Some ch;
                               rabbitCloseError := rabbitCloseError w;
                               delivery := delivery w |});
          let args := work_queue_args in
          do err <- ask (fun tr => ch_ExchangeDeclare broker tr ch)
                        (ExchangeDeclare ch "work.ex" "fanout" true false false
                           false ∅);
          run match err with
              | Some _ => failOnError err ""
              | None => pure tt
              end;
          do err <- ask (fun tr => ch_QueueDeclare broker tr ch)
                        (QueueDeclare ch "work.queue" true false false false
                           args);
          run match err with
              | Some _ => failOnError err ""
              | None => pure tt
              end;
          do err <- ask (fun tr => ch_QueueBind broker tr ch)
                        (QueueBind ch "work.queue" "" "work.ex" false ∅);
          run match err with
              | Some _ => failOnError err ""
              | None => pure tt
              end;
          run failOnError err "Failed to declare a queue";
          do err <- ask (fun tr => ch_Qos broker tr ch) (Qos ch 1 0 false);
          run failOnError err "Failed to set QoS";
          do _forever <- make;
          run updateDeliveryChannel;
          run record (Go "aggregateStats");
          run record (Go "runLoop");
          run record (Logged InfoLevel []
                        "Worker started. Listening for messages..");
          run record WaitGroupDone;
          halts Blocked
      end
  end.

(** The close case of the [select] of [runLoop]: a notification that
    carries an error starts the reconnection; the nil of a notification
    channel that was closed does nothing. *)
Definition runLoop_closed (rabbitErr : error) : Prog State unit :=
  match rabbitErr with
  | Some _ => reconnect
  | None => pure tt
  end.

End Lifecycle.

(** The calls a run added to the state it started from. *)
Definition made {A} (s : State) (r : result State A) : list call :=
  drop (length (calls s)) (calls (state_of r)).

(** Kinds of calls. *)
Definition dial_result (c : call) : option (Connection + string) :=
  match c with Dial _ res => Some res | _ => None end.

Definition is_dial (c : call) : bool :=
  match c with Dial _ _ => true | _ => false end.

Definition dial_failed (c : call) : bool :=
  match c with Dial _ (inr _) => true | _ => false end.

Definition dial_ok (c : call) : bool :=
  match c with Dial _ (inl _) => true | _ => false end.

Definition is_sleep (c : call) : bool :=
  match c with Sleep _ => true | _ => false end.

Definition is_fatal (c : call) : bool :=
  match c with Fatal _ _ => true | _ => false end.

(** The calls to the broker, by the name of the method; [None] for a call
    that is none. *)
Definition method (c : call) : option string :=
  match c with
  | Dial _ _ => Some "Dial"
  | NotifyClose _ _ => Some "NotifyClose"
  | OpenChannel _ _ => Some "Channel"
  | ExchangeDeclare _ _ _ _ _ _ _ _ _ => Some "ExchangeDeclare"
  | QueueDeclare _ _ _ _ _ _ _ _ => Some "QueueDeclare"
  | QueueBind _ _ _ _ _ _ _ => Some "QueueBind"
  | Qos _ _ _ _ _ => Some "Qos"
  | Consume _ _ _ _ _ _ _ _ _ => Some "Consume"
  | _ => None
  end.

(** The error a call to the broker returned, if it returned one. *)
Definition failure (c : call) : error :=
  match c with
  | Dial _ res => error_of res
  | OpenChannel _ res => error_of res
  | ExchangeDeclare _ _ _ _ _ _ _ _ err => err
  | QueueDeclare _ _ _ _ _ _ _ err => err
  | QueueBind _ _ _ _ _ _ err => err
  | Qos _ _ _ _ err => err
  | Consume _ _ _ _ _ _ _ _ res => error_of res
  | _ => None
  end.

Definition failed (c : call) : bool :=
  match failure c with Some _ => true | None => false end.

(** The calls of a start-up on which every call succeeds, by method. *)
Definition setup_methods : list string :=
  ["Dial"; "NotifyClose"; "Channel"; "ExchangeDeclare"; "QueueDeclare";
   "QueueBind"; "Qos"; "Consume"].

(** The message [Start] and [updateDeliveryChannel] give to [failOnError]
    after the call of a method. *)
Definition fatal_message (method : string) : string :=
  if String.eqb method "Dial" then "Failed to connect to RabbitMQ"
  else if String.eqb method "Channel" then "Failed to open a channel"
  else if String.eqb method "Qos" then "Failed to set QoS"
  else if String.eqb method "Consume" then "Failed to register a consumer"
  else "".

(** The last events of a start-up that succeeds. *)
Definition started : list call :=
  [Go "aggregateStats"; Go "runLoop";
   Logged InfoLevel [] "Worker started. Listening for messages..";
   WaitGroupDone].

(** The message of the reconnection before its attempt number [n]. *)
Definition trying (n : string) : call :=
  Logged InfoLevel [] ("Trying to connect to RabbitMQ [" +:+ n +:+ "/3]"
                       +:+ newline).

Definition about_to_reconnect : call :=
  Logged WarnLevel []
    "Worker connection with message queue closed unexpectedly. About to reconnect".

(** A broker that refuses the first [down] dials and accepts every call
    after them; what it opens is numbered by the calls made so far. *)
Definition flaky_broker (down : nat) : Broker :=
  {| amqp_Dial := fun tr _ =>
       if (length (filter is_dial tr) <? down)%nat
       then inr "dial tcp: connection refused" else inl (length tr);
     conn_Channel := fun tr _ => inl (length tr);
     ch_ExchangeDeclare := fun _ _ => None;
     ch_QueueDeclare := fun _ _ => None;
     ch_QueueBind := fun _ _ => None;
     ch_Qos := fun _ _ => None;
     ch_Consume := fun tr _ => inl (length tr) |}.

(** A worker as [NewWorker] returns it, with the Go channel number 0 for
    the close notifications. *)
Definition state0 : State :=
  {| worker := {| conn := None; channel := None; rabbitCloseError := 0%nat;
                  delivery := None |};
     calls := [];
     chans := 1 |}.

End lifecycle.

(** * The earlier worker

    [server/worker/worker.go] is the worker before the retry exchange, the
    game server and the cache: it has three handlers, and a delivery it
    cannot serve is rejected with [d.Nack(false, false)], which the broker
    dead-letters, where the later worker acknowledges or republishes.  It
    reads its configuration from a [config.Config] struct.  Its functions
    run over the list of the actions made so far. *)

Module legacy.

#[local] Open Scope prog_scope.

(** The calls of the later worker, and the one call it does not make. *)
Inductive action :=
| Did (e : event)
| Nack (tag : Z) (multiple requeue : bool).

(** Modelled from the spec: the struct [config.Config] is declared outside
    the files at hand; these are the fields the worker reads, with the types
    of the configuration keys of the same names, and the environment
    variable it reads beside them. *)
Record Config := {
  PassPhrase : string;
  Ops : slice;
  DispatchingStrategy : string;
  RandomDispatchingThreshold : Z;
  FRONTEND_DEPLOYED_URL : string
}.

(** What the collaborators answer; each oracle sees the actions made so
    far. *)
Record Env := {
  utils_EncodeAndEncrypt : list action -> string -> string -> string + string;
  mailer_Send : list action -> string -> string -> string -> string -> error;
  db_UpdateRequest : list action -> ObjectID -> string -> DocValue -> error;
  rand_Intn : list action -> nat -> nat
}.

Section Worker.

Context (c : Config) (env : Env).

Definition act (a : action) : Prog (list action) unit :=
  fun tr => Return tt (tr ++ [a]).

Definition ask {R} (f : list action -> R) (mk : R -> action)
  : Prog (list action) R :=
  fun tr => let r := f tr in Return r (tr ++ [mk r]).

Definition log (lv : Level) (fields : list (string * Field)) (msg : string)
  : Prog (list action) unit :=
  act (Did (Log lv fields msg)).

(** [d.Ack(false)] and [d.Nack(false, false)]; the error they return is
    dropped by every caller. *)
Definition Ack_ (d : Delivery) : Prog (list action) unit :=
  act (Did (Ack (DeliveryTag d))).

Definition Nack_ (d : Delivery) (multiple requeue : bool)
  : Prog (list action) unit :=
  act (Nack (DeliveryTag d) multiple requeue).

Definition EncodeAndEncrypt (plaintext : string)
  : Prog (list action) (string + string) :=
  ask (fun tr => utils_EncodeAndEncrypt env tr plaintext (PassPhrase c))
      (fun r => Did (Encrypt plaintext (PassPhrase c) r)).

(** [mailer.Send(template, map[string]string{"link": link}, subject, to,
    worker.c)] *)
Definition Send_ (template link subject recipient : string)
  : Prog (list action) error :=
  ask (fun tr => mailer_Send env tr template link subject recipient)
      (fun r => Did (Send template link subject recipient r)).

Definition dbService_UpdateRequest (id : ObjectID) (field : string)
    (v : DocValue) : Prog (list action) error :=
  ask (fun tr => db_UpdateRequest env tr id field v)
      (fun r => Did (UpdateRequest id field v r)).

Definition emailDecision (whitelistRequest : WhitelistRequest)
  : Prog (list action) error :=
  do r <- EncodeAndEncrypt (ID whitelistRequest);
  match r with
  | inr err =>
      run log ErrorLevel [("err", FStr err)] "Failed to encode requestID Token";
      pure (Some err)
  | inl requestIDToken =>
      let (subject, template) :=
        if String.eqb (Status whitelistRequest) "Approved"
        then ("Your request to join the server is approved",
              "./mailer/templates/approve.html")
        else ("Update regarding your request to join the server",
              "./mailer/templates/deny.html") in
      do err <- Send_ template requestIDToken subject (Email whitelistRequest);
      run match err with
          | Some e =>
              log ErrorLevel [("recipent", FStr (Email whitelistRequest));
                              ("err", FStr e);
                              ("ID", FStr (ID whitelistRequest))]
                "Failed to send decision email"
          | None =>
              log InfoLevel [("recipent", FStr (Email whitelistRequest))]
                "Decision email sent"
          end;
      pure err
  end.

Definition emailConfirmation (whitelistRequest : WhitelistRequest)
  : Prog (list action) error :=
  let subject := "Your request to join the server has been received" in
  do r <- EncodeAndEncrypt (ID whitelistRequest);
  match r with
  | inr err =>
      run log ErrorLevel [("err", FStr err)] "Failed to encode requestID Token";
      pure (Some err)
  | inl requestIDToken =>
      let confirmationLink :=
        FRONTEND_DEPLOYED_URL c +:+ "status/" +:+ requestIDToken in
      do err <- Send_ "./mailer/templates/confirmation.html" confirmationLink
                  subject (Email whitelistRequest);
      run match err with
          | Some e =>
              log ErrorLevel [("recipent", FStr (Email whitelistRequest));
                              ("err", FStr e);
                              ("ID", FStr (ID whitelistRequest))]
                "Failed to send confirmation email"
          | None =>
              log InfoLevel [("recipent", FStr (Email whitelistRequest))]
                "Confirmation email sent"
          end;
      pure err
  end.

(** The dispatching strategy, as in the later worker: [ops[:n]] panics
    unless [0 <= n <= cap(ops)]. *)
Definition getTargetOps : Prog (list action) slice :=
  let ops := Ops c in
  if String.eqb (DispatchingStrategy c) "Broadcast" then pure ops
  else
    let n := RandomDispatchingThreshold c in
    fun tr =>
      let ops := {| elems := Shuffle (rand_Intn env tr)
                               (length (elems ops)) (elems ops);
                    spare := spare ops |} in
      if (0 <=? n) && (n <=? cap ops) then Return (slice_to ops n) tr
      else Halt (Panicked "slice bounds out of range") tr.

Fixpoint emailToOps_loop (whitelistRequest : WhitelistRequest)
    (subject requestIDToken : string) (ops : list string)
    (assignees : list string) (successCount : Z)
  : Prog (list action) ((Z * error) + (list string * Z)) :=
  match ops with
  | [] => pure (inr (assignees, successCount))
  | op :: rest =>
      do r <- EncodeAndEncrypt op;
      match r with
      | inr err =>
          run log ErrorLevel [("err", FStr err)] "Failed to encode opEmail Token";
          pure (inl (0, Some err))
      | inl opEmailToken =>
          let opLink := FRONTEND_DEPLOYED_URL c +:+ "action/"
                        +:+ requestIDToken +:+ "?adm=" +:+ opEmailToken in
          do err <- Send_ "./mailer/templates/ops.html" opLink subject op;
          match err with
          | Some e =>
              run log ErrorLevel [("recipent", FStr op); ("err", FStr e);
                                  ("ID", FStr (ID whitelistRequest))]
                    "Failed to send email to op";
              emailToOps_loop whitelistRequest subject requestIDToken rest
                assignees successCount
          | None =>
              run log InfoLevel [("recipent", FStr op);
                                 ("ID", FStr (ID whitelistRequest))]
                    "Action email sent to op";
              emailToOps_loop whitelistRequest subject requestIDToken rest
                (assignees ++ [op]) (successCount + 1)
          end
      end
  end.

Definition emailToOps (whitelistRequest : WhitelistRequest) (quoram : Z)
  : Prog (list action) (Z * error) :=
  let subject := "[Action Required] Whitelist request from "
                 +:+ Username whitelistRequest in
  do r <- EncodeAndEncrypt (ID whitelistRequest);
  match r with
  | inr err =>
      run log ErrorLevel [("err", FStr err)] "Failed to encode requestID Token";
      pure (0, Some err)
  | inl requestIDToken =>
      do ops <- getTargetOps;
      do r <- emailToOps_loop whitelistRequest subject requestIDToken
                (elems ops) [] 0;
      match r with
      | inl early => pure early
      | inr (assignees, successCount) =>
          run (if (0 <? length assignees)%nat then
                 do err <- dbService_UpdateRequest (ID whitelistRequest)
                             "assignees" (DStrings assignees);
                 match err with
                 | Some e =>
                     log ErrorLevel [("err", FStr e);
                                     ("assignees", FStrs assignees);
                                     ("ID", FStr (ID whitelistRequest))]
                       "Unable to update request db object with assignees metadata"
                 | None => pure tt
                 end
               else pure tt);
          if successCount >=? quoram then pure (successCount, None)
          else pure (successCount,
                     Some "Success count does not reach minimum requirement")
      end
  end.

Definition received (request : WhitelistRequest) (type : string)
  : Prog (list action) unit :=
  log InfoLevel [("username", FStr (Username request));
                 ("ID", FStr (ID request)); ("Type", FStr type)]
    "Received new task".

Definition processApproval (d : Delivery) (request : WhitelistRequest)
  : Prog (list action) unit :=
  run received request "Approval Task";
  do err <- emailDecision request;
  match err with
  | Some _ => Nack_ d false false
  | None => Ack_ d
  end.

Definition processDenial (d : Delivery) (request : WhitelistRequest)
  : Prog (list action) unit :=
  run received request "Denial Task";
  do err <- emailDecision request;
  match err with
  | Some _ => Nack_ d false false
  | None => Ack_ d
  end.

Definition processNewRequest (d : Delivery) (request : WhitelistRequest)
  : Prog (list action) unit :=
  run received request "New Reqeust Task";
  do _e <- emailConfirmation request;
  do r <- emailToOps request 1;
  let (successCount, err) := r in
  match err with
  | Some _ =>
      run log ErrorLevel [("message", FRequest request);
                          ("successCount", FInt successCount)]
            "Failed to dispatch action emails to required number of ops";
      Nack_ d false false
  | None => Ack_ d
  end.

(** The bytes [bytes.NewBuffer] holds for a body: none for a nil body. *)
Definition buffered (body : option string) : string :=
  match body with Some b => b | None => "" end.

(** The body of the loop of [runLoop], for one delivery.  The loop has no
    test for a nil body, and its [switch] has three cases and no default. *)
Definition runLoop_delivery (d : Delivery) : Prog (list action) unit :=
  let (whitelistRequest, err) := deserialize (buffered (Body d)) in
  match err with
  | Some e =>
      run log ErrorLevel [("messageBody", FBody (Body d)); ("err", FStr e)]
            "Unable to decode message into whitelistRequest";
      Nack_ d false false
  | None =>
      let status := Status whitelistRequest in
      if String.eqb status "Approved" then
        processApproval d whitelistRequest
      else if String.eqb status "Denied" then
        processDenial d whitelistRequest
      else if String.eqb status "Pending" then
        processNewRequest d whitelistRequest
      else pure tt
  end.

End Worker.

(** The actions a run added to those made before. *)
Definition made {A} (tr : list action) (r : result (list action) A)
  : list action :=
  drop (length tr) (state_of r).

(** Kinds of actions. *)
Definition settles (a : action) : bool :=
  match a with
  | Did (Ack _) | Nack _ _ _ => true
  | _ => false
  end.

Definition mails (a : action) : bool :=
  match a with Did (Send _ _ _ _ _) => true | _ => false end.

Definition mail_accepted (a : action) : bool :=
  match a with Did (Send _ _ _ _ None) => true | _ => false end.

Definition encryption_failed (a : action) : bool :=
  match a with Did (Encrypt _ _ (inr _)) => true | _ => false end.

(** The ops whose action e-mail the mailer accepted. *)
Definition op_mailed (a : action) : option string :=
  match a with
  | Did (Send template _ _ recipient None) =>
      if String.eqb template "./mailer/templates/ops.html"
      then Some recipient else None
  | _ => None
  end.

(** The recipients of the action e-mails, accepted or not. *)
Definition op_addressed (a : action) : option string :=
  match a with
  | Did (Send template _ _ recipient _) =>
      if String.eqb template "./mailer/templates/ops.html"
      then Some recipient else None
  | _ => None
  end.

(** What the dispatching strategy asks of the recipients of the action
    e-mails: all the ops, in their order, or as many as the threshold. *)
Definition dispatched (c : Config) (recipients : list string) : Prop :=
  if String.eqb (DispatchingStrategy c) "Broadcast"
  then recipients = elems (Ops c)
  else Z.of_nat (length recipients) = RandomDispatchingThreshold c.

(** How a handler settles a delivery it served, and one it did not. *)
Definition settlement (d : Delivery) (served : bool) : action :=
  if served then Did (Ack (DeliveryTag d))
  else Nack (DeliveryTag d) false false.

(** What a decision handler does with a delivery: it returns, and its last
    action settles the delivery, once, by the answer of the mailer; it sends
    one e-mail unless the encryption of the request ID failed, to the
    applicant, with the template of the status. *)
Definition decision_settled (request : WhitelistRequest) (d : Delivery)
    (tr : list action) (r : result (list action) unit) : Prop :=
  let served := existsb mail_accepted (made tr r) in
  r = Return tt (tr ++ made tr r)
  /\ filter settles (made tr r) = [settlement d served]
  /\ last (made tr r) = Some (settlement d served)
  /\ length (filter mails (made tr r))
     = (if existsb encryption_failed (made tr r) then 0 else 1)%nat
  /\ forall template link subject recipient err,
       Did (Send template link subject recipient err) ∈ made tr r ->
       recipient = Email request
       /\ template = if String.eqb (Status request) "Approved"
                     then "./mailer/templates/approve.html"
                     else "./mailer/templates/deny.html".

(** The statuses the [switch] of the loop has a case for. *)
Definition has_handler (status : string) : bool :=
  String.eqb status "Approved" || String.eqb status "Denied"
  || String.eqb status "Pending".

(** The actions of the loop on a body it cannot decode. *)
Definition rejected (d : Delivery) (e : string) : list action :=
  [Did (Log ErrorLevel [("messageBody", FBody (Body d)); ("err", FStr e)]
          "Unable to decode message into whitelistRequest");
   Nack (DeliveryTag d) false false].

(** The configurations with which the dispatcher returns a selection. *)
Definition dispatcher_returns (c : Config) : Prop :=
  String.eqb (DispatchingStrategy c) "Broadcast" = true
  \/ 0 <= RandomDispatchingThreshold c <= cap (Ops c).

(** Every collaborator answers without error, except the encryption of the
    plaintexts of [unencryptable] and the mail to the recipients of
    [unreachable]. *)
Definition sample_env (unencryptable unreachable : list string) : Env :=
  {| utils_EncodeAndEncrypt := fun _ plaintext _ =>
       if bool_decide (plaintext ∈ unencryptable)
       then inr "cipher: message too large"
       else inl ("enc-" +:+ plaintext);
     mailer_Send := fun _ _ _ _ recipient =>
       if bool_decide (recipient ∈ unreachable)
       then Some "smtp: mailbox unavailable" else None;
     db_UpdateRequest := fun _ _ _ _ => None;
     rand_Intn := fun _ n => 0%nat |}.

Definition sample_config (strategy : string) (n : Z) (l : list string)
  : Config :=
  {| PassPhrase := "secret";
     Ops := {| elems := l; spare := [] |};
     DispatchingStrategy := strategy;
     RandomDispatchingThreshold := n;
     FRONTEND_DEPLOYED_URL := "https://mc.example/" |}.

End legacy.

(** * Facts *)

(** ** Go integers and strconv *)

Module GoInt_facts.
Import GoInt.

Lemma int32_small z : in_int32 z -> int32 z = z.
Proof.
  unfold in_int32, maxInt32, int32, wrap. intros H.
  rewrite Z.mod_small; lia.
Qed.

Lemma int_small z : in_int z -> int z = z.
Proof.
  unfold in_int, minInt64, maxInt64, int, wrap. intros H.
  rewrite Z.mod_small; lia.
Qed.

End GoInt_facts.

Module strconv_facts.
Import strconv.

Lemma uint_value_ge d : forall acc, 0 <= acc -> acc <= uint_value d acc.
Proof.
  induction d; intros acc Hacc; simpl; try lia;
    (etransitivity; [| apply IHd]; lia).
Qed.

Lemma of_uint_acc_value d : forall acc,
  Z.pos (Pos.of_uint_acc d acc) = uint_value d (Z.pos acc).
Proof.
  induction d; intros acc; simpl; try reflexivity;
    rewrite IHd; f_equal; lia.
Qed.

Lemma of_uint_value d : Z.of_N (Pos.of_uint d) = uint_value d 0.
Proof.
  induction d; simpl; try reflexivity; try assumption;
    rewrite of_uint_acc_value; reflexivity.
Qed.

Lemma to_uint_value p : uint_value (Pos.to_uint p) 0 = Z.pos p.
Proof. rewrite <- of_uint_value, Unsigned.of_to. reflexivity. Qed.

(** The digit loop computes the value of the digits as long as it stays
    below 2^64. *)
Lemma parseUint_loop_value d : forall acc,
  0 <= acc -> uint_value d acc <= GoInt.maxUint64 ->
  parseUint_loop (NilEmpty.string_of_uint d) acc = (uint_value d acc, None).
Proof.
  induction d; intros acc Hacc Hmax;
    cbn [NilEmpty.string_of_uint parseUint_loop uint_value] in *;
    try reflexivity.
  all: match goal with
       | |- context [digit_of ?c] =>
           let v := eval vm_compute in (digit_of c) in
           change (digit_of c) with v
       end; cbv iota beta.
  all: match goal with
       | H : uint_value ?l ?a <= _ |- _ =>
           assert (Ha : a <= GoInt.maxUint64)
             by (etransitivity; [apply uint_value_ge; lia | exact H])
       end.
  all: unfold GoInt.maxUint64 in *.
  all: change (2 ^ 64 - 1) with 18446744073709551615 in *.
  all: change (18446744073709551615 / 10 + 1) with 1844674407370955162.
  all: destruct (Z.geb_spec acc 1844674407370955162); [lia |].
  all: match goal with
       | |- context [?a >? ?b] => destruct (Z.gtb_spec a b); [lia |]
       end.
  all: try (replace (acc * 10 + 0) with (acc * 10) by lia).
  all: apply IHd; lia.
Qed.

Lemma first_char_digit d : d <> Decimal.Nil ->
  exists c s, NilEmpty.string_of_uint d = String c s /\ is_Some (digit_of c).
Proof.
  destruct d; intros Hd; try congruence; simpl; eexists _, _; split;
    try reflexivity; vm_compute; eauto.
Qed.

Lemma digit_not_sign c :
  is_Some (digit_of c) -> Ascii.eqb c "-" = false /\ Ascii.eqb c "+" = false.
Proof.
  intros [dg Hdg]. split.
  all: destruct (Ascii.eqb_spec c "-"), (Ascii.eqb_spec c "+"); subst;
    try reflexivity; vm_compute in Hdg; discriminate.
Qed.

Lemma Itoa_pos p : Itoa (Z.pos p) = NilEmpty.string_of_uint (Pos.to_uint p).
Proof.
  unfold Itoa. simpl. unfold NilZero.string_of_uint.
  pose proof (Unsigned.to_uint_nonnil p).
  destruct (Pos.to_uint p); congruence.
Qed.

(** [Atoi] reads back what [Itoa] wrote, for a number that is not
    negative. *)
Lemma Atoi_Itoa n :
  0 <= n <= GoInt.maxInt64 -> Atoi (Itoa n) = (n, None).
Proof.
  intros [Hn Hmax]. destruct n as [|p|p]; [reflexivity | | lia].
  rewrite Itoa_pos. unfold Atoi, ParseInt.
  destruct (first_char_digit _ (Unsigned.to_uint_nonnil p))
    as (c & s & Hs & Hc).
  pose proof (parseUint_loop_value (Pos.to_uint p) 0) as Hloop.
  rewrite to_uint_value in Hloop. rewrite Hs in *.
  destruct (digit_not_sign c Hc) as [-> ->]. cbn [orb negb andb].
  unfold ParseUint. rewrite Hloop.
  - unfold GoInt.maxInt64 in Hmax.
    destruct (Z.geb_spec (Z.pos p) (2 ^ 63)); [lia | reflexivity].
  - lia.
  - unfold GoInt.maxInt64, GoInt.maxUint64 in *. lia.
Qed.

End strconv_facts.

(** ** Worlds and runs *)

Lemma extend_nil w : extend w [] = w.
Proof. destruct w. unfold extend. simpl. by rewrite app_nil_r. Qed.

Lemma extend_extend w a b : extend (extend w a) b = extend w (a ++ b).
Proof. unfold extend. simpl. by rewrite app_assoc. Qed.

Lemma emit_extend e w : emit e w = Done tt (extend w [e]).
Proof. reflexivity. Qed.

Lemma call_extend {R} (f : list event -> R) mk w :
  call f mk w = Done (f (trace w)) (extend w [mk (f (trace w))]).
Proof. reflexivity. Qed.

Lemma added_extend {A} (a : A) w evs : added w (Done a (extend w evs)) = evs.
Proof. unfold added. simpl. by rewrite drop_app_length. Qed.

Lemma added_extend_panic {A} msg w evs :
  added w (@Panic A msg (extend w evs)) = evs.
Proof. unfold added. simpl. by rewrite drop_app_length. Qed.

Lemma bind_call {R B} (f : list event -> R) mk (k : R -> M B) w :
  bind (call f mk) k w = k (f (trace w)) (extend w [mk (f (trace w))]).
Proof. reflexivity. Qed.

Lemma bind_emit {B} e (k : unit -> M B) w :
  bind (emit e) k w = k tt (extend w [e]).
Proof. reflexivity. Qed.

Lemma bind_ret {A B} (a : A) (k : A -> M B) w : bind (ret a) k w = k a w.
Proof. reflexivity. Qed.

Lemma bind_Done {A B} (m : M A) (k : A -> M B) w a w' :
  m w = Done a w' -> bind m k w = k a w'.
Proof. intros H. unfold bind. by rewrite H. Qed.

Lemma bind_Panic {A B} (m : M A) (k : A -> M B) w msg w' :
  m w = Panic msg w' -> bind m k w = Panic msg w'.
Proof. intros H. unfold bind. by rewrite H. Qed.

(** Membership in a list that is written out. *)
Ltac members H :=
  repeat match type of H with
         | _ ∈ _ :: _ => apply elem_of_cons in H as [H|H]
         | _ ∈ [] => by apply elem_of_nil in H
         end.

(** ** The retry step *)

Section Retry.

Context (env : Env).

(** The delay the step computes, for a death trace it can read. *)
Lemma retryExpiration_readable d w :
  delay_readable d -> retryExpiration d w = Done (expected_delay d) w.
Proof.
  unfold delay_readable, retryExpiration, expected_delay, previous_delay.
  destruct (Headers d !! "x-death") as [[| | | | | | | [|[]] |]|];
    try contradiction; try reflexivity.
  destruct (t !! "original-expiration") as [[]|]; try contradiction.
  intros (n & -> & Hn). unfold ret.
  rewrite Z.mul_comm, GoInt_facts.int_small; done.
Qed.

Lemma retryCountOf_typed d w :
  retry_count_typed d -> retryCountOf d w = Done (projected_count d) w.
Proof.
  unfold retry_count_typed, retryCountOf, projected_count.
  destruct (Headers d !! "x-retry-count") as [[]|];
    try contradiction; try reflexivity.
  intros Hv. unfold ret. rewrite GoInt_facts.int32_small; [done |].
  unfold GoInt.in_int32, GoInt.maxInt32 in *. lia.
Qed.

(** The whole step, once the delay and the count are known. *)
Lemma retryMsgWithDelay_run d desc w expiration retryCount :
  retryExpiration d w = Done expiration w ->
  retryCountOf d w = Done retryCount w ->
  retryMsgWithDelay env d desc w =
    Done tt (extend w
      (if 6 <? retryCount then gives_up desc d
       else let msg := retry_message retryCount expiration (Body d) in
            republish msg (channel_Publish env (trace w) "retry.ex" msg))).
Proof.
  intros He Hc. unfold retryMsgWithDelay, bind. rewrite He, Hc.
  rewrite Z.gtb_ltb. destruct (6 <? retryCount).
  - unfold log, Ack_. rewrite emit_extend, emit_extend, extend_extend. done.
  - rewrite call_extend. cbv zeta. unfold republish, retry_message.
    destruct (channel_Publish _ _ _ _); [| done].
    unfold log. by rewrite emit_extend, extend_extend.
Qed.

End Retry.

Lemma delay_readable_number d t rest s n :
  Headers d !! "x-death" = Some (VList (VTable t :: rest)) ->
  t !! "original-expiration" = Some (VString s) ->
  strconv.Atoi s = (n, None) -> GoInt.in_int (2 * n) ->
  delay_readable d.
Proof.
  intros Hd Ht Hs Hn. unfold delay_readable. rewrite Hd, Ht. eauto.
Qed.

Section RetryClaims.

Context (env : Env).

Lemma retryExpiration_typed d w :
  death_trace_typed d -> exists e, retryExpiration d w = Done e w.
Proof.
  unfold death_trace_typed, retryExpiration.
  destruct (Headers d !! "x-death") as [[| | | | | | | [|[]] |]|];
    try contradiction; eauto.
  destruct (t !! "original-expiration") as [[]|]; try contradiction.
  intros _. destruct (strconv.Atoi s). eauto.
Qed.

(** The retry step changes nothing but the trace, and panics before it
    has called anything. *)
Lemma retryExpiration_cases d w :
  (exists e, retryExpiration d w = Done e w)
  \/ (exists msg, retryExpiration d w = Panic msg w).
Proof.
  unfold retryExpiration.
  destruct (Headers d !! "x-death") as [[| | | | | | | [|[]] |]|]; eauto.
  destruct (t !! "original-expiration") as [[]|]; eauto.
  destruct (strconv.Atoi s). eauto.
Qed.

Lemma retryCountOf_cases d w :
  (exists c, retryCountOf d w = Done c w)
  \/ (exists msg, retryCountOf d w = Panic msg w).
Proof.
  unfold retryCountOf.
  destruct (Headers d !! "x-retry-count") as [[]|]; eauto.
Qed.

Lemma retryMsgWithDelay_cases d desc w :
  (exists msg, retryMsgWithDelay env d desc w = Panic msg w)
  \/ retryMsgWithDelay env d desc w = Done tt (extend w (gives_up desc d))
  \/ (exists c e,
        let msg := retry_message c e (Body d) in
        retryMsgWithDelay env d desc w =
          Done tt (extend w
            (republish msg (channel_Publish env (trace w) "retry.ex" msg)))).
Proof.
  destruct (retryExpiration_cases d w) as [[e He]|[msg He]].
  - destruct (retryCountOf_cases d w) as [[c Hc]|[msg Hc]].
    + rewrite (retryMsgWithDelay_run env d desc w e c He Hc).
      destruct (6 <? c); [by right; left | right; right; by exists c, e].
    + left. exists msg. unfold retryMsgWithDelay, bind. by rewrite He, Hc.
  - left. exists msg. unfold retryMsgWithDelay, bind. by rewrite He.
Qed.

(** C1 (amended).  For every delivery whose retry count, if it has one,
    is an int32 below 2^31-1, and whose death trace, if it has one, is a
    list with a string [original-expiration] in its first record: the retry
    step returns; when the retry count of the delivery plus 1 (1 without)
    is at most 6, the step publishes one message, to [retry.ex], with that
    count as its retry count and the body of the delivery; a message it
    publishes always goes to [retry.ex] with that count, which is then at
    most 6; and when that count is above 6 the step logs that it gives up
    and acknowledges the delivery, publishing nothing. *)
Theorem retry_count_projected d desc w :
  retry_count_typed d -> death_trace_typed d ->
  retry_count_claim env d desc w
  /\ exists evs, retryMsgWithDelay env d desc w = Done tt (extend w evs).
Proof.
  intros Hc Hd. destruct (retryExpiration_typed d w Hd) as [e He].
  pose proof (retryCountOf_typed d w Hc) as Hcount.
  pose proof (retryMsgWithDelay_run env d desc w e _ He Hcount) as Hrun.
  unfold retry_count_claim. cbv zeta. rewrite Hrun, added_extend.
  destruct (Z.ltb_spec 6 (projected_count d)) as [Hgt|Hle].
  - split; [split; [| split] |]; eauto; [| lia].
    intros ? ? ? ? ? ? Hin. unfold gives_up in Hin.
    members Hin; discriminate.
  - split; [split; [| split] |]; eauto; [| | lia].
    + intros ? ? ? ? ? ? Hin. unfold republish in Hin.
      destruct (channel_Publish _ _ _ _); members Hin; try discriminate.
      all: by inversion Hin; subst.
    + intros _. cbv zeta.
      exists (retry_message (projected_count d) e (Body d)),
        (channel_Publish env (trace w) "retry.ex"
           (retry_message (projected_count d) e (Body d))).
      unfold republish. by destruct (channel_Publish _ _ _ _).
Qed.

End RetryClaims.

(** ** Runs only add to the trace *)

Lemma added_same {A} (a : A) w : added w (Done a w) = [].
Proof. unfold added. simpl. by rewrite drop_all. Qed.

Lemma added_trans {A} w w' (o : outcome A) evs :
  trace w' = trace w ++ evs ->
  (exists evs', trace (world_of o) = trace w' ++ evs') ->
  added w o = evs ++ added w' o.
Proof.
  intros Hw' [evs' Ho]. unfold added. rewrite Ho, Hw'.
  rewrite (drop_app_length (trace w ++ evs)).
  by rewrite <- app_assoc, drop_app_length.
Qed.

Lemma trace_grows_chain handle n :
  (forall d, trace_grows (handle d)) -> forall d, trace_grows (chain handle n d).
Proof.
  intros Hh. induction n as [|n IH]; intros d w; simpl.
  - exists []. by rewrite app_nil_r.
  - destruct (Hh d w) as [evs Hevs].
    destruct (handle d w) as [[] w'|msg w']; simpl in *; [| eauto].
    destruct (omap republished _) as [|p ?]; simpl; [eauto |].
    destruct (IH (dead_letter p (DeliveryTag d + 1)) w') as [evs' Hevs'].
    exists (evs ++ evs'). by rewrite Hevs', Hevs, app_assoc.
Qed.

Lemma trace_grows_retryMsgWithDelay env d desc :
  trace_grows (retryMsgWithDelay env d desc).
Proof.
  intros w.
  destruct (retryMsgWithDelay_cases env d desc w) as [[msg ->]|[->|(c & e & ->)]];
    simpl; eauto.
  exists []. by rewrite app_nil_r.
Qed.

(** ** Retry chains *)

Lemma dead_letter_count p tag :
  Headers (dead_letter p tag) !! "x-retry-count"
  = PHeaders p !! "x-retry-count".
Proof. unfold dead_letter. simpl. by rewrite lookup_insert_ne. Qed.

(** What the worker reads back from the death record of a message it
    republished with the expiration [e]. *)
Lemma dead_letter_delay p tag e :
  Expiration p = strconv.Itoa e -> 0 <= e -> 2 * e <= GoInt.maxInt64 ->
  previous_delay (dead_letter p tag) = Some e
  /\ delay_readable (dead_letter p tag).
Proof.
  intros He H0 Hmax. unfold previous_delay, delay_readable, dead_letter.
  simpl. rewrite lookup_insert_eq.
  do 4 (rewrite lookup_insert_ne; [| done]). rewrite lookup_insert_eq, He.
  rewrite strconv_facts.Atoi_Itoa; [| lia]. split; [done |].
  exists e. split; [done |].
  unfold GoInt.in_int, GoInt.minInt64, GoInt.maxInt64 in *. lia.
Qed.

Lemma attempt_next k body tag :
  (k < 6)%nat ->
  attempt (S k)
    (dead_letter
       (retry_message (Z.of_nat k + 1) (900000 * 2 ^ Z.of_nat k) body) tag).
Proof.
  intros Hk.
  assert (He : 0 <= 900000 * 2 ^ Z.of_nat k <= 900000 * 2 ^ 5).
  { split; [lia |]. apply Z.mul_le_mono_nonneg_l; [lia |].
    apply Z.pow_le_mono_r; lia. }
  change (900000 * 2 ^ 5) with 28800000 in He.
  destruct (dead_letter_delay (retry_message (Z.of_nat k + 1)
              (900000 * 2 ^ Z.of_nat k) body) tag _ eq_refl) as [Hprev Hread].
  { lia. } { unfold GoInt.maxInt64. lia. }
  unfold attempt, retry_count_typed, projected_count, expected_delay.
  rewrite Hprev, dead_letter_count. simpl. rewrite lookup_singleton_eq.
  split; [unfold GoInt.maxInt32; lia |]. split; [lia |]. split; [done |].
  rewrite Nat2Z.inj_succ, Z.pow_succ_r; lia.
Qed.

Lemma attempt_first d :
  Headers d !! "x-death" = None -> Headers d !! "x-retry-count" = None ->
  attempt 0 d.
Proof.
  intros Hd Hc.
  unfold attempt, retry_count_typed, projected_count, delay_readable,
    expected_delay, previous_delay.
  by rewrite Hd, Hc.
Qed.

Lemma doubling_delays_drop k :
  (k < 6)%nat ->
  drop k doubling_delays
  = strconv.Itoa (900000 * 2 ^ Z.of_nat k) :: drop (S k) doubling_delays.
Proof.
  intros Hk. do 6 (destruct k as [|k]; [reflexivity |]). lia.
Qed.

Lemma delays_app a b : delays (a ++ b) = delays a ++ delays b.
Proof. unfold delays. by rewrite omap_app, fmap_app. Qed.

Section RetryChain.

Context (env : Env) (desc : string).

#[local] Abbreviation handle := (fun d => retryMsgWithDelay env d desc).

(** From the delivery after [k] republishings on, the expirations of the
    messages a chain republishes are the delays number [k], [k+1], ... of
    the doubling sequence; the chain stops when a publishing fails, after
    the sixth republishing at the latest. *)
Lemma chain_delays_from n : forall k d w,
  (k <= 6)%nat -> attempt k d ->
  exists m,
    (m <= n `min` (6 - k))%nat
    /\ delays (added w (chain handle n d w)) = take m (drop k doubling_delays)
    /\ (publish_succeeds env -> m = (n `min` (6 - k))%nat).
Proof.
  induction n as [|n IH]; intros k d w Hk (Hty & Hproj & Hread & Hexp).
  { exists 0%nat. simpl. rewrite added_same. by rewrite take_0. }
  pose proof (retryMsgWithDelay_run env d desc w _ _
                (retryExpiration_readable d w Hread)
                (retryCountOf_typed d w Hty)) as Hrun.
  rewrite Hproj, Hexp in Hrun. cbn [chain]. cbv beta.
  rewrite Hrun. rewrite added_extend.
  destruct (Z.ltb_spec 6 (Z.of_nat k + 1)) as [Hlt|Hle].
  - assert (k = 6%nat) as -> by lia. exists 0%nat.
    simpl. rewrite added_extend. split; [lia |]. split; [done |]. lia.
  - assert (Hk6 : (k < 6)%nat) by lia. cbv zeta.
    set (msg := retry_message (Z.of_nat k + 1) (900000 * 2 ^ Z.of_nat k) (Body d)).
    destruct (channel_Publish env (trace w) "retry.ex" msg) as [e|] eqn:Hpub.
    + exists 0%nat. simpl. rewrite added_extend. split; [lia |].
      split; [done |]. intros Hok. by rewrite Hok in Hpub.
    + simpl omap. cbv iota.
      destruct (IH (S k) (dead_letter msg (DeliveryTag d + 1))
                  (extend w (republish msg None))) as (m & Hm & Hdel & Hall).
      { lia. } { by apply attempt_next. }
      exists (S m). split; [lia |]. split.
      * rewrite (added_trans w (extend w (republish msg None)) _
                   (republish msg None) eq_refl).
        2: { apply trace_grows_chain. intros.
             apply trace_grows_retryMsgWithDelay. }
        rewrite delays_app, Hdel, (doubling_delays_drop k Hk6). done.
      * intros Hok. rewrite (Hall Hok). lia.
Qed.

(** C3 (amended).  The delay the retry step computes is 15*60*1000 ms for a
    delivery with no death trace or an empty one, and twice the
    [original-expiration] of the first death record when that is a number
    whose double is an [int]; so along a retry chain that starts from a
    delivery without retry headers the expirations of the republished
    messages are 900000, 1800000, 3600000, ..., one for each republishing
    and six at most.  What the step publishes expires after the delay it
    computed. *)
Theorem retry_delay_doubles d w n d0 w0 :
  delay_readable d ->
  Headers d0 !! "x-death" = None -> Headers d0 !! "x-retry-count" = None ->
  retry_delay_claim d w
  /\ (forall msg err,
        Publish "retry.ex" "" false false msg err
          ∈ added w (retryMsgWithDelay env d desc w) ->
        Expiration msg = strconv.Itoa (expected_delay d))
  /\ exists m,
       (m <= n `min` 6)%nat
       /\ delays (added w0 (chain handle n d0 w0)) = take m doubling_delays
       /\ (publish_succeeds env -> m = (n `min` 6)%nat).
Proof.
  intros Hread Hd Hc. split; [| split].
  - by apply retryExpiration_readable.
  - intros msg err Hin.
    pose proof (retryExpiration_readable d w Hread) as He.
    destruct (retryCountOf_cases d w) as [[c Hcount]|[pmsg Hcount]].
    + rewrite (retryMsgWithDelay_run env d desc w _ c He Hcount), added_extend
        in Hin.
      destruct (6 <? c); unfold gives_up, republish in Hin.
      * members Hin; discriminate.
      * destruct (channel_Publish _ _ _ _); members Hin; try discriminate.
        all: by inversion Hin; subst.
    + unfold retryMsgWithDelay, bind in Hin. rewrite He, Hcount in Hin.
      unfold added in Hin. simpl in Hin. rewrite drop_all in Hin.
      by apply elem_of_nil in Hin.
  - destruct (chain_delays_from n 0 d0 w0) as (m & Hm & Hdel & Hall).
    { lia. } { by apply attempt_first. }
    exists m. rewrite Nat.sub_0_r in *. by rewrite drop_0 in Hdel.
Qed.

End RetryChain.

(** C1, as stated, fails.  A delivery whose retry count is the largest int32
    is republished with the count -2^31, while the count plus 1 is above 6;
    a delivery with the count 6 whose first death record has no
    [original-expiration] makes the step panic: nothing is acknowledged. *)
Lemma retry_count_claim_fails :
  ~ retry_count_claim (Sample.env false [] []) Sample.overflowing
      "Ban alice" Sample.w0
  /\ ~ retry_count_claim (Sample.env false [] []) Sample.untraceable
        "Ban alice" Sample.w0.
Proof.
  split.
  - intros [Hpub _].
    destruct (Hpub "retry.ex" "" false false
                (retry_message (-2147483648) 900000 (Some "{}")) None)
      as (_ & _ & Hle).
    + vm_compute. apply list_elem_of_here.
    + vm_compute in Hle. by apply Hle.
  - intros (_ & _ & Hgive).
    assert (Hgt : 6 < projected_count Sample.untraceable) by (by vm_compute).
    specialize (Hgive Hgt). vm_compute in Hgive. discriminate.
Qed.

(** The amended C1 at a first delivery, which is republished with the count
    1; at a delivery with the count 5, which is republished with the count
    6; and at the delivery that comes back after the sixth retry, on which
    the step gives up. *)
Lemma retry_count_projected_witness :
  (retry_count_claim (Sample.env false [] []) (Sample.delivery ∅ "{}")
     "Ban alice" Sample.w0
   /\ exists evs,
        retryMsgWithDelay (Sample.env false [] []) (Sample.delivery ∅ "{}")
          "Ban alice" Sample.w0 = Done tt (extend Sample.w0 evs))
  /\ (retry_count_claim (Sample.env false [] []) Sample.fifth "Ban alice"
        Sample.w0
      /\ exists evs,
           retryMsgWithDelay (Sample.env false [] []) Sample.fifth
             "Ban alice" Sample.w0 = Done tt (extend Sample.w0 evs))
  /\ (retry_count_claim (Sample.env false [] []) Sample.exhausted "Ban alice"
        Sample.w0
      /\ exists evs,
           retryMsgWithDelay (Sample.env false [] []) Sample.exhausted
             "Ban alice" Sample.w0 = Done tt (extend Sample.w0 evs)).
Proof.
  split; [| split].
  - apply (retry_count_projected (Sample.env false [] [])
             (Sample.delivery ∅ "{}") "Ban alice" Sample.w0); exact I.
  - apply (retry_count_projected (Sample.env false [] []) Sample.fifth
             "Ban alice" Sample.w0).
    + vm_compute. split; [discriminate | reflexivity].
    + vm_compute. exact I.
  - apply (retry_count_projected (Sample.env false [] []) Sample.exhausted
             "Ban alice" Sample.w0).
    + vm_compute. split; [discriminate | reflexivity].
    + vm_compute. exact I.
Defined.

(** What the step does on these three deliveries: one message published
    with the count 1 and the expiration 900000, one with the count 6 and
    the expiration 28800000, and no message but an acknowledgement. *)
Example retry_step_runs :
  let E := Sample.env false [] [] in
  added Sample.w0
    (retryMsgWithDelay E (Sample.delivery ∅ "{}") "Ban alice" Sample.w0)
  = [Publish "retry.ex" "" false false
       (retry_message 1 900000 (Some "{}")) None]
  /\ added Sample.w0 (retryMsgWithDelay E Sample.fifth "Ban alice" Sample.w0)
     = [Publish "retry.ex" "" false false
          (retry_message 6 28800000 (Some "{}")) None]
  /\ added Sample.w0
       (retryMsgWithDelay E Sample.exhausted "Ban alice" Sample.w0)
     = gives_up "Ban alice" Sample.exhausted.
Proof. by vm_compute. Qed.

(** C3, as stated, fails.  With a first death record whose
    [original-expiration] is no number the delay is 0, not 15 minutes; with
    one that has no [original-expiration] the step panics. *)
Lemma retry_delay_claim_fails :
  ~ retry_delay_claim Sample.unreadable Sample.w0
  /\ ~ retry_delay_claim Sample.untraceable Sample.w0.
Proof.
  split; intros H; vm_compute in H; discriminate.
Qed.

(** The amended C3 at the delivery that comes back after the sixth retry and
    at a chain of seven attempts. *)
Lemma retry_delay_doubles_witness :
  retry_delay_claim Sample.exhausted Sample.w0
  /\ (forall msg err,
        Publish "retry.ex" "" false false msg err
          ∈ added Sample.w0
              (retryMsgWithDelay (Sample.env false [] []) Sample.exhausted
                 "Ban alice" Sample.w0) ->
        Expiration msg = strconv.Itoa (expected_delay Sample.exhausted))
  /\ exists m,
       (m <= 7 `min` 6)%nat
       /\ delays (added Sample.w0
                    (chain (fun d => retryMsgWithDelay (Sample.env false [] [])
                                       d "Ban alice")
                       7 (Sample.delivery ∅ "{}") Sample.w0))
          = take m doubling_delays
       /\ (publish_succeeds (Sample.env false [] []) -> m = (7 `min` 6)%nat).
Proof.
  apply (retry_delay_doubles (Sample.env false [] []) "Ban alice"
           Sample.exhausted Sample.w0 7 (Sample.delivery ∅ "{}") Sample.w0).
  - apply (delay_readable_number _
             {[ "original-expiration" := VString "28800000" ]} []
             "28800000" 28800000);
      [reflexivity | reflexivity | reflexivity | split; discriminate].
  - reflexivity.
  - reflexivity.
Defined.

(** ** Counting the events of a kind *)

Section AtMost.

Context {A : Type} (P : event -> bool).

Lemma at_most_grows n (m : M A) : at_most P n m -> trace_grows m.
Proof. intros H w. destruct (H w) as (evs & Hevs & _). eauto. Qed.

Lemma at_most_mono n n' (m : M A) :
  (n <= n')%nat -> at_most P n m -> at_most P n' m.
Proof.
  intros Hn H w. destruct (H w) as (evs & Hevs & Hlen).
  exists evs. split; [done | lia].
Qed.

Lemma at_most_added n (m : M A) w :
  at_most P n m -> (length (filter P (added w (m w))) <= n)%nat.
Proof.
  intros H. destruct (H w) as (evs & Hevs & Hlen).
  unfold added. rewrite Hevs, drop_app_length. exact Hlen.
Qed.

Lemma at_most_none (m : M A) w :
  at_most P 0 m -> filter P (added w (m w)) = [].
Proof.
  intros H. apply (at_most_added 0 m w) in H.
  destruct (filter P _); [done | simpl in H; lia].
Qed.

Lemma at_most_ret (a : A) : at_most P 0 (ret a).
Proof. intros w. exists []. simpl. by rewrite app_nil_r. Qed.

Lemma at_most_panic msg : at_most P 0 (@panic A msg).
Proof. intros w. exists []. simpl. by rewrite app_nil_r. Qed.

End AtMost.

Lemma at_most_emit P e : P e = false -> at_most P 0 (emit e).
Proof.
  intros He w. exists [e]. split; [done |].
  rewrite filter_cons_False; [done |]. by apply Is_true_false_2.
Qed.

Lemma at_most_call {R} P (f : list event -> R) mk :
  (forall r, P (mk r) = false) -> at_most P 0 (call f mk).
Proof.
  intros He w. eexists [_]. split; [done |].
  rewrite filter_cons_False; [done |]. by apply Is_true_false_2.
Qed.

Lemma at_most_call_1 {R} P (f : list event -> R) mk : at_most P 1 (call f mk).
Proof.
  intros w. eexists [_]. split; [done |].
  match goal with |- context [filter _ [?e]] => destruct (P e) eqn:He end.
  - rewrite filter_cons_True; [done |]. by apply Is_true_true_2.
  - rewrite filter_cons_False; [simpl; lia |]. by apply Is_true_false_2.
Qed.

Lemma at_most_bind {A B} P n1 n2 (m : M A) (k : A -> M B) :
  at_most P n1 m -> (forall a, at_most P n2 (k a)) ->
  at_most P (n1 + n2) (bind m k).
Proof.
  intros Hm Hk w. unfold bind. destruct (Hm w) as (evs & Hevs & Hlen).
  destruct (m w) as [a w'|msg w']; simpl in *.
  - destruct (Hk a w') as (evs' & Hevs' & Hlen'). exists (evs ++ evs').
    rewrite Hevs', Hevs, app_assoc. split; [done |].
    rewrite filter_app, length_app. lia.
  - exists evs. split; [done | lia].
Qed.

Lemma at_most_bind_0 {A B} P (m : M A) (k : A -> M B) :
  at_most P 0 m -> (forall a, at_most P 0 (k a)) -> at_most P 0 (bind m k).
Proof. intros Hm Hk. by apply (at_most_bind P 0 0). Qed.


(** ** The handlers, kind of event by kind of event *)

Lemma at_most_update env P id field v :
  (forall err, P (UpdateRequest id field v err) = false) ->
  at_most P 0 (dbService_UpdateRequest env id field v).
Proof.
  intros He w. eexists [_]. split; [done |].
  rewrite filter_cons_False; [done |]. by apply Is_true_false_2.
Qed.

Lemma at_most_getTargetOps cfg env P : at_most P 0 (getTargetOps cfg env).
Proof.
  intros w. exists []. rewrite app_nil_r. split; [| done].
  unfold getTargetOps. destruct (String.eqb _ _); [done |].
  by destruct (_ && _).
Qed.

(** The tactic for a run that adds no event of the kind at hand: it goes
    through the binds and the case distinctions of the run, unfolding the
    functions of the worker on its way. *)
Ltac quiet :=
  repeat first
    [ apply at_most_ret
    | apply at_most_panic
    | apply at_most_emit; reflexivity
    | apply at_most_call; intros ?; reflexivity
    | apply at_most_update; intros ?; reflexivity
    | apply at_most_getTargetOps
    | match goal with
      | |- at_most _ _ (match ?x with _ => _ end) => destruct x
      | |- at_most _ _ (if ?b then _ else _) => destruct b
      | |- at_most _ _ (let (_, _) := ?x in _) => destruct x
      end
    | solve [eauto 2]
    | apply at_most_bind_0; [| intros ?]
    | progress unfold retryExpiration, retryCountOf ].

Section Handlers.

Context (cfg : Config) (env : Env).

(** The retry step sends no mail, and what it republishes carries a retry
    count. *)
Lemma retry_no_decision_mail d desc :
  at_most is_decision_mail 0 (retryMsgWithDelay env d desc).
Proof. quiet. Qed.

Lemma retry_counted d desc :
  at_most uncounted 0 (retryMsgWithDelay env d desc).
Proof.
  quiet. apply at_most_call. intros [e|]; [reflexivity |].
  unfold uncounted, republished. simpl. by rewrite lookup_singleton_eq.
Qed.

Lemma emailDecision_one_mail request :
  at_most is_decision_mail 1 (emailDecision cfg env request).
Proof.
  unfold emailDecision.
  apply (at_most_bind _ 0 1); [quiet |].
  intros [token|err]; [| apply (at_most_mono _ 0); [lia | quiet]].
  destruct (String.eqb _ _);
    (apply (at_most_bind _ 1 0); [apply at_most_call_1 | intros; quiet]).
Qed.

(** An attempt that carries a retry count sends no decision mail. *)
Lemma approval_retry_no_decision_mail d request :
  is_Some (Headers d !! "x-retry-count") ->
  at_most is_decision_mail 0 (processApproval cfg env d request).
Proof.
  intros [v Hv]. unfold processApproval. rewrite Hv. quiet.
Qed.

(** Any attempt sends one decision mail at most. *)
Lemma approval_one_decision_mail d request :
  at_most is_decision_mail 1 (processApproval cfg env d request).
Proof.
  unfold processApproval.
  apply (at_most_bind _ 0 1); [quiet | intros _].
  apply (at_most_bind _ 0 1); [quiet | intros _].
  apply (at_most_bind _ 0 1); [quiet | intros [e|]].
  - apply (at_most_mono _ 0); [lia | quiet].
  - apply (at_most_bind _ 1 0); [| intros _; quiet].
    destruct (Headers d !! "x-retry-count").
    + apply (at_most_mono _ 0); [lia | quiet].
    + replace 1%nat with (1 + 0)%nat by lia.
      apply at_most_bind; [apply emailDecision_one_mail | intros; quiet].
Qed.

(** What an attempt republishes carries a retry count. *)
Lemma approval_counted d request :
  at_most uncounted 0 (processApproval cfg env d request).
Proof.
  unfold processApproval.
  apply at_most_bind_0; [quiet | intros _].
  apply at_most_bind_0; [quiet | intros _].
  apply at_most_bind_0; [quiet | intros [e|]]; [| quiet].
  apply at_most_bind_0; [quiet | intros _]. apply retry_counted.
Qed.

End Handlers.

(** ** The decision mail along a retry chain *)

Lemma republished_counted evs p :
  filter uncounted evs = [] -> p ∈ omap republished evs ->
  is_Some (PHeaders p !! "x-retry-count").
Proof.
  intros Hnone Hin. apply list_elem_of_omap in Hin as (e & He & Hp).
  assert (Hne : ¬ uncounted e).
  { intros Hu. assert (e ∈ filter uncounted evs) as Hf
      by (by apply list_elem_of_filter).
    rewrite Hnone in Hf. by apply elem_of_nil in Hf. }
  unfold uncounted in Hne. rewrite Hp in Hne.
  destruct (bool_decide_reflect (is_Some (PHeaders p !! "x-retry-count")));
    [done | by destruct Hne].
Qed.

Section DecisionMail.

Context (cfg : Config) (env : Env) (request : WhitelistRequest).

#[local] Abbreviation handle := (fun d => processApproval cfg env d request).

Lemma approval_grows d : trace_grows (handle d).
Proof. eapply at_most_grows, approval_one_decision_mail. Qed.

(** One step of a chain: the events of the first attempt, then those of the
    rest of the chain. *)
Lemma chain_step_added n d w :
  exists evs rest,
    added w (handle d w) = evs
    /\ added w (chain handle (S n) d w) = evs ++ rest
    /\ (rest = []
        \/ exists p w',
             p ∈ omap republished evs
             /\ rest = added w' (chain handle n
                                   (dead_letter p (DeliveryTag d + 1)) w')).
Proof.
  destruct (approval_grows d w) as [evs Hevs]. cbn [chain].
  unfold added at 1. rewrite Hevs, drop_app_length.
  destruct (handle d w) as [[] w'|msg w'] eqn:Ho; simpl in Hevs.
  - unfold added at 2. simpl. rewrite Hevs, drop_app_length.
    destruct (omap republished evs) as [|p ps] eqn:Hps.
    + exists evs, []. rewrite app_nil_r. unfold added. simpl.
      rewrite Hevs, drop_app_length. eauto.
    + exists evs, (added w' (chain handle n (dead_letter p (DeliveryTag d + 1)) w')).
      split; [done |]. split.
      * apply added_trans; [done |].
        apply trace_grows_chain. intros. apply approval_grows.
      * right. exists p, w'. split; [| done].
        rewrite Hps. apply list_elem_of_here.
  - exists evs, []. rewrite app_nil_r. unfold added. simpl.
    rewrite Hevs, drop_app_length. eauto.
Qed.

(** A chain that starts from an attempt with a retry count sends no
    decision mail at all. *)
Lemma chain_no_decision_mail n : forall d w,
  is_Some (Headers d !! "x-retry-count") ->
  filter is_decision_mail (added w (chain handle n d w)) = [].
Proof.
  induction n as [|n IH]; intros d w Hd.
  { simpl. by rewrite added_same. }
  destruct (chain_step_added n d w) as (evs & rest & Hevs & -> & Hrest).
  rewrite filter_app. rewrite <- Hevs.
  rewrite (at_most_none _ _ _ (approval_retry_no_decision_mail cfg env d request Hd)).
  destruct Hrest as [->|(p & w' & Hp & ->)]; [done |].
  simpl. apply IH. rewrite dead_letter_count.
  eapply republished_counted; [| exact Hp]. rewrite <- Hevs.
  apply at_most_none, approval_counted.
Qed.

(** C4.  The Approved handler sends no decision e-mail for a delivery that
    carries a retry-count header; so along any retry chain at most one
    decision e-mail is sent, and it is sent by the first attempt (the one
    that may come without the header): the decision e-mails of the whole
    chain are those of the chain cut after its first attempt. *)
Theorem decision_mail_once n d w :
  (forall d' w', is_Some (Headers d' !! "x-retry-count") ->
     filter is_decision_mail (added w' (handle d' w')) = [])
  /\ (length (filter is_decision_mail (added w (chain handle n d w))) <= 1)%nat
  /\ filter is_decision_mail (added w (chain handle n d w))
     = filter is_decision_mail (added w (chain handle (n `min` 1) d w)).
Proof.
  split; [| destruct n as [|n]].
  - intros d' w' Hd'. by apply at_most_none, approval_retry_no_decision_mail.
  - simpl. rewrite added_same. split; [simpl; lia | done].
  - replace (S n `min` 1)%nat with 1%nat by lia.
    destruct (chain_step_added n d w) as (evs & rest & Hevs & -> & Hrest).
    destruct (chain_step_added 0 d w) as (evs1 & rest1 & Hevs1 & -> & Hrest1).
    assert (evs1 = evs) as -> by congruence.
    assert (Hrest0 : filter is_decision_mail rest = []).
    { destruct Hrest as [->|(p & w' & Hp & ->)]; [done |].
      apply chain_no_decision_mail. rewrite dead_letter_count.
      eapply republished_counted; [| exact Hp]. rewrite <- Hevs.
      apply at_most_none, approval_counted. }
    assert (Hrest10 : filter is_decision_mail rest1 = []).
    { destruct Hrest1 as [->|(p & w' & Hp & ->)]; [done |].
      simpl. by rewrite added_same. }
    rewrite !filter_app, Hrest0, Hrest10, !app_nil_r. split; [| done].
    rewrite <- Hevs. apply at_most_added, approval_one_decision_mail.
Qed.

End DecisionMail.

(** C4 at a chain of three attempts for a first delivery of an Approved task,
    and at the delivery that comes back after the sixth retry. *)
Lemma decision_mail_once_witness :
  let handle := fun d => processApproval
                           (Sample.cfg "Broadcast" 0 2 Sample.moderators)
                           (Sample.env true [] []) d (Sample.alice "Approved") in
  let d := Sample.delivery ∅ (Sample.body "Approved") in
  filter is_decision_mail (added Sample.w0 (handle Sample.exhausted Sample.w0))
  = []
  /\ (length (filter is_decision_mail (added Sample.w0 (chain handle 3 d Sample.w0)))
      <= 1)%nat
  /\ filter is_decision_mail (added Sample.w0 (chain handle 3 d Sample.w0))
     = filter is_decision_mail
         (added Sample.w0 (chain handle (3 `min` 1) d Sample.w0)).
Proof.
  cbv zeta.
  destruct (decision_mail_once (Sample.cfg "Broadcast" 0 2 Sample.moderators)
              (Sample.env true [] []) (Sample.alice "Approved") 3
              (Sample.delivery ∅ (Sample.body "Approved")) Sample.w0)
    as (Hretry & Hone & Hfirst).
  split; [| by split].
  apply Hretry. exists (VInt32 6). reflexivity.
Defined.

(** Along the chain of an Approved task whose first attempt finds the game
    server down and whose second attempt succeeds, the first attempt is
    republished before any mail and the second carries the retry count: no
    decision e-mail is sent at all, and only the second delivery is
    acknowledged. *)
Example approved_after_retry :
  let o := chain (fun d => processApproval
                             (Sample.cfg "Broadcast" 0 2 Sample.moderators)
                             Sample.flaky d (Sample.alice "Approved"))
             3 (Sample.delivery ∅ (Sample.body "Approved")) Sample.w0 in
  filter is_decision_mail (added Sample.w0 o) = []
  /\ delays (added Sample.w0 o) = ["900000"]
  /\ filter is_ack (added Sample.w0 o) = [Ack 2].
Proof. by vm_compute. Qed.

(** ** A failed command in the Approved handler *)

(** Whenever the retry step publishes, it acknowledges nothing. *)
Lemma retry_publish_without_ack env d desc w :
  filter is_publish (added w (retryMsgWithDelay env d desc w)) <> [] ->
  filter is_ack (added w (retryMsgWithDelay env d desc w)) = [].
Proof.
  destruct (retryMsgWithDelay_cases env d desc w)
    as [[msg ->]|[->|(c & e & ->)]].
  - unfold added. simpl. by rewrite drop_all.
  - rewrite added_extend. intros H. by destruct H.
  - rewrite added_extend. intros _. cbv zeta. unfold republish.
    by destruct (channel_Publish _ _ _ _).
Qed.

(** C2, at a first delivery of an Approved task while the game server is
    down: the message is republished to the retry exchange with the retry
    count 1, the expiration 900000 and the body of the delivery, and the
    delivery is not acknowledged. *)
Theorem approval_failure_not_acknowledged :
  let d := Sample.delivery ∅ (Sample.body "Approved") in
  let o := processApproval (Sample.cfg "Broadcast" 0 2 Sample.moderators)
             (Sample.env false [] []) d (Sample.alice "Approved") Sample.w0 in
  omap republished (added Sample.w0 o) = [retry_message 1 900000 (Body d)]
  /\ Expiration (retry_message 1 900000 (Body d)) = "900000"
  /\ filter is_ack (added Sample.w0 o) = []
  /\ exists w, o = Done tt w.
Proof.
  cbv zeta. split; [by vm_compute |]. split; [by vm_compute |].
  split; [by vm_compute |]. eexists. by vm_compute.
Qed.

(** ** The main loop and the codec *)

(** C7 (amended).  For every delivery whose body decodes to a task whose
    status is none of Pending, Approved, Denied, Deactivated, Banned, the
    main loop invokes no handler and does nothing at all: the delivery is
    not acknowledged. *)
Theorem unknown_status_ignored cfg env d w body request :
  Body d = Some body -> deserialize body = (request, None) ->
  known_status (Status request) = false ->
  runLoop_delivery cfg env d w = Done tt w.
Proof.
  intros Hb Hdec Hst. unfold runLoop_delivery. rewrite Hb, Hdec.
  unfold known_status in Hst.
  repeat (apply orb_false_iff in Hst as [Hst ?]).
  by repeat match goal with H : String.eqb _ _ = false |- _ => rewrite H; clear H end.
Qed.

(** C7, as stated, fails: a task of status [Foo] is not acknowledged. *)
Lemma unknown_status_claim_fails :
  ~ unknown_status_claim (Sample.cfg "Broadcast" 0 2 Sample.moderators)
      (Sample.env true [] []) (Sample.delivery ∅ (Sample.body "Foo")) Sample.w0.
Proof.
  intros H.
  specialize (H (Sample.body "Foo") (Sample.alice "Foo") eq_refl).
  assert (Hdec : deserialize (Sample.body "Foo") = (Sample.alice "Foo", None))
    by (by vm_compute).
  specialize (H Hdec eq_refl). vm_compute in H. discriminate.
Qed.

(** The amended C7 at a task of status [Foo]. *)
Lemma unknown_status_ignored_witness :
  runLoop_delivery (Sample.cfg "Broadcast" 0 2 Sample.moderators)
    (Sample.env true [] []) (Sample.delivery ∅ (Sample.body "Foo")) Sample.w0
  = Done tt Sample.w0.
Proof.
  apply (unknown_status_ignored _ _ _ _ (Sample.body "Foo") (Sample.alice "Foo"));
    [reflexivity | by vm_compute | reflexivity].
Defined.

(** The decoder goes by the members that name a field, and by them only. *)
Lemma decode_object_known members : forall msg saved,
  decode_object members msg saved
  = decode_object (filter (fun m => known_key m.1) members) msg saved.
Proof.
  induction members as [|[key v] members IH]; intros msg saved; [done |].
  destruct (known_key key) eqn:Hk.
  - rewrite filter_cons_True by (by apply Is_true_true_2).
    cbn [decode_object].
    destruct (equalFold key "_id");
      [destruct (ObjectID_UnmarshalJSON v); [apply IH | done] |].
    destruct (equalFold key "username");
      [destruct (store_string v _); apply IH |].
    destruct (equalFold key "email");
      [destruct (store_string v _); apply IH |].
    destruct (equalFold key "status");
      [destruct (store_string v _); apply IH |].
    apply IH.
  - rewrite filter_cons_False by (by apply Is_true_false_2).
    cbn [decode_object]. unfold known_key in Hk.
    repeat (apply orb_false_iff in Hk as [Hk ?]).
    repeat match goal with
           | H : equalFold _ _ = false |- _ => rewrite H; clear H
           end.
    apply IH.
Qed.

Lemma decode_object_storable members : forall msg,
  forallb storable members = true ->
  snd (decode_object members msg None) = None.
Proof.
  induction members as [|[key v] members IH]; intros msg Hall; [done |].
  cbn [forallb] in Hall. apply andb_true_iff in Hall as [Hm Hall].
  cbn [decode_object]. unfold storable, known_key in Hm.
  destruct (equalFold key "_id").
  { destruct (ObjectID_UnmarshalJSON v); [by apply IH | done]. }
  destruct (equalFold key "username");
    [destruct v; try done; by apply IH |].
  destruct (equalFold key "email");
    [destruct v; try done; by apply IH |].
  destruct (equalFold key "status");
    [destruct v; try done; by apply IH |].
  by apply IH.
Qed.

Lemma decode_object_no_id members : forall msg saved,
  existsb (names "_id") members = false ->
  ID (fst (decode_object members msg saved)) = ID msg.
Proof.
  induction members as [|[key v] members IH]; intros msg saved Hno; [done |].
  cbn [existsb] in Hno. apply orb_false_iff in Hno as [Hkey Hno].
  unfold names in Hkey. simpl in Hkey. cbn [decode_object]. rewrite Hkey.
  repeat match goal with
         | |- context [if ?b then _ else _] => destruct b
         | |- context [let (_, _) := ?x in _] => destruct x
         end; by rewrite IH.
Qed.

Lemma decode_object_no_status members : forall msg saved,
  existsb (names "status") members = false ->
  Status (fst (decode_object members msg saved)) = Status msg.
Proof.
  induction members as [|[key v] members IH]; intros msg saved Hno; [done |].
  cbn [existsb] in Hno. apply orb_false_iff in Hno as [Hkey Hno].
  unfold names in Hkey. simpl in Hkey. cbn [decode_object]. rewrite Hkey.
  destruct (equalFold key "_id");
    [destruct (ObjectID_UnmarshalJSON v); [by rewrite IH | done] |].
  repeat match goal with
         | |- context [if ?b then _ else _] => destruct b
         | |- context [let (_, _) := ?x in _] => destruct x
         end; by rewrite IH.
Qed.

(** C8 (amended).  For every payload that is a JSON object: the members
    whose key names no field are ignored; when each member that names a
    field has a value of the type of the field, the payload decodes without
    error, whether or not it has an id or a status; a payload without id
    decodes to the zero id, one without status to the empty status. *)
Theorem deserialize_lenient b members rest :
  json.Scan b = Some (json.Object members, rest) ->
  deserialize b
  = decode_object (filter (fun m => known_key m.1) members) types.zero None
  /\ (forallb storable members = true -> snd (deserialize b) = None)
  /\ (existsb (names "_id") members = false ->
      ID (fst (deserialize b)) = NilObjectID)
  /\ (existsb (names "status") members = false ->
      Status (fst (deserialize b)) = "").
Proof.
  intros Hscan. unfold deserialize, Decode. rewrite Hscan.
  split; [apply decode_object_known |]. split; [apply decode_object_storable |].
  split; intros Hno.
  - by rewrite decode_object_no_id.
  - by rewrite decode_object_no_status.
Qed.

(** C8, as stated, fails: a payload with a status and no id decodes without
    error. *)
Lemma missing_field_claim_fails :
  ~ missing_field_claim (Sample.object_text [("status", "Approved")]).
Proof.
  intros H.
  apply (H [("status", json.Str "Approved")] "");
    [by vm_compute | by left | by vm_compute].
Qed.

(** The amended C8 at a payload with a status, an unknown field, and no id. *)
Lemma deserialize_lenient_witness :
  let b := Sample.object_text [("status", "Approved"); ("colour", "red")] in
  let members := [("status", json.Str "Approved"); ("colour", json.Str "red")] in
  deserialize b
  = decode_object (filter (fun m => known_key m.1) members) types.zero None
  /\ (forallb storable members = true -> snd (deserialize b) = None)
  /\ (existsb (names "_id") members = false ->
      ID (fst (deserialize b)) = NilObjectID)
  /\ (existsb (names "status") members = false ->
      Status (fst (deserialize b)) = "").
Proof.
  apply (deserialize_lenient _ _ ""). by vm_compute.
Defined.

(** ** The dispatcher *)

Lemma swap_Permutation l i j : swap l i j ≡ₚ l.
Proof.
  unfold swap. destruct (l !! i) eqn:Hi; [| done].
  destruct (l !! j) eqn:Hj; [| done]. by apply Permutation_insert_swap.
Qed.

Lemma Shuffle_from_Permutation intn i : forall l, Shuffle_from intn i l ≡ₚ l.
Proof.
  induction i as [|i IH]; intros l; [done |].
  simpl. rewrite IH. apply swap_Permutation.
Qed.

Lemma Shuffle_Permutation intn n l : Shuffle intn n l ≡ₚ l.
Proof. apply Shuffle_from_Permutation. Qed.

(** C6 (amended).  Under the random strategy, for a threshold N with
    0 <= N <= L, the dispatcher returns N of the configured ops (so
    min(N, L) of them), each configured op at most as often as it is
    configured; none twice when the configured list has no duplicates. *)
Theorem random_dispatch cfg env w :
  String.eqb (dispatchingStrategy cfg) "Broadcast" = false ->
  0 <= randomDispatchingThreshold cfg <= len (ops cfg) ->
  exists s,
    getTargetOps cfg env w = Done s w
    /\ len s = randomDispatchingThreshold cfg `min` len (ops cfg)
    /\ elems s ⊆+ elems (ops cfg)
    /\ (NoDup (elems (ops cfg)) -> NoDup (elems s)).
Proof.
  intros Hst [H0 HL]. unfold getTargetOps. rewrite Hst.
  set (shuffled := Shuffle _ _ _).
  assert (Hperm : shuffled ≡ₚ elems (ops cfg)) by apply Shuffle_Permutation.
  assert (Hlen : length shuffled = length (elems (ops cfg)))
    by (by rewrite Hperm).
  unfold len, cap in *. simpl. rewrite length_app, Hlen.
  destruct (Z.leb_spec 0 (randomDispatchingThreshold cfg)); [| lia].
  destruct (Z.leb_spec (randomDispatchingThreshold cfg)
              (Z.of_nat (length (elems (ops cfg)) + length (spare (ops cfg)))));
    [| lia].
  simpl. eexists. split; [done |]. unfold slice_to. simpl.
  rewrite take_app_le by lia.
  assert (Hsub : take (Z.to_nat (randomDispatchingThreshold cfg)) shuffled
                 `sublist_of` shuffled) by apply sublist_take.
  split; [rewrite length_take; lia |]. split.
  - rewrite <- Hperm. by apply sublist_submseteq.
  - intros Hnd. eapply sublist_NoDup; [| exact Hsub]. by rewrite Hperm.
Qed.

(** C6, as stated, fails: with three ops and the threshold 4 the dispatcher
    panics. *)
Lemma dispatch_claim_fails :
  ~ dispatch_claim (Sample.cfg "Random" 4 2 Sample.moderators)
      (Sample.env true [] []) Sample.w0.
Proof.
  intros H. destruct (H eq_refl) as (s & Hs & _).
  vm_compute in Hs. discriminate.
Qed.

(** Between the length and the capacity of the configured slice the
    dispatcher neither panics nor stops at the length: with one op, one
    spare element in the backing array and the threshold 2, it returns two
    recipients, the second one the spare element. *)
Example dispatch_into_capacity :
  getTargetOps
    {| ops := {| elems := ["m1@x"]; spare := ["m0@x"] |};
       dispatchingStrategy := "Random";
       randomDispatchingThreshold := 2;
       minRequiredReceiver := 1;
       passphrase := "secret";
       approvedEmailTitle := "Approved";
       deniedEmailTitle := "Denied";
       confirmationEmailTitle := "Received";
       FRONTEND_DEPLOYED_URL := "https://mc.example/" |}
    (Sample.env true [] []) Sample.w0
  = Done {| elems := ["m1@x"; "m0@x"]; spare := [] |} Sample.w0.
Proof. reflexivity. Qed.

(** The amended C6 with three ops and the threshold 2. *)
Lemma random_dispatch_witness :
  exists s,
    getTargetOps (Sample.cfg "Random" 2 2 Sample.moderators)
      (Sample.env true [] []) Sample.w0 = Done s Sample.w0
    /\ len s = 2 `min` 3
    /\ elems s ⊆+ Sample.moderators
    /\ (NoDup Sample.moderators -> NoDup (elems s)).
Proof.
  apply (random_dispatch (Sample.cfg "Random" 2 2 Sample.moderators)
           (Sample.env true [] []) Sample.w0);
    [reflexivity | split; discriminate].
Defined.

(** ** The action mails of a new request *)

Lemma mailed_ok_app a b : mailed_ok (a ++ b) = mailed_ok a ++ mailed_ok b.
Proof. unfold mailed_ok. by rewrite omap_app, filter_app, fmap_app. Qed.

Lemma recipients_app a b : recipients (a ++ b) = recipients a ++ recipients b.
Proof. unfold recipients. by rewrite omap_app, fmap_app. Qed.

Section ActionMails.

Context (cfg : Config) (env : Env) (request : WhitelistRequest).

(** The loop over the ops: either every op was tried, and the loop returns
    the ops that were mailed and their number; or the encryption of an op
    failed, and the loop stops there with the early result. *)
Lemma emailToOps_loop_spec subject token ops : forall assignees count w,
  exists evs,
    (emailToOps_loop cfg env request subject token ops assignees count w
     = Done (inr (assignees ++ mailed_ok evs,
                  count + Z.of_nat (length (mailed_ok evs))))
         (extend w evs)
     /\ filter encrypt_failed evs = []
     /\ recipients evs = ops)
    \/ (exists err pre op,
          emailToOps_loop cfg env request subject token ops assignees count w
          = Done (inl (0, Some err)) (extend w evs)
          /\ evs = pre ++ encode_failure op (passphrase cfg) err
                          "Failed to encode opEmail Token"
          /\ filter encrypt_failed pre = []
          /\ filter is_update pre = []
          /\ recipients pre ++ [op] `prefix_of` ops).
Proof.
  induction ops as [|op ops IH]; intros assignees count w.
  { exists []. left. simpl. unfold ret.
    by rewrite app_nil_r, Z.add_0_r, extend_nil. }
  set (o := emailToOps_loop cfg env request subject token (op :: ops)
              assignees count w).
  assert (Ho : o = emailToOps_loop cfg env request subject token (op :: ops)
                     assignees count w) by done.
  cbn [emailToOps_loop] in Ho. unfold bind at 1 in Ho.
  unfold EncodeAndEncrypt in Ho. rewrite call_extend in Ho.
  destruct (utils_EncodeAndEncrypt env (trace w) op (passphrase cfg))
    as [opEmailToken|err] eqn:Henc.
  - unfold bind at 1 in Ho. unfold Send_ in Ho. rewrite call_extend in Ho.
    match type of Ho with
    | context [mailer_Send env ?tr ?t ?l ?s ?r] =>
        destruct (mailer_Send env tr t l s r) as [e|] eqn:Hsend
    end.
    + unfold bind at 1, log in Ho. rewrite emit_extend, !extend_extend in Ho.
      match type of Ho with
      | context [emailToOps_loop _ _ _ _ _ _ _ _ (extend w ?p)] =>
          set (pre := p) in *
      end.
      assert (Hpre : mailed_ok pre = [] /\ recipients pre = [op]
                     /\ filter encrypt_failed pre = []
                     /\ filter is_update pre = []) by done.
      destruct Hpre as (Hmail & Hrcp & Hfail & Hupd).
      destruct (IH assignees count (extend w pre))
        as [evs [(Hrun & Hnf & Hrec)
                |(err & pre' & op' & Hrun & Hevs & Hnf & Hnu & Hrec)]];
        exists (pre ++ evs); rewrite Ho, Hrun, extend_extend.
      * left. rewrite mailed_ok_app, recipients_app, filter_app.
        by rewrite Hrec, Hnf, Hmail, Hrcp, Hfail.
      * right. exists err, (pre ++ pre'), op'.
        split; [done |]. split; [by rewrite Hevs, app_assoc |].
        rewrite !filter_app, Hnf, Hnu, recipients_app, Hfail, Hupd, Hrcp.
        split; [done |]. split; [done |]. simpl. by apply prefix_cons.
    + unfold bind at 1, log in Ho. rewrite emit_extend, !extend_extend in Ho.
      match type of Ho with
      | context [emailToOps_loop _ _ _ _ _ _ _ _ (extend w ?p)] =>
          set (pre := p) in *
      end.
      assert (Hpre : mailed_ok pre = [op] /\ recipients pre = [op]
                     /\ filter encrypt_failed pre = []
                     /\ filter is_update pre = []) by done.
      destruct Hpre as (Hmail & Hrcp & Hfail & Hupd).
      destruct (IH (assignees ++ [op]) (count + 1) (extend w pre))
        as [evs [(Hrun & Hnf & Hrec)
                |(err & pre' & op' & Hrun & Hevs & Hnf & Hnu & Hrec)]];
        exists (pre ++ evs); rewrite Ho, Hrun, extend_extend.
      * left. rewrite mailed_ok_app, recipients_app, filter_app.
        rewrite Hrec, Hnf, Hmail, Hrcp, Hfail, <- app_assoc.
        split; [| done]. do 3 f_equal. simpl. lia.
      * right. exists err, (pre ++ pre'), op'.
        split; [done |]. split; [by rewrite Hevs, app_assoc |].
        rewrite !filter_app, Hnf, Hnu, recipients_app, Hfail, Hupd, Hrcp.
        split; [done |]. split; [done |]. simpl. by apply prefix_cons.
  - unfold bind at 1, log in Ho. rewrite emit_extend, extend_extend in Ho.
    unfold ret in Ho. eexists. right. exists err, [], op.
    split; [exact Ho |]. split; [done |].
    split; [done |]. split; [done |]. simpl. apply prefix_cons, prefix_nil.
Qed.

End ActionMails.

Section NewRequest.

Context (cfg : Config) (env : Env) (request : WhitelistRequest).

Lemma getTargetOps_cases w :
  (exists selected, getTargetOps cfg env w = Done selected w)
  \/ (exists msg, getTargetOps cfg env w = Panic msg w).
Proof.
  unfold getTargetOps. destruct (String.eqb _ _); [by left; eexists |].
  destruct (_ && _); [left | right]; by eexists.
Qed.

Lemma getTargetOps_returns w :
  dispatcher_returns cfg -> exists selected, getTargetOps cfg env w = Done selected w.
Proof.
  unfold dispatcher_returns, getTargetOps.
  intros [->|[H0 Hcap]]; [by eexists |].
  destruct (String.eqb _ _); [by eexists |].
  unfold cap in *. simpl. rewrite length_app in *.
  rewrite (Permutation_length (Shuffle_Permutation _ _ _)).
  destruct (Z.leb_spec 0 (randomDispatchingThreshold cfg)); [| lia].
  destruct (Z.leb_spec (randomDispatchingThreshold cfg)
              (Z.of_nat (length (elems (ops cfg)) + length (spare (ops cfg)))));
    [| lia].
  by eexists.
Qed.

(** The runs of [emailToOps]. *)
Lemma emailToOps_spec quoram w :
  let o := emailToOps cfg env request quoram w in
  match utils_EncodeAndEncrypt env (trace w) (ID request) (passphrase cfg) with
  | inr err =>
      o = Done (0, Some err)
            (extend w (encode_failure (ID request) (passphrase cfg) err
                         "Failed to encode requestID Token"))
  | inl token =>
      let first := Encrypt (ID request) (passphrase cfg) (inl token) in
      match getTargetOps cfg env (extend w [first]) with
      | Panic msg _ => o = Panic msg (extend w [first])
      | Done selected _ =>
          exists evs,
            (filter encrypt_failed evs = []
             /\ recipients evs = elems selected
             /\ let w2 := extend w (first :: evs) in
                let sent := mailed_ok evs in
                o = Done (quorum_result sent quoram)
                      {| trace := trace w ++ first :: evs
                                  ++ assignees_update env request sent w2;
                         store := assignees_store env request sent w2 |})
            \/ (exists err pre op,
                  o = Done (0, Some err) (extend w (first :: evs))
                  /\ evs = pre ++ encode_failure op (passphrase cfg) err
                                  "Failed to encode opEmail Token"
                  /\ filter encrypt_failed pre = []
                  /\ filter is_update pre = []
                  /\ recipients pre ++ [op] `prefix_of` elems selected)
      end
  end.
Proof.
  cbv zeta. unfold emailToOps, EncodeAndEncrypt. rewrite bind_call.
  destruct (utils_EncodeAndEncrypt env (trace w) (ID request) (passphrase cfg))
    as [token|err] eqn:Henc.
  2: { unfold log. by rewrite bind_emit, extend_extend. }
  set (w1 := extend w _).
  destruct (getTargetOps_cases w1) as [[selected Hsel]|[msg Hp]].
  2: { rewrite Hp. by apply bind_Panic. }
  rewrite Hsel, (bind_Done _ _ _ _ _ Hsel).
  match goal with
  | |- context [emailToOps_loop cfg env request ?subject token _ [] 0] =>
      destruct (emailToOps_loop_spec cfg env request subject token
                  (elems selected) [] 0 w1)
        as [evs [(Hrun & Hnf & Hrec)
                |(err & pre & op & Hrun & Hevs & Hnf & Hnu & Hrec)]]
  end; rewrite (bind_Done _ _ _ _ _ Hrun); exists evs.
  2: { right. exists err, pre, op. subst w1. by rewrite extend_extend. }
  left. split; [done |]. split; [done |]. simpl app.
  unfold quorum_result, assignees_update, assignees_store.
  change (0 + Z.of_nat (length (mailed_ok evs)))
    with (Z.of_nat (length (mailed_ok evs))).
  subst w1. rewrite extend_extend. cbn [app].
  destruct (mailed_ok evs) as [|op sent] eqn:Hsent.
  - cbn [length Nat.ltb Nat.leb]. rewrite bind_ret, app_nil_r.
    by destruct (_ >=? quoram).
  - cbn [length Nat.ltb Nat.leb].
    unfold bind at 1. unfold bind at 1.
    unfold dbService_UpdateRequest. cbn [trace store extend].
    destruct (db_UpdateRequest _ _ _ _ _) as [e|];
      unfold log, emit, ret; cbv beta iota; cbn [trace store extend];
      rewrite <- ?app_assoc; cbn [app]; by destruct (_ >=? quoram).
Qed.

(** Neither the prologue nor [emailToOps] acknowledges or publishes. *)
Lemma loop_no_ack subject token ops : forall assignees count,
  at_most is_ack 0
    (emailToOps_loop cfg env request subject token ops assignees count).
Proof. induction ops; intros; cbn [emailToOps_loop]; quiet. Qed.

Lemma loop_no_publish subject token ops : forall assignees count,
  at_most is_publish 0
    (emailToOps_loop cfg env request subject token ops assignees count).
Proof. induction ops; intros; cbn [emailToOps_loop]; quiet. Qed.

Lemma emailToOps_no_ack quoram :
  at_most is_ack 0 (emailToOps cfg env request quoram).
Proof.
  unfold emailToOps. pose proof loop_no_ack. quiet.
Qed.

Lemma emailToOps_no_publish quoram :
  at_most is_publish 0 (emailToOps cfg env request quoram).
Proof.
  unfold emailToOps. pose proof loop_no_publish. quiet.
Qed.

Lemma prologue_spec w :
  exists e pre,
    new_request_prologue cfg env request w = Done e (extend w pre)
    /\ filter is_ack pre = [] /\ filter is_publish pre = []
    /\ mailed_ok pre = [].
Proof.
  unfold new_request_prologue, received, emailConfirmation, EncodeAndEncrypt,
    Send_, log.
  rewrite bind_emit, bind_call.
  destruct (utils_EncodeAndEncrypt _ _ _ _) as [token|err].
  - rewrite bind_call.
    match goal with
    | |- context [mailer_Send env ?tr ?t ?l ?s ?r] =>
        destruct (mailer_Send env tr t l s r) as [e|]
    end; rewrite bind_emit; unfold ret; rewrite !extend_extend;
      eexists _, _; done.
  - rewrite bind_emit. unfold ret. rewrite !extend_extend. eexists _, _. done.
Qed.

Lemma updateCache_spec w :
  exists evs,
    updateCache env request w = Done tt (extend w evs)
    /\ filter is_cache_refresh evs <> []
    /\ filter is_ack evs = [] /\ filter is_publish evs = []
    /\ mailed_ok evs = [].
Proof.
  unfold updateCache, log. rewrite bind_call.
  destruct (cache_UpdateAllRequests env (trace w)) as [e1|];
    rewrite ?bind_emit, ?bind_ret, bind_call;
    match goal with
    | |- context [cache_UpdateRealTimeStats env ?tr ?r] =>
        destruct (cache_UpdateRealTimeStats env tr r) as [e2|]
    end; unfold ret; rewrite ?emit_extend, ?extend_extend; eexists; done.
Qed.

(** The handler after its prologue, by what [emailToOps] returns. *)
Lemma processNewRequest_prologue d w e w1 :
  new_request_prologue cfg env request w = Done e w1 ->
  processNewRequest cfg env d request w
  = bind (emailToOps cfg env request (minRequiredReceiver cfg))
      (fun r => let (successCount, err) := r in
                match err with
                | Some _ => emit (dispatch_failed request successCount)
                | None => bind (updateCache env request) (fun _ => Ack_ d)
                end) w1.
Proof.
  unfold new_request_prologue, processNewRequest. unfold bind at 1 2 3 4.
  destruct (received _ _ _) as [[] w0|]; [| discriminate].
  destruct (emailConfirmation _ _ _ _) as [e' w1'|]; [| discriminate].
  intros [= -> ->]. done.
Qed.

Lemma processNewRequest_missed d w e w1 n err w2 :
  new_request_prologue cfg env request w = Done e w1 ->
  emailToOps cfg env request (minRequiredReceiver cfg) w1
  = Done (n, Some err) w2 ->
  processNewRequest cfg env d request w
  = Done tt (extend w2 [dispatch_failed request n]).
Proof.
  intros Hpro Hops. rewrite (processNewRequest_prologue d w e w1 Hpro).
  by rewrite (bind_Done _ _ _ _ _ Hops).
Qed.

Lemma processNewRequest_met d w e w1 n w2 :
  new_request_prologue cfg env request w = Done e w1 ->
  emailToOps cfg env request (minRequiredReceiver cfg) w1
  = Done (n, None) w2 ->
  exists evs,
    processNewRequest cfg env d request w
    = Done tt (extend w2 (evs ++ [Ack (DeliveryTag d)]))
    /\ filter is_cache_refresh evs <> [].
Proof.
  intros Hpro Hops. rewrite (processNewRequest_prologue d w e w1 Hpro).
  rewrite (bind_Done _ _ _ _ _ Hops).
  destruct (updateCache_spec w2) as (evs & Hrun & Hcache & _).
  exists evs. rewrite (bind_Done _ _ _ _ _ Hrun). unfold Ack_.
  by rewrite emit_extend, extend_extend.
Qed.

End NewRequest.

Lemma added_world {A} (a : A) w evs s :
  added w (Done a {| trace := trace w ++ evs; store := s |}) = evs.
Proof. unfold added. simpl. by rewrite drop_app_length. Qed.

Section NewRequestClaims.

Context (cfg : Config) (env : Env) (request : WhitelistRequest).

Lemma assignees_update_kinds sent w :
  filter encrypt_failed (assignees_update env request sent w) = []
  /\ filter is_ack (assignees_update env request sent w) = []
  /\ mailed_ok (assignees_update env request sent w) = [].
Proof.
  unfold assignees_update. destruct sent; [done |].
  by destruct (db_UpdateRequest _ _ _ _ _).
Qed.

(** A failed encryption in [emailToOps]: the failure and its log are the
    last events of the run, which returns 0 and the error of the
    encryption; nothing was written to the store before, and nothing is
    afterwards. *)
Lemma emailToOps_token_failure quoram w :
  let o := emailToOps cfg env request quoram w in
  filter encrypt_failed (added w o) <> [] ->
  exists err before plaintext what,
    o = Done (0, Some err)
          (extend w (before ++ encode_failure plaintext (passphrase cfg) err what))
    /\ filter encrypt_failed before = []
    /\ filter is_update before = [].
Proof.
  cbv zeta. pose proof (emailToOps_spec cfg env request quoram w) as Hspec.
  cbv zeta in Hspec.
  destruct (utils_EncodeAndEncrypt env (trace w) (ID request) (passphrase cfg))
    as [token|err].
  2: { intros _. by exists err, [], (ID request), "Failed to encode requestID Token". }
  destruct (getTargetOps cfg env _) as [selected w'|msg w'].
  - destruct Hspec as [evs [(Hnf & _ & Ho)|(err & pre & op & Ho & Hevs & Hnf & Hnu & _)]].
    + rewrite Ho, added_world. intros Hfail. destruct Hfail.
      rewrite filter_cons_False by (by intros []).
      rewrite filter_app, Hnf.
      by destruct (assignees_update_kinds (mailed_ok evs)
                     (extend w (Encrypt (ID request) (passphrase cfg) (inl token) :: evs)))
        as (-> & _).
    + intros _. exists err, (Encrypt (ID request) (passphrase cfg) (inl token) :: pre), op,
        "Failed to encode opEmail Token".
      rewrite Ho, Hevs. split; [done |].
      split; by rewrite filter_cons_False by (by intros []).
  - rewrite Hspec, added_extend_panic. intros Hfail. by destruct Hfail.
Qed.

(** The runs of [emailToOps] when the dispatcher returns: either an
    encryption failed and the result is 0 and an error, or none failed and
    the result goes by the number of ops that were mailed. *)
Lemma emailToOps_runs quoram w :
  dispatcher_returns cfg ->
  exists r w2 evs,
    emailToOps cfg env request quoram w = Done r w2
    /\ trace w2 = trace w ++ evs
    /\ ((filter encrypt_failed evs <> []
         /\ (exists err, r = (0, Some err)) /\ store w2 = store w)
        \/ (filter encrypt_failed evs = []
            /\ r = quorum_result (mailed_ok evs) quoram
            /\ (exists selected w',
                  getTargetOps cfg env w' = Done selected w'
                  /\ recipients evs = elems selected)
            /\ exists w', store w' = store w
                 /\ store w2 = assignees_store env request (mailed_ok evs) w')).
Proof.
  intros Hdisp. pose proof (emailToOps_spec cfg env request quoram w) as Hspec.
  cbv zeta in Hspec.
  destruct (utils_EncodeAndEncrypt env (trace w) (ID request) (passphrase cfg))
    as [token|err].
  2: { eexists _, _, _. split; [exact Hspec |]. split; [done |]. left.
       split; [done |]. split; [by eexists | done]. }
  set (first := Encrypt (ID request) (passphrase cfg) (inl token)) in *.
  destruct (getTargetOps_returns cfg env (extend w [first]) Hdisp)
    as [selected Hsel].
  rewrite Hsel in Hspec.
  destruct Hspec as [evs [(Hnf & Hrec & Ho)
                         |(err & pre & op & Ho & Hevs & Hnf & Hnu & _)]].
  - cbv zeta in Ho. eexists _, _, _. split; [exact Ho |]. split; [done |].
    destruct (assignees_update_kinds (mailed_ok evs) (extend w (first :: evs)))
      as (Hu1 & _ & Hu3).
    assert (Hmail : mailed_ok (first :: evs
                      ++ assignees_update env request (mailed_ok evs)
                           (extend w (first :: evs))) = mailed_ok evs).
    { change (first :: ?l) with ([first] ++ l).
      rewrite !mailed_ok_app, Hu3, app_nil_r. done. }
    right. rewrite Hmail. split; [| split; [done | split]].
    + rewrite filter_cons_False by (by intros []).
      by rewrite filter_app, Hnf, Hu1.
    + exists selected, (extend w [first]). split; [done |].
      change (first :: ?l) with ([first] ++ l).
      rewrite !recipients_app, Hrec.
      unfold assignees_update. destruct (mailed_ok evs); [by rewrite app_nil_r |].
      destruct (db_UpdateRequest _ _ _ _ _); by rewrite app_nil_r.
    + by exists (extend w (first :: evs)).
  - eexists _, _, _. split; [exact Ho |]. split; [done |]. left.
    split; [| split; [by eexists | done]].
    rewrite Hevs. rewrite filter_cons_False by (by intros []).
    rewrite filter_app, Hnf. done.
Qed.

(** C10.  When the encryption of a link token fails inside [emailToOps], for
    the request id or for an op, the function returns 0 and the error at
    once: the failed encryption and its log are the last events of the run,
    so no action e-mail follows; nothing is written to the store; and the
    new-request handler logs the failed dispatch and returns without
    acknowledging the delivery. *)
Theorem token_failure_aborts d w :
  let w1 := world_of (new_request_prologue cfg env request w) in
  let o := emailToOps cfg env request (minRequiredReceiver cfg) w1 in
  filter encrypt_failed (added w1 o) <> [] ->
  exists err before plaintext what,
    o = Done (0, Some err)
          (extend w1 (before ++ encode_failure plaintext (passphrase cfg) err what))
    /\ filter encrypt_failed before = []
    /\ filter is_update (added w1 o) = []
    /\ store (world_of o) = store w1
    /\ processNewRequest cfg env d request w
       = Done tt (extend w1 (before
                             ++ encode_failure plaintext (passphrase cfg) err what
                             ++ [dispatch_failed request 0]))
    /\ filter is_ack (added w (processNewRequest cfg env d request w)) = [].
Proof.
  intros w1 o Hfail.
  destruct (prologue_spec cfg env request w) as (e & pre & Hpro & Hack & _).
  assert (Hw1 : w1 = extend w pre) by (unfold w1; by rewrite Hpro).
  rewrite <- Hw1 in Hpro.
  destruct (emailToOps_token_failure _ w1 Hfail)
    as (err & before & plaintext & what & Ho & Hnf & Hnu).
  exists err, before, plaintext, what. fold o in Ho.
  split; [done |]. split; [done |].
  split; [by rewrite Ho, added_extend, filter_app, Hnu |].
  split; [by rewrite Ho |].
  pose proof (processNewRequest_missed cfg env request d w e w1 0 err _ Hpro Ho)
    as Hrun.
  rewrite extend_extend, <- app_assoc in Hrun. split; [done |].
  pose proof (at_most_none is_ack _ w1
                (emailToOps_no_ack cfg env request (minRequiredReceiver cfg)))
    as Hno.
  fold o in Hno. rewrite Ho, added_extend in Hno.
  rewrite Hrun, Hw1, extend_extend, added_extend, filter_app, Hack.
  by rewrite app_assoc, filter_app, Hno.
Qed.

Lemma last_snoc_app (a b : list event) x : last (a ++ b ++ [x]) = Some x.
Proof. by rewrite app_assoc, last_snoc. Qed.

(** C5 (amended).  In the new-request handler, when the dispatcher returns
    a selection: if the number of action e-mails that were sent is below
    [minRequiredReceiver], the handler returns after the error log of the
    failed dispatch, with no acknowledge and no publish; if the quorum is
    met and no token encryption failed in [emailToOps], it refreshes the
    cache and acknowledges the delivery. *)
Theorem quorum_decides d w :
  dispatcher_returns cfg ->
  let w1 := world_of (new_request_prologue cfg env request w) in
  let o := emailToOps cfg env request (minRequiredReceiver cfg) w1 in
  let h := processNewRequest cfg env d request w in
  let sent := Z.of_nat (length (mailed_ok (added w h))) in
  (sent < minRequiredReceiver cfg ->
   (exists w', h = Done tt w')
   /\ (exists n, last (added w h) = Some (dispatch_failed request n))
   /\ filter is_ack (added w h) = []
   /\ filter is_publish (added w h) = [])
  /\ (minRequiredReceiver cfg <= sent ->
      filter encrypt_failed (added w1 o) = [] ->
      (exists w', h = Done tt w')
      /\ filter is_cache_refresh (added w h) <> []
      /\ last (added w h) = Some (Ack (DeliveryTag d))).
Proof.
  intros Hdisp w1 o h sent.
  destruct (prologue_spec cfg env request w)
    as (e & pre & Hpro & Hack & Hpub & Hmail).
  assert (Hw1 : w1 = extend w pre) by (unfold w1; by rewrite Hpro).
  rewrite <- Hw1 in Hpro.
  destruct (emailToOps_runs (minRequiredReceiver cfg) w1 Hdisp)
    as (r & w2 & evs & Ho & Htr & Hcases).
  fold o in Ho.
  assert (Hevs : added w1 o = evs)
    by (unfold added; rewrite Ho; simpl; by rewrite Htr, drop_app_length).
  pose proof (at_most_none is_ack _ w1
                (emailToOps_no_ack cfg env request (minRequiredReceiver cfg)))
    as Hoack.
  pose proof (at_most_none is_publish _ w1
                (emailToOps_no_publish cfg env request (minRequiredReceiver cfg)))
    as Hopub.
  fold o in Hoack, Hopub. rewrite Hevs in Hoack, Hopub.
  assert (Hmissed : forall n err, r = (n, Some err) ->
            h = Done tt (extend w2 [dispatch_failed request n])
            /\ added w h = pre ++ evs ++ [dispatch_failed request n]).
  { intros n err ->.
    pose proof (processNewRequest_missed cfg env request d w e w1 n err w2
                  Hpro Ho) as Hrun.
    split; [done |]. fold h in Hrun. rewrite Hrun. unfold added. simpl.
    rewrite Htr, Hw1. simpl. by rewrite <- !app_assoc, drop_app_length. }
  assert (Hbelow : forall n err, r = (n, Some err) ->
            (exists w', h = Done tt w')
            /\ (exists n, last (added w h) = Some (dispatch_failed request n))
            /\ filter is_ack (added w h) = []
            /\ filter is_publish (added w h) = []
            /\ mailed_ok (added w h) = mailed_ok evs).
  { intros n err Hr. destruct (Hmissed n err Hr) as [Hh Hadd].
    rewrite Hadd. split; [by eexists |].
    split; [exists n; apply last_snoc_app |].
    rewrite !filter_app, !mailed_ok_app, Hack, Hpub, Hoack, Hopub, Hmail.
    unfold dispatch_failed. split; [done |]. split; [done |].
    change (mailed_ok [_]) with (@nil string). by rewrite app_nil_r. }
  destruct Hcases as [(Hfail & [err ->] & _)|(Hnf & -> & _)].
  - destruct (Hbelow 0 err eq_refl) as (H1 & H2 & H3 & H4 & _).
    split; [done |]. intros _ Hnone. by rewrite Hevs in Hnone.
  - unfold quorum_result in *.
    destruct (Z.geb_spec (Z.of_nat (length (mailed_ok evs)))
                (minRequiredReceiver cfg)) as [Hge|Hlt].
    + destruct (processNewRequest_met cfg env request d w e w1 _ w2 Hpro Ho)
        as (cache & Hrun & Hcache).
      fold h in Hrun.
      destruct (updateCache_spec env request w2)
        as (cache' & Hcrun & _ & _ & _ & Hcmail).
      assert (Hadd : added w h = pre ++ evs ++ cache ++ [Ack (DeliveryTag d)]).
      { rewrite Hrun. unfold added. simpl. rewrite Htr, Hw1. simpl.
        by rewrite <- !app_assoc, drop_app_length. }
      assert (cache = cache') as ->.
      { pose proof (processNewRequest_prologue cfg env request d w e w1 Hpro)
          as Hh. fold h in Hh.
        rewrite (bind_Done _ _ _ _ _ Ho), (bind_Done _ _ _ _ _ Hcrun) in Hh.
        unfold Ack_ in Hh. rewrite emit_extend, extend_extend, Hrun in Hh.
        injection Hh as Hh. by apply app_inv_head, app_inv_tail in Hh. }
      assert (Hsent : sent = Z.of_nat (length (mailed_ok evs))).
      { unfold sent. rewrite Hadd, !mailed_ok_app, Hmail, Hcmail.
        by rewrite app_nil_r. }
      split; [intros Hlt; lia |]. intros _ _.
      split; [by eexists |]. rewrite Hadd. split.
      * rewrite !filter_app. intros Hnil.
        apply app_eq_nil in Hnil as [_ Hnil].
        apply app_eq_nil in Hnil as [_ Hnil].
        by apply app_eq_nil in Hnil as [Hnil _].
      * by rewrite !app_assoc, last_snoc.
    + destruct (Hbelow _ _ eq_refl) as (H1 & H2 & H3 & H4 & H5).
      split; [done |]. intros Hmet _. unfold sent in Hmet.
      rewrite H5 in Hmet. lia.
Qed.

(** C9 (amended).  After [emailToOps], when the dispatcher returned a
    selection, no token encryption failed and the store accepts the update:
    the ops an action e-mail was sent to are the selected ones; if the mail
    to one of them at least succeeded, the assignees of the document of the
    request are exactly the selected ops whose mail succeeded, in the order
    of the selection; if none succeeded, nothing is written and the
    document keeps the assignees it had. *)
Theorem assignees_persisted quoram w doc :
  store w !! ID request = Some doc ->
  dispatcher_returns cfg -> store_accepts env ->
  let o := emailToOps cfg env request quoram w in
  let sent := mailed_ok (added w o) in
  filter encrypt_failed (added w o) = [] ->
  (exists selected w',
      getTargetOps cfg env w' = Done selected w'
      /\ recipients (added w o) = elems selected)
  /\ match sent with
     | [] => store (world_of o) = store w
     | _ =>
         store (world_of o)
         = <[ID request := {| assignees := Some sent;
                              onserverStatus := onserverStatus doc |}]> (store w)
         /\ assignees_claim cfg env request quoram w
     end.
Proof.
  intros Hdoc Hdisp Hacc o sent Hnone.
  destruct (emailToOps_runs quoram w Hdisp)
    as (r & w2 & evs & Ho & Htr & Hcases).
  fold o in Ho.
  assert (Hevs : added w o = evs)
    by (unfold added; rewrite Ho; simpl; by rewrite Htr, drop_app_length).
  subst sent. rewrite Hevs in Hnone. rewrite Hevs.
  destruct Hcases as [(Hfail & _)|(_ & _ & Hsel & w' & Hw' & Hstore)];
    [done |].
  split; [done |]. rewrite Ho. simpl. rewrite Hstore.
  unfold assignees_store. destruct (mailed_ok evs) as [|op rest] eqn:Hsent;
    [done |].
  rewrite Hacc, Hw'.
  assert (Halter : alter (set_field "assignees" (DStrings (op :: rest)))
                     (ID request) (store w)
                   = <[ID request := {| assignees := Some (op :: rest);
                                        onserverStatus := onserverStatus doc |}]>
                       (store w)).
  { apply map_eq. intros id. destruct (decide (id = ID request)) as [->|Hne].
    - by rewrite lookup_alter_eq, lookup_insert_eq, Hdoc.
    - by rewrite lookup_alter_ne, lookup_insert_ne. }
  split; [done |]. unfold assignees_claim. cbv zeta. fold o.
  rewrite Hevs, Ho, Hsent. simpl. rewrite Hstore.
  unfold assignees_store. rewrite ?Hsent, Hacc, Hw', Halter.
  eexists. by rewrite lookup_insert_eq.
Qed.

End NewRequestClaims.

(** C5, as stated, fails.  With the quorum 1 and two ops, the mail to the
    first op is sent and the encryption of the second one fails: the quorum
    is met, and the delivery is not acknowledged.  With the quorum 0 and one
    op whose encryption fails, the quorum is met by no mail at all, and the
    delivery is not acknowledged either. *)
Lemma quorum_claim_fails :
  ~ quorum_claim (Sample.cfg "Broadcast" 0 1 ["m1@x"; "m2@x"])
      (Sample.env true ["m2@x"] []) (Sample.delivery ∅ (Sample.body "Pending"))
      (Sample.alice "Pending") Sample.w0
  /\ ~ quorum_claim (Sample.cfg "Broadcast" 0 0 ["m1@x"])
        (Sample.env true ["m1@x"] []) (Sample.delivery ∅ (Sample.body "Pending"))
        (Sample.alice "Pending") Sample.w0.
Proof.
  split; intros [_ Hmet].
  all: destruct Hmet as (_ & _ & Hlast); [by vm_compute |].
  all: vm_compute in Hlast; discriminate.
Qed.

(** The amended C5 at the two scenarios of the specification: three ops and
    the quorum 2, every mail sent (the delivery is acknowledged after the
    cache refresh); the same with the mails to the second and the third op
    failing (the handler logs the failed dispatch, without acknowledge). *)
Lemma quorum_decides_witness :
  let cfg := Sample.cfg "Broadcast" 0 2 Sample.moderators in
  let d := Sample.delivery ∅ (Sample.body "Pending") in
  let happy := processNewRequest cfg (Sample.env true [] []) d
                 (Sample.alice "Pending") Sample.w0 in
  let missed := processNewRequest cfg (Sample.env true [] ["m2@x"; "m3@x"]) d
                  (Sample.alice "Pending") Sample.w0 in
  dispatcher_returns cfg
  /\ last (added Sample.w0 happy) = Some (Ack (DeliveryTag d))
  /\ filter is_ack (added Sample.w0 missed) = [].
Proof.
  cbv zeta.
  assert (Hdisp : dispatcher_returns (Sample.cfg "Broadcast" 0 2 Sample.moderators))
    by (by left).
  split; [exact Hdisp |]. split.
  - destruct (quorum_decides (Sample.cfg "Broadcast" 0 2 Sample.moderators)
                (Sample.env true [] []) (Sample.alice "Pending")
                (Sample.delivery ∅ (Sample.body "Pending")) Sample.w0 Hdisp)
      as [_ Hmet].
    by destruct Hmet as (_ & _ & Hlast); [by vm_compute | by vm_compute |].
  - destruct (quorum_decides (Sample.cfg "Broadcast" 0 2 Sample.moderators)
                (Sample.env true [] ["m2@x"; "m3@x"]) (Sample.alice "Pending")
                (Sample.delivery ∅ (Sample.body "Pending")) Sample.w0 Hdisp)
      as [Hbelow _].
    by destruct Hbelow as (_ & _ & Hack & _); [by vm_compute |].
Defined.

(** C9, as stated, fails.  On a redelivery of a request whose document has
    the assignee [m1@x] from the first delivery, when no mail can be sent
    the document keeps this assignee, while the set of the ops that were
    mailed is empty. *)
Lemma assignees_claim_fails :
  ~ assignees_claim (Sample.cfg "Broadcast" 0 2 Sample.moderators)
      (Sample.env true [] Sample.moderators) (Sample.alice "Pending") 2
      Sample.w1.
Proof.
  intros (doc & Hdoc & Hass). vm_compute in Hdoc.
  injection Hdoc as <-. vm_compute in Hass. discriminate.
Qed.

(** The amended C9 at the second scenario of the specification: of three
    ops, only the first one can be mailed, and is the assignee afterwards. *)
Lemma assignees_persisted_witness :
  let cfg := Sample.cfg "Broadcast" 0 2 Sample.moderators in
  let env := Sample.env true [] ["m2@x"; "m3@x"] in
  let o := emailToOps cfg env (Sample.alice "Pending") 2 Sample.w0 in
  mailed_ok (added Sample.w0 o) = ["m1@x"]
  /\ store (world_of o)
     = <[ID (Sample.alice "Pending") :=
           {| assignees := Some ["m1@x"]; onserverStatus := None |}]>
         (store Sample.w0)
  /\ assignees_claim cfg env (Sample.alice "Pending") 2 Sample.w0.
Proof.
  cbv zeta.
  assert (Hsent : mailed_ok
            (added Sample.w0
               (emailToOps (Sample.cfg "Broadcast" 0 2 Sample.moderators)
                  (Sample.env true [] ["m2@x"; "m3@x"])
                  (Sample.alice "Pending") 2 Sample.w0)) = ["m1@x"])
    by (by vm_compute).
  split; [exact Hsent |].
  destruct (assignees_persisted (Sample.cfg "Broadcast" 0 2 Sample.moderators)
              (Sample.env true [] ["m2@x"; "m3@x"]) (Sample.alice "Pending") 2
              Sample.w0 {| assignees := None; onserverStatus := None |})
    as [_ Hstore].
  - reflexivity.
  - by left.
  - intros tr id field v. reflexivity.
  - by vm_compute.
  - rewrite Hsent in Hstore. exact Hstore.
Defined.

(** C10 at a request for three ops, the second of which cannot be
    encrypted: the first op is mailed, the third is not, nothing is written
    to the store and the delivery is not acknowledged. *)
Lemma token_failure_aborts_witness :
  let cfg := Sample.cfg "Broadcast" 0 1 Sample.moderators in
  let env := Sample.env true ["m2@x"] [] in
  let d := Sample.delivery ∅ (Sample.body "Pending") in
  let h := processNewRequest cfg env d (Sample.alice "Pending") Sample.w0 in
  recipients (added Sample.w0 h) = ["m1@x"]
  /\ filter is_update (added Sample.w0 h) = []
  /\ filter is_ack (added Sample.w0 h) = [].
Proof.
  cbv zeta. split; [by vm_compute |]. split; [by vm_compute |].
  destruct (token_failure_aborts (Sample.cfg "Broadcast" 0 1 Sample.moderators)
              (Sample.env true ["m2@x"] []) (Sample.alice "Pending")
              (Sample.delivery ∅ (Sample.body "Pending")) Sample.w0)
    as (err & before & plaintext & what & _ & _ & _ & _ & _ & Hack).
  - by vm_compute.
  - exact Hack.
Defined.

(** * The handlers beyond the claims *)

(** ** Running a handler step by step *)

(** The retry step on a delivery with the retry headers the worker and the
    broker write. *)
Lemma retry_typed env d desc w :
  retry_count_typed d -> death_trace_typed d ->
  exists e,
    retryMsgWithDelay env d desc w =
      Done tt (extend w
        (if 6 <? projected_count d then gives_up desc d
         else republish (retry_message (projected_count d) e (Body d))
                (channel_Publish env (trace w) "retry.ex"
                   (retry_message (projected_count d) e (Body d))))).
Proof.
  intros Hc Hd. destruct (retryExpiration_typed d w Hd) as [e He].
  exists e.
  exact (retryMsgWithDelay_run env d desc w e _ He (retryCountOf_typed d w Hc)).
Qed.

Lemma added_run {A} (o : outcome A) a w evs s :
  o = Done a {| trace := trace w ++ evs; store := s |} -> added w o = evs.
Proof. intros ->. apply added_world. Qed.

Lemma added_run_panic {A} (o : outcome A) msg w evs s :
  o = Panic msg {| trace := trace w ++ evs; store := s |} -> added w o = evs.
Proof. intros ->. unfold added. simpl. by rewrite drop_app_length. Qed.

(** The term a run is stuck on: the scrutinee of a match that is no match
    itself. *)
Ltac innermost t k :=
  lazymatch t with
  | context [match ?y with _ => _ end] => innermost y k
  | _ => k t
  end.

Ltac evaluate_in H :=
  cbv beta iota zeta delta
    [bind call emit ret log panic Ack_ extend gives_up republish] in H;
  cbn [trace store] in H.

(** The retry step inside a handler: with typed headers it gives up or
    republishes; without, it may panic as well. *)
Ltac retry_in H e d desc w' :=
  let Hr := fresh "Hretry" in
  first
    [ match goal with
      | Hc : retry_count_typed d, Hd : death_trace_typed d |- _ =>
          destruct (retry_typed e d desc w' Hc Hd) as [? Hr]
      end
    | destruct (retryMsgWithDelay_cases e d desc w')
        as [[? Hr]|[Hr|(? & ? & Hr)]] ];
  cbv zeta in Hr; rewrite Hr in H; clear Hr.

(** One step of a run: the run is evaluated up to the answer of an oracle
    or a test on the input, and goes on with each case. *)
Ltac step_in H :=
  evaluate_in H;
  lazymatch type of H with
  | _ = retryMsgWithDelay ?e ?d ?desc ?w' => retry_in H e d desc w'
  | context [match ?x with _ => _ end] =>
      innermost x ltac:(fun y =>
        lazymatch y with
        | retryMsgWithDelay ?e ?d ?desc ?w' => retry_in H e d desc w'
        | _ => destruct y eqn:?
        end)
  end.

Ltac run_in H :=
  repeat step_in H; evaluate_in H;
  rewrite <- ?app_assoc in H; cbn [app] in H.

(** The events of a run that has been evaluated. *)
Ltac events H :=
  first [ rewrite !(added_run _ _ _ _ _ H)
        | rewrite !(added_run_panic _ _ _ _ _ H) ].

(** ** The Denied handler *)

(** X1.  The Denied handler refreshes the cache and acknowledges the
    delivery, once and as its last action, whatever the cache, the
    encryption and the mailer answer: a decision e-mail that cannot be sent
    is logged and the delivery is acknowledged all the same.  The handler
    sends one e-mail when the token of the request was encrypted, none when
    it was not, and only to the applicant; it publishes nothing, issues no
    command and leaves the store as it is. *)
Theorem denial_always_acknowledged cfg env d request w :
  let o := processDenial cfg env d request w in
  (exists w', o = Done tt w' /\ store w' = store w)
  /\ last (added w o) = Some (Ack (DeliveryTag d))
  /\ filter is_ack (added w o) = [Ack (DeliveryTag d)]
  /\ filter is_publish (added w o) = []
  /\ filter is_command (added w o) = []
  /\ filter is_update (added w o) = []
  /\ (exists e1 e2,
        filter is_cache_refresh (added w o)
        = [UpdateAllRequests e1; UpdateRealTimeStats request e2])
  /\ length (filter is_mail (added w o))
     = (if bool_decide (filter encrypt_failed (added w o) = []) then 1 else 0)%nat
  /\ (forall template link subject recipient err,
        Send template link subject recipient err ∈ added w o ->
        recipient = Email request).
Proof.
  intros o. pose proof (eq_refl : o = processDenial cfg env d request w) as Ho.
  clearbody o.
  unfold processDenial, received, updateCache, emailDecision,
    EncodeAndEncrypt, Send_ in Ho.
  run_in Ho; events Ho.
  all: split; [by subst o; eexists |].
  all: do 5 (split; [reflexivity |]).
  all: split; [by eexists _, _ |].
  all: split; [reflexivity |].
  all: intros ? ? ? ? ? Hin; members Hin; try discriminate.
  all: by inversion Hin.
Qed.

(** ** The Approved handler when the command succeeds *)

(** X2.  When the whitelist command succeeds, the Approved handler asks the
    store to set the onserver status to Whitelisted and acknowledges the
    delivery, once and as its last action, whatever the encryption and the
    mailer answer and whatever the type of the retry headers; it issues
    that one command and publishes nothing.  On a delivery without retry
    count it sends one e-mail when the token of the request was encrypted;
    on a delivery with a retry count it sends none. *)
Theorem approval_success cfg env d request w :
  let o := processApproval cfg env d request w in
  filter command_failed (added w o) = [] ->
  (exists w', o = Done tt w')
  /\ last (added w o) = Some (Ack (DeliveryTag d))
  /\ filter is_ack (added w o) = [Ack (DeliveryTag d)]
  /\ filter is_publish (added w o) = []
  /\ filter is_command (added w o)
     = [SendCommand ("whitelist add " +:+ Username request) None]
  /\ omap status_update (added w o) = [(ID request, "Whitelisted")]
  /\ length (filter is_mail (added w o))
     = match Headers d !! "x-retry-count" with
       | Some _ => 0%nat
       | None =>
           if bool_decide (filter encrypt_failed (added w o) = [])
           then 1%nat else 0%nat
       end.
Proof.
  intros o. pose proof (eq_refl : o = processApproval cfg env d request w) as Ho.
  clearbody o.
  unfold processApproval, received, updateCache, issueRCON, emailDecision,
    updateOnserverStatus, dbService_UpdateRequest, EncodeAndEncrypt, Send_
    in Ho.
  run_in Ho; events Ho; intros Hok; try (simpl in Hok; discriminate).
  all: split; [by subst o; eexists |].
  all: repeat split; reflexivity.
Qed.

(** The handler at a first delivery while every collaborator answers
    without error. *)
Lemma approval_success_witness :
  let d := Sample.delivery ∅ (Sample.body "Approved") in
  let o := processApproval (Sample.cfg "Broadcast" 0 2 Sample.moderators)
             (Sample.env true [] []) d (Sample.alice "Approved") Sample.w0 in
  (exists w', o = Done tt w')
  /\ last (added Sample.w0 o) = Some (Ack (DeliveryTag d))
  /\ filter is_ack (added Sample.w0 o) = [Ack (DeliveryTag d)]
  /\ filter is_publish (added Sample.w0 o) = []
  /\ filter is_command (added Sample.w0 o)
     = [SendCommand ("whitelist add " +:+ "alice") None]
  /\ omap status_update (added Sample.w0 o)
     = [("5d8e1b2f9c0a4b0012345678", "Whitelisted")]
  /\ length (filter is_mail (added Sample.w0 o)) = 1%nat.
Proof.
  pose proof (approval_success (Sample.cfg "Broadcast" 0 2 Sample.moderators)
                (Sample.env true [] [])
                (Sample.delivery ∅ (Sample.body "Approved"))
                (Sample.alice "Approved") Sample.w0) as H.
  cbv zeta in H. lapply H; [clear H | reflexivity].
  intros (H1 & H2 & H3 & H4 & H5 & H6 & H7).
  cbv zeta. repeat split; assumption.
Defined.

(** ** The Banned handler *)

(** The runs of the Banned handler on a delivery with typed retry
    headers. *)
Lemma ban_runs env d request w :
  retry_count_typed d -> death_trace_typed d ->
  let o := processBan env d request w in
  (exists w', o = Done tt w')
  /\ last (added w o) = Some (Ack (DeliveryTag d))
  /\ omap status_update (added w o) = [(ID request, OnserverBanned)]
  /\ (exists err,
        filter is_command (added w o)
        = [SendCommand ("ban " +:+ Username request) err])
  /\ (filter command_failed (added w o) = [] ->
      filter is_ack (added w o) = [Ack (DeliveryTag d)]
      /\ filter is_publish (added w o) = [])
  /\ (filter command_failed (added w o) <> [] ->
      if 6 <? projected_count d
      then filter is_ack (added w o)
           = [Ack (DeliveryTag d); Ack (DeliveryTag d)]
           /\ filter is_publish (added w o) = []
      else filter is_ack (added w o) = [Ack (DeliveryTag d)]
           /\ length (filter is_publish (added w o)) = 1%nat).
Proof.
  intros Hc Hd o.
  pose proof (eq_refl : o = processBan env d request w) as Ho.
  clearbody o.
  unfold processBan, received, updateCache, issueRCON, updateOnserverStatus,
    dbService_UpdateRequest in Ho.
  run_in Ho; events Ho.
  all: split; [by subst o; eexists |].
  all: split; [reflexivity |]. all: split; [reflexivity |].
  all: split; [by eexists |].
  all: split; intros Hok;
    try (simpl in Hok; first [discriminate | by destruct Hok]).
  all: try match goal with Hb : (6 <? _) = _ |- _ => rewrite Hb end.
  all: split; reflexivity.
Qed.

(** X3.  The Banned handler issues the ban command once, asks the store to
    set the onserver status to Banned and acknowledges the delivery as its
    last action whatever the game server answered: also when the ban
    command failed and the message was republished for a retry. *)
Theorem ban_marks_banned env d request w :
  retry_count_typed d -> death_trace_typed d ->
  let o := processBan env d request w in
  (exists w', o = Done tt w')
  /\ (exists err,
        filter is_command (added w o)
        = [SendCommand ("ban " +:+ Username request) err])
  /\ omap status_update (added w o) = [(ID request, OnserverBanned)]
  /\ last (added w o) = Some (Ack (DeliveryTag d)).
Proof.
  intros Hc Hd o.
  destruct (ban_runs env d request w Hc Hd)
    as (Hdone & Hlast & Hst & Hcmd & _).
  done.
Qed.

(** The handler at a first delivery while the game server is down. *)
Lemma ban_marks_banned_witness :
  let d := Sample.delivery ∅ (Sample.body "Banned") in
  let o := processBan (Sample.env false [] []) d (Sample.alice "Banned")
             Sample.w0 in
  (exists w', o = Done tt w')
  /\ (exists err,
        filter is_command (added Sample.w0 o)
        = [SendCommand ("ban " +:+ "alice") err])
  /\ omap status_update (added Sample.w0 o)
     = [("5d8e1b2f9c0a4b0012345678", OnserverBanned)]
  /\ last (added Sample.w0 o) = Some (Ack (DeliveryTag d)).
Proof.
  apply (ban_marks_banned (Sample.env false [] [])
           (Sample.delivery ∅ (Sample.body "Banned")) (Sample.alice "Banned")
           Sample.w0); exact I.
Defined.



(** ** The Deactivated handler *)

(** X5.  When the remove command succeeds, the Deactivated handler, which
    issued that one command, asks the store to set the onserver status to
    None, refreshes the cache and acknowledges the delivery, once and as
    its last action; it publishes nothing. *)
Theorem deactivate_success env d request w :
  let o := processDeactivate env d request w in
  filter command_failed (added w o) = [] ->
  (exists w', o = Done tt w')
  /\ filter is_command (added w o)
     = [SendCommand ("whitelist remove " +:+ Username request) None]
  /\ omap status_update (added w o) = [(ID request, OnserverNone)]
  /\ filter is_cache_refresh (added w o) <> []
  /\ last (added w o) = Some (Ack (DeliveryTag d))
  /\ filter is_ack (added w o) = [Ack (DeliveryTag d)]
  /\ filter is_publish (added w o) = [].
Proof.
  intros o.
  pose proof (eq_refl : o = processDeactivate env d request w) as Ho.
  clearbody o.
  unfold processDeactivate, received, updateCache, issueRCON,
    updateOnserverStatus, dbService_UpdateRequest in Ho.
  run_in Ho; events Ho; intros Hok; try (simpl in Hok; discriminate).
  all: split; [by subst o; eexists |].
  all: repeat split; try reflexivity; discriminate.
Qed.

Lemma deactivate_success_witness :
  let d := Sample.delivery ∅ (Sample.body "Deactivated") in
  let o := processDeactivate (Sample.env true [] []) d (Sample.alice "Deactivated")
             Sample.w0 in
  (exists w', o = Done tt w')
  /\ filter is_command (added Sample.w0 o)
     = [SendCommand ("whitelist remove " +:+ "alice") None]
  /\ omap status_update (added Sample.w0 o)
     = [("5d8e1b2f9c0a4b0012345678", OnserverNone)]
  /\ filter is_cache_refresh (added Sample.w0 o) <> []
  /\ last (added Sample.w0 o) = Some (Ack (DeliveryTag d))
  /\ filter is_ack (added Sample.w0 o) = [Ack (DeliveryTag d)]
  /\ filter is_publish (added Sample.w0 o) = [].
Proof.
  apply (deactivate_success (Sample.env true [] [])
           (Sample.delivery ∅ (Sample.body "Deactivated"))
           (Sample.alice "Deactivated") Sample.w0).
  reflexivity.
Defined.

(** X6.  When the remove command fails, the Deactivated handler leaves the
    store and the cache alone and hands the delivery to the retry step: the
    delivery is acknowledged only when the retry step gives up (a retry
    count of 6 or more), and is republished once, unacknowledged,
    otherwise. *)
Theorem deactivate_failure env d request w :
  retry_count_typed d -> death_trace_typed d ->
  let o := processDeactivate env d request w in
  filter command_failed (added w o) <> [] ->
  (exists w', o = Done tt w' /\ store w' = store w)
  /\ (exists e,
        filter is_command (added w o)
        = [SendCommand ("whitelist remove " +:+ Username request) (Some e)])
  /\ filter is_update (added w o) = []
  /\ filter is_cache_refresh (added w o) = []
  /\ if 6 <? projected_count d
     then filter is_ack (added w o) = [Ack (DeliveryTag d)]
          /\ filter is_publish (added w o) = []
     else filter is_ack (added w o) = []
          /\ length (filter is_publish (added w o)) = 1%nat.
Proof.
  intros Hc Hd o.
  pose proof (eq_refl : o = processDeactivate env d request w) as Ho.
  clearbody o.
  unfold processDeactivate, received, updateCache, issueRCON,
    updateOnserverStatus, dbService_UpdateRequest in Ho.
  run_in Ho; events Ho; intros Hfail; try (by destruct Hfail).
  all: split; [by subst o; eexists |].
  all: split; [by eexists |].
  all: try match goal with Hb : (6 <? _) = _ |- _ => rewrite Hb end.
  all: repeat split; reflexivity.
Qed.

Lemma deactivate_failure_witness :
  let d := Sample.delivery ∅ (Sample.body "Deactivated") in
  let o := processDeactivate (Sample.env false [] []) d (Sample.alice "Deactivated")
             Sample.w0 in
  (exists w', o = Done tt w' /\ store w' = store Sample.w0)
  /\ (exists e,
        filter is_command (added Sample.w0 o)
        = [SendCommand ("whitelist remove " +:+ "alice") (Some e)])
  /\ filter is_update (added Sample.w0 o) = []
  /\ filter is_cache_refresh (added Sample.w0 o) = []
  /\ if 6 <? projected_count d
     then filter is_ack (added Sample.w0 o) = [Ack (DeliveryTag d)]
          /\ filter is_publish (added Sample.w0 o) = []
     else filter is_ack (added Sample.w0 o) = []
          /\ length (filter is_publish (added Sample.w0 o)) = 1%nat.
Proof.
  apply (deactivate_failure (Sample.env false [] [])
           (Sample.delivery ∅ (Sample.body "Deactivated"))
           (Sample.alice "Deactivated") Sample.w0);
    [exact I | exact I | discriminate].
Defined.

(** ** The retry step, whatever the delivery *)

(** X7.  The retry step panics before it has called anything, or returns
    after exactly one of the two: an acknowledgement of the delivery at
    hand, or the publishing of one message.  What it publishes goes to
    [retry.ex] with the empty routing key, is persistent, of content type
    [application/json], and carries the body of the delivery unchanged.
    The step sends no e-mail, issues no command and leaves the store as it
    is. *)
Theorem retry_settles_or_republishes env d desc w :
  let o := retryMsgWithDelay env d desc w in
  ((exists msg, o = Panic msg w)
   \/ (exists w', o = Done tt w'
       /\ (length (filter is_ack (added w o))
           + length (filter is_publish (added w o)) = 1)%nat))
  /\ store (world_of o) = store w
  /\ filter is_mail (added w o) = []
  /\ filter is_command (added w o) = []
  /\ filter is_update (added w o) = []
  /\ (forall tag, Ack tag ∈ added w o -> tag = DeliveryTag d)
  /\ (forall exchange key mandatory immediate msg err,
        Publish exchange key mandatory immediate msg err ∈ added w o ->
        exchange = "retry.ex" /\ key = ""
        /\ DeliveryMode msg = Persistent
        /\ ContentType msg = "application/json"
        /\ PBody msg = Body d).
Proof.
  cbv zeta.
  destruct (retryMsgWithDelay_cases env d desc w)
    as [[msg ->]|[->|(c & e & ->)]]; cbv zeta.
  - split; [left; by eexists |].
    unfold added. simpl. rewrite drop_all.
    repeat split; try done; intros;
      match goal with H : _ ∈ _ |- _ => by members H end.
  - split; [right; eexists; split; [done |]; by rewrite added_extend |].
    rewrite added_extend. unfold gives_up.
    repeat split; try done; intros;
      match goal with H : _ ∈ _ |- _ => members H end;
      try discriminate; by inversion H.
  - split.
    { right. eexists. split; [done |]. rewrite added_extend. unfold republish.
      by destruct (channel_Publish _ _ _ _). }
    rewrite added_extend. unfold republish.
    destruct (channel_Publish _ _ _ _).
    all: repeat split; try done; intros;
      match goal with H : _ ∈ _ |- _ => members H end;
      try discriminate; by inversion H.
Qed.

(** ** A command that keeps failing *)



Section FailingChain.

Context (env : Env) (handle : Delivery -> M unit).

(** The handler issues one command, which fails, and hands the delivery to
    the retry step. *)
Hypothesis handle_fails : forall d w,
  exists pre desc,
    handle d w = retryMsgWithDelay env d desc (extend w pre)
    /\ length (filter is_command pre) = 1%nat
    /\ filter is_ack pre = [] /\ filter is_publish pre = []
    /\ filter is_mail pre = [] /\ filter is_update pre = [].

Hypothesis publish_ok : publish_succeeds env.



End FailingChain.








(** ** The e-mails to the applicant *)

(** X10.  [emailDecision] sends one e-mail, to the applicant, when the
    encryption of the request id returned a token, and none when it failed;
    it returns nil exactly when the mailer accepted the e-mail.  The
    template and the subject are those of an approval when the status is
    Approved and those of a denial for every other status; the link is the
    token.  The store is left as it is. *)
Theorem emailDecision_result cfg env request w :
  let o := emailDecision cfg env request w in
  exists err w',
    o = Done err w' /\ store w' = store w
    /\ (err = None <-> exists template link subject recipient,
          Send template link subject recipient None ∈ added w o)
    /\ length (filter is_mail (added w o))
       = (if bool_decide (filter encrypt_failed (added w o) = [])
          then 1 else 0)%nat
    /\ (forall template link subject recipient e,
          Send template link subject recipient e ∈ added w o ->
          recipient = Email request
          /\ (template, subject)
             = (if String.eqb (Status request) StatusApproved
                then ("./mailer/templates/approve.html", approvedEmailTitle cfg)
                else ("./mailer/templates/deny.html", deniedEmailTitle cfg))
          /\ Encrypt (ID request) (passphrase cfg) (inl link) ∈ added w o).
Proof.
  intros o. pose proof (eq_refl : o = emailDecision cfg env request w) as Ho.
  clearbody o.
  unfold emailDecision, EncodeAndEncrypt, Send_ in Ho.
  run_in Ho; events Ho; eexists _, _; (split; [exact Ho |]).
  all: split; [reflexivity |].
  all: split; [split; [try discriminate; intros _; eexists _, _, _, _;
                       apply list_elem_of_In; simpl; eauto
                      | try reflexivity; intros (? & ? & ? & ? & Hin);
                        members Hin; discriminate] |].
  all: split; [reflexivity |].
  all: intros ? ? ? ? ? Hin; members Hin; try discriminate.
  all: inversion Hin; subst; rewrite ?Heqb.
  all: repeat split; apply list_elem_of_here.
Qed.

(** X11.  [emailConfirmation] sends one e-mail, to the applicant, when the
    encryption of the request id returned a token, and none when it failed;
    it returns nil exactly when the mailer accepted the e-mail.  The e-mail
    has the confirmation template and the configured subject, and its link
    is the frontend URL, [status/] and the token. *)
Theorem emailConfirmation_result cfg env request w :
  let o := emailConfirmation cfg env request w in
  exists err w',
    o = Done err w' /\ store w' = store w
    /\ (err = None <-> exists template link subject recipient,
          Send template link subject recipient None ∈ added w o)
    /\ length (filter is_mail (added w o))
       = (if bool_decide (filter encrypt_failed (added w o) = [])
          then 1 else 0)%nat
    /\ (forall template link subject recipient e,
          Send template link subject recipient e ∈ added w o ->
          recipient = Email request
          /\ template = "./mailer/templates/confirmation.html"
          /\ subject = confirmationEmailTitle cfg
          /\ exists token,
               Encrypt (ID request) (passphrase cfg) (inl token) ∈ added w o
               /\ link = FRONTEND_DEPLOYED_URL cfg +:+ "status/" +:+ token).
Proof.
  intros o.
  pose proof (eq_refl : o = emailConfirmation cfg env request w) as Ho.
  clearbody o.
  unfold emailConfirmation, EncodeAndEncrypt, Send_ in Ho.
  run_in Ho; events Ho; eexists _, _; (split; [exact Ho |]).
  all: split; [reflexivity |].
  all: split; [split; [try discriminate; intros _; eexists _, _, _, _;
                       apply list_elem_of_In; simpl; eauto
                      | try reflexivity; intros (? & ? & ? & ? & Hin);
                        members Hin; discriminate] |].
  all: split; [reflexivity |].
  all: intros ? ? ? ? ? Hin; members Hin; try discriminate.
  all: inversion Hin; subst.
  all: repeat split; eexists; split; [apply list_elem_of_here | reflexivity].
Qed.

(** ** The links of the action e-mails *)

Section ActionLinks.

Context (cfg : Config) (env : Env) (request : WhitelistRequest).

(** What the loop over the ops sends: each e-mail goes out with the ops
    template and the subject at hand, and its link ends with the token the
    encryption of its recipient returned. *)
Lemma loop_links subject token ops : forall assignees count w,
  exists r evs,
    emailToOps_loop cfg env request subject token ops assignees count w
    = Done r (extend w evs)
    /\ forall template link subject' recipient e,
         Send template link subject' recipient e ∈ evs ->
         template = "./mailer/templates/ops.html" /\ subject' = subject
         /\ exists opEmailToken,
              Encrypt recipient (passphrase cfg) (inl opEmailToken) ∈ evs
              /\ link = FRONTEND_DEPLOYED_URL cfg +:+ "action/" +:+ token
                        +:+ "?adm=" +:+ opEmailToken.
Proof.
  induction ops as [|op ops IH]; intros assignees count w.
  { exists (inr (assignees, count)), []. rewrite extend_nil. split; [done |].
    intros ? ? ? ? ? Hin. by members Hin. }
  cbn [emailToOps_loop]. unfold EncodeAndEncrypt, Send_, log.
  rewrite bind_call.
  destruct (utils_EncodeAndEncrypt env (trace w) op (passphrase cfg))
    as [opEmailToken|err].
  2: { rewrite bind_emit, extend_extend. eexists _, _. split; [done |].
       intros ? ? ? ? ? Hin. cbn [app] in Hin. members Hin; discriminate. }
  rewrite bind_call.
  match goal with
  | |- context [mailer_Send env ?tr ?t ?l ?s ?r] =>
      destruct (mailer_Send env tr t l s r) as [e|]
  end; rewrite bind_emit, !extend_extend;
    match goal with
    | |- context [emailToOps_loop _ _ _ _ _ _ ?a ?c (extend w ?p)] =>
        destruct (IH a c (extend w p)) as (r & evs & Hrun & Hlinks);
        rewrite Hrun, extend_extend; exists r; eexists; (split; [done |])
    end.
  all: intros ? ? ? ? ? Hin.
  all: apply elem_of_app in Hin as [Hin|Hin].
  all: try (destruct (Hlinks _ _ _ _ _ Hin) as (-> & -> & tok & Henc & ->);
            split; [done |]; split; [done |]; exists tok;
            split; [apply elem_of_app; by right | done]).
  all: cbn [app] in Hin; members Hin; try discriminate; inversion Hin; subst.
  all: split; [done |]; split; [done |]; exists opEmailToken.
  all: split; [apply elem_of_app; left; apply list_elem_of_here | done].
Qed.

(** X12.  Every e-mail [emailToOps] sends is an action e-mail with the
    subject of the request, and its link is made for its recipient: the
    frontend URL, [action/], the token the encryption of the request id
    returned at the start of the run, [?adm=], and a token the encryption
    of the recipient's own address returned.  When the dispatcher returns a
    selection and no encryption fails, one such e-mail goes to each op of
    the selection, in its order. *)
Theorem action_links quoram w :
  let o := emailToOps cfg env request quoram w in
  (forall template link subject recipient e,
     Send template link subject recipient e ∈ added w o ->
     template = "./mailer/templates/ops.html"
     /\ subject = "[Action Required] Whitelist request from "
                  +:+ Username request
     /\ exists requestIDToken opEmailToken,
          head (added w o)
          = Some (Encrypt (ID request) (passphrase cfg) (inl requestIDToken))
          /\ Encrypt recipient (passphrase cfg) (inl opEmailToken)
             ∈ added w o
          /\ link = FRONTEND_DEPLOYED_URL cfg +:+ "action/"
                    +:+ requestIDToken +:+ "?adm=" +:+ opEmailToken)
  /\ (dispatcher_returns cfg ->
      filter encrypt_failed (added w o) = [] ->
      exists selected w',
        getTargetOps cfg env w' = Done selected w'
        /\ recipients (added w o) = elems selected).
Proof.
  intros o. split.
  2: { intros Hdisp Hnf. subst o.
       destruct (emailToOps_runs cfg env request quoram w Hdisp)
         as (r & w2 & evs & Hrun & Htr & Hcases).
       assert (Hadd : added w (emailToOps cfg env request quoram w) = evs).
       { rewrite Hrun. unfold added. simpl. by rewrite Htr, drop_app_length. }
       rewrite Hadd in *.
       destruct Hcases as [(Hf & _)|(_ & _ & (selected & w' & Hsel & Hrec) & _)];
         [done |].
       by exists selected, w'. }
  pose proof (eq_refl : o = emailToOps cfg env request quoram w) as Ho.
  clearbody o.
  unfold emailToOps, EncodeAndEncrypt, dbService_UpdateRequest in Ho.
  step_in Ho.
  2: { run_in Ho. events Ho. intros ? ? ? ? ? Hin. members Hin; discriminate. }
  evaluate_in Ho.
  match type of Ho with
  | context [getTargetOps cfg env ?w1] =>
      destruct (getTargetOps_cases cfg env w1) as [[selected Hsel]|[msg Hp]];
      [rewrite Hsel in Ho | rewrite Hp in Ho]
  end.
  2: { run_in Ho. events Ho. intros ? ? ? ? ? Hin. members Hin; discriminate. }
  match type of Ho with
  | context [emailToOps_loop cfg env request ?subject ?token ?ops ?a ?c ?w1] =>
      destruct (loop_links subject token ops a c w1)
        as (r & evs & Hrun & Hlinks);
      rewrite Hrun in Ho
  end.
  run_in Ho; events Ho.
  all: intros ? ? ? ? ? Hin.
  all: apply elem_of_cons in Hin as [Hin|Hin]; [discriminate |].
  all: try (apply elem_of_app in Hin as [Hin|Hin];
            [| members Hin; discriminate]).
  all: destruct (Hlinks _ _ _ _ _ Hin) as (-> & -> & tok & Henc & ->).
  all: split; [done |]; split; [done |]; eexists _, tok.
  all: split; [reflexivity |]; split; [| done].
  all: apply elem_of_cons; right; try (apply elem_of_app; left); done.
Qed.

End ActionLinks.

(** The action e-mail to the first of three ops under the broadcast
    strategy. *)
Lemma action_links_witness :
  let cfg := Sample.cfg "Broadcast" 0 1 Sample.moderators in
  let o := emailToOps cfg (Sample.env true [] []) (Sample.alice "Pending") 1
             Sample.w0 in
  "./mailer/templates/ops.html" = "./mailer/templates/ops.html"
  /\ "[Action Required] Whitelist request from alice"
     = "[Action Required] Whitelist request from "
       +:+ Username (Sample.alice "Pending")
  /\ exists requestIDToken opEmailToken,
       head (added Sample.w0 o)
       = Some (Encrypt (ID (Sample.alice "Pending")) (passphrase cfg)
                 (inl requestIDToken))
       /\ Encrypt "m1@x" (passphrase cfg) (inl opEmailToken)
          ∈ added Sample.w0 o
       /\ "https://mc.example/action/enc-5d8e1b2f9c0a4b0012345678?adm=enc-m1@x"
          = FRONTEND_DEPLOYED_URL cfg +:+ "action/" +:+ requestIDToken
            +:+ "?adm=" +:+ opEmailToken.
Proof.
  apply (proj1 (action_links (Sample.cfg "Broadcast" 0 1 Sample.moderators)
                  (Sample.env true [] []) (Sample.alice "Pending") 1
                  Sample.w0)
           "./mailer/templates/ops.html"
           "https://mc.example/action/enc-5d8e1b2f9c0a4b0012345678?adm=enc-m1@x"
           "[Action Required] Whitelist request from alice" "m1@x" None).
  apply list_elem_of_In. vm_compute. tauto.
Defined.

(** ** Bodies the main loop cannot decode *)

Lemma blank_not_a_request body : json.skip_ws body = "" -> not_a_request body.
Proof.
  intros Hblank. unfold not_a_request, json.Scan. cbn [json.scan_value].
  by rewrite Hblank.
Qed.

(** X13.  A delivery with a nil body is skipped: nothing is logged and the
    delivery is not acknowledged.  A delivery whose body is no JSON text
    (an empty or blank body, for one) or a JSON value other than an object
    and [null] is discarded: the loop logs the error of the decoder and
    acknowledges the delivery, and no handler runs. *)
Theorem undecodable_discarded cfg env d w :
  match Body d with
  | None => runLoop_delivery cfg env d w = Done tt w
  | Some body =>
      not_a_request body ->
      exists e,
        runLoop_delivery cfg env d w = Done tt (extend w (discarded d e))
  end.
Proof.
  unfold runLoop_delivery, discarded.
  destruct (Body d) as [body|]; [| done].
  unfold not_a_request, deserialize, Decode.
  destruct (json.Scan body) as [[[] rest]|]; try contradiction; intros _;
    eexists; unfold log, Ack_; by rewrite bind_emit, emit_extend, extend_extend.
Qed.

(** A delivery whose body is blank. *)
Lemma undecodable_discarded_witness :
  let d := Sample.delivery ∅ "  " in
  exists e,
    runLoop_delivery (Sample.cfg "Broadcast" 0 2 Sample.moderators)
      (Sample.env true [] []) d Sample.w0
    = Done tt (extend Sample.w0 (discarded d e)).
Proof.
  apply (undecodable_discarded (Sample.cfg "Broadcast" 0 2 Sample.moderators)
           (Sample.env true [] []) (Sample.delivery ∅ "  ") Sample.w0).
  by apply blank_not_a_request.
Defined.

(** * The connection to the broker *)

Module lifecycle_facts.
Import lifecycle.

Lemma made_return {A} (r : result State A) a s cs w n :
  r = Return a {| worker := w; calls := calls s ++ cs; chans := n |} ->
  made s r = cs.
Proof. intros ->. unfold made. simpl. by rewrite drop_app_length. Qed.

Lemma made_halt {A} (r : result State A) h s cs w n :
  r = Halt h {| worker := w; calls := calls s ++ cs; chans := n |} ->
  made s r = cs.
Proof. intros ->. unfold made. simpl. by rewrite drop_app_length. Qed.

(** The comparisons of closed numbers in a run. *)
Ltac compare_in H :=
  repeat match type of H with
         | context [?a >? ?b] =>
             let v := eval vm_compute in (a >? b) in
             lazymatch v with
             | true => change (a >? b) with true in H
             | false => change (a >? b) with false in H
             end
         | context [?a <? ?b] =>
             let v := eval vm_compute in (a <? b) in
             lazymatch v with
             | true => change (a <? b) with true in H
             | false => change (a <? b) with false in H
             end
         end.

Ltac evaluate_prog_in H :=
  repeat (progress
    (cbv beta iota zeta delta
       [andThen pure halts record ask get set make fatal failOnError
        nil_pointer updateDeliveryChannel reconnect_attempt
        try.Do try.Do_from try.is_nil value_of error_of negb orb] in H;
     cbn [worker calls chans conn channel rabbitCloseError delivery] in H;
     compare_in H)).

Ltac step_prog_in H :=
  evaluate_prog_in H;
  lazymatch type of H with
  | context [match ?x with _ => _ end] =>
      innermost x ltac:(fun y => destruct y eqn:?)
  end.

Ltac run_prog_in H :=
  repeat step_prog_in H; evaluate_prog_in H;
  rewrite <- ?app_assoc in H; cbn [app] in H.

Ltac calls_of H :=
  first [ rewrite !(made_return _ _ _ _ _ _ H)
        | rewrite !(made_halt _ _ _ _ _ _ H) ].

Section Reconnect.

Context (url : string) (broker : Broker).

(** X14.  A close notification that carries no error starts nothing.  One
    that carries an error starts a reconnection, which dials the broker, at
    the configured address, until a dial succeeds or three dials have
    failed: it sleeps 5 seconds after each dial that failed, the last one
    included, and dials no more once a dial succeeded.  It never
    dereferences a nil pointer. *)
Theorem reconnect_bounded rabbitErr s :
  let r := runLoop_closed url broker rabbitErr s in
  (rabbitErr = None -> r = Return tt s)
  /\ (rabbitErr <> None ->
      head (made s r) = Some about_to_reconnect
      /\ (length (filter dial_failed (made s r)) = 3%nat
          /\ filter dial_ok (made s r) = []
          \/ (length (filter dial_failed (made s r)) < 3)%nat
             /\ length (filter dial_ok (made s r)) = 1%nat))
  /\ (forall u res, Dial u res ∈ made s r -> u = url)
  /\ filter is_sleep (made s r)
     = replicate (length (filter dial_failed (made s r))) (Sleep (5 * Second))
  /\ filter is_dial (made s r)
     = filter dial_failed (made s r) ++ filter dial_ok (made s r)
  /\ (forall msg s', r <> Halt (Panicked msg) s').
Proof.
  intros r. pose proof (eq_refl : r = runLoop_closed url broker rabbitErr s) as Hr.
  clearbody r. unfold runLoop_closed in Hr.
  destruct rabbitErr as [e|].
  2: { subst r. unfold made, pure. simpl. rewrite drop_all.
       repeat split; try done.
       intros ? ? Hin. by members Hin. }
  unfold reconnect in Hr.
  change (try.Do ?f) with (try.Do_from 10 f 1) in Hr.
  run_prog_in Hr; calls_of Hr.
  all: split; [discriminate |].
  all: split; [intros _; split; [reflexivity |];
               first [ left; split; reflexivity
                     | right; split; [simpl; lia | reflexivity] ] |].
  all: split; [intros ? ? Hin; members Hin; try discriminate; by inversion Hin |].
  all: split; [reflexivity |]. all: split; [reflexivity |].
  all: intros ? ? ->; discriminate.
Qed.

(** X15.  When the three dials of a reconnection fail, the worker logs the
    error of the third dial as fatal and exits with status 1, 15 seconds of
    sleep after the first dial: it opens no channel, registers no consumer
    and asks for no close notification. *)
Theorem reconnect_gives_up s :
  let r := reconnect url broker s in
  filter dial_ok (made s r) = [] ->
  exists e1 e2 e3 s',
    r = Halt (Exit 1) s'
    /\ made s r
       = [about_to_reconnect;
          Dial url (inr e1); Sleep (5 * Second);
          trying "2"; Dial url (inr e2); Sleep (5 * Second);
          trying "3"; Dial url (inr e3); Sleep (5 * Second);
          Fatal [("err", FStr e3)] "Unable to reconnect to message queue"].
Proof.
  intros r. pose proof (eq_refl : r = reconnect url broker s) as Hr.
  clearbody r. unfold reconnect in Hr.
  change (try.Do ?f) with (try.Do_from 10 f 1) in Hr.
  run_prog_in Hr; calls_of Hr; intros Hnone; try (simpl in Hnone; discriminate).
  eexists _, _, _, _. split; [exact Hr |]. reflexivity.
Qed.

(** X16.  When a reconnection returns, the worker holds the connection of
    its last dial, a channel opened on that connection and a consumer of
    [work.queue] registered on that channel, and the close notifications of
    the connection were asked for, as the last call, on a Go channel made
    during the reconnection, which is the one the worker now selects on. *)
Theorem reconnect_rewires s s' :
  reconnect url broker s = Return tt s' ->
  exists c ch dl,
    worker s' = {| conn := Some c; channel := Some ch;
                   rabbitCloseError := chans s; delivery := Some dl |}
    /\ chans s' = S (chans s)
    /\ last (filter is_dial (made s (Return tt s'))) = Some (Dial url (inl c))
    /\ OpenChannel c (inl ch) ∈ made s (Return tt s')
    /\ Consume ch "work.queue" "" false false false false ∅ (inl dl)
       ∈ made s (Return tt s')
    /\ last (made s (Return tt s')) = Some (NotifyClose c (chans s)).
Proof.
  intros Hr. unfold reconnect in Hr.
  change (try.Do ?f) with (try.Do_from 10 f 1) in Hr.
  symmetry in Hr.
  run_prog_in Hr; try discriminate.
  all: injection Hr as ->; unfold made; cbn [state_of calls worker chans];
    rewrite drop_app_length.
  all: eexists _, _, _; split; [reflexivity |]; split; [reflexivity |].
  all: split; [reflexivity |].
  all: split; [apply list_elem_of_In; simpl; tauto |].
  all: split; [apply list_elem_of_In; simpl; tauto | reflexivity].
Qed.

End Reconnect.

(** The broker comes back at the third dial. *)
Lemma reconnect_rewires_witness :
  let s' := state_of (reconnect "amqp://mq" (flaky_broker 2) state0) in
  exists c ch dl,
    worker s' = {| conn := Some c; channel := Some ch;
                   rabbitCloseError := chans state0; delivery := Some dl |}
    /\ chans s' = S (chans state0)
    /\ last (filter is_dial (made state0 (Return tt s')))
       = Some (Dial "amqp://mq" (inl c))
    /\ OpenChannel c (inl ch) ∈ made state0 (Return tt s')
    /\ Consume ch "work.queue" "" false false false false ∅ (inl dl)
       ∈ made state0 (Return tt s')
    /\ last (made state0 (Return tt s')) = Some (NotifyClose c (chans state0)).
Proof.
  apply (reconnect_rewires "amqp://mq" (flaky_broker 2) state0).
  vm_compute. reflexivity.
Defined.

(** The broker stays down. *)
Lemma reconnect_gives_up_witness :
  let r := reconnect "amqp://mq" (flaky_broker 3) state0 in
  exists e1 e2 e3 s',
    r = Halt (Exit 1) s'
    /\ made state0 r
       = [about_to_reconnect;
          Dial "amqp://mq" (inr e1); Sleep (5 * Second);
          trying "2"; Dial "amqp://mq" (inr e2); Sleep (5 * Second);
          trying "3"; Dial "amqp://mq" (inr e3); Sleep (5 * Second);
          Fatal [("err", FStr e3)] "Unable to reconnect to message queue"].
Proof.
  apply (reconnect_gives_up "amqp://mq" (flaky_broker 3) state0).
  vm_compute. reflexivity.
Defined.

Section Startup.

Context (url : string) (broker : Broker).

(** X17.  [Start] calls the broker in one order, Dial, NotifyClose, Channel,
    ExchangeDeclare, QueueDeclare, QueueBind, Qos, Consume, and stops at
    the first call that fails: that call is followed by one fatal log
    entry with its error, and the process exits with status 1.  The entry
    for a failed ExchangeDeclare, QueueDeclare or QueueBind has the empty
    message; the message [Failed to declare a queue] is never logged.
    [Start] never returns: it exits, or blocks after a start-up on which
    every call succeeded. *)
Theorem Start_fails_fast s :
  let r := Start url broker s in
  omap method (made s r) `prefix_of` setup_methods
  /\ (forall c, c ∈ made s r -> failed c = true ->
      exists e m pre s',
        failure c = Some e /\ method c = Some m
        /\ made s r = pre ++ [c; Fatal [("err", FStr e)] (fatal_message m)]
        /\ r = Halt (Exit 1) s')
  /\ (forall fields, Fatal fields "Failed to declare a queue" ∉ made s r)
  /\ (filter failed (made s r) = [] ->
      exists pre s',
        made s r = pre ++ started
        /\ omap method pre = setup_methods
        /\ r = Halt Blocked s').
Proof.
  intros r. pose proof (eq_refl : r = Start url broker s) as Hr.
  clearbody r. unfold Start in Hr.
  run_prog_in Hr; calls_of Hr.
  all: split; [by repeat first [apply prefix_cons | apply prefix_nil] |].
  all: split;
    [intros x Hin Hf; members Hin; subst x; try discriminate;
     eexists _, _, _, _; (split; [reflexivity |]); (split; [reflexivity |]);
     (split; [| exact Hr]);
     first [ by instantiate (1 := [])
           | by instantiate (1 := [_])
           | by instantiate (1 := [_; _])
           | by instantiate (1 := [_; _; _])
           | by instantiate (1 := [_; _; _; _])
           | by instantiate (1 := [_; _; _; _; _])
           | by instantiate (1 := [_; _; _; _; _; _])
           | by instantiate (1 := [_; _; _; _; _; _; _]) ] |].
  all: split; [intros fields Hin; members Hin; discriminate |].
  all: intros Hok; try (simpl in Hok; discriminate).
  all: eexists _, _; split; [| split; [| exact Hr]].
  - by instantiate (1 := [_; _; _; _; _; _; _; _]).
  - reflexivity.
Qed.

(** X18.  After a start-up on which every call succeeded, the worker holds
    the connection it dialled, a channel of that connection and a consumer
    of [work.queue] on that channel; the close notifications of the
    connection go to the Go channel the worker was made with; the queue was
    declared durable with its dead-letter exchange and its time to live,
    and the prefetch count was set to 1 before the consumer was
    registered. *)
Theorem Start_wires s :
  let r := Start url broker s in
  filter failed (made s r) = [] ->
  exists c ch dl s',
    r = Halt Blocked s'
    /\ worker s' = {| conn := Some c; channel := Some ch;
                      rabbitCloseError := rabbitCloseError (worker s);
                      delivery := Some dl |}
    /\ made s r
       = [Dial url (inl c);
          NotifyClose c (rabbitCloseError (worker s));
          OpenChannel c (inl ch);
          ExchangeDeclare ch "work.ex" "fanout" true false false false ∅ None;
          QueueDeclare ch "work.queue" true false false false work_queue_args
            None;
          QueueBind ch "work.queue" "" "work.ex" false ∅ None;
          Qos ch 1 0 false None;
          Consume ch "work.queue" "" false false false false ∅ (inl dl)]
         ++ started.
Proof.
  intros r. pose proof (eq_refl : r = Start url broker s) as Hr.
  clearbody r. unfold Start in Hr.
  run_prog_in Hr; calls_of Hr; intros Hok; try (simpl in Hok; discriminate).
  eexists _, _, _, _. split; [exact Hr |]. split; reflexivity.
Qed.

End Startup.

(** A start-up with a broker that accepts every call. *)
Lemma Start_wires_witness :
  let r := Start "amqp://mq" (flaky_broker 0) state0 in
  exists c ch dl s',
    r = Halt Blocked s'
    /\ worker s' = {| conn := Some c; channel := Some ch;
                      rabbitCloseError := rabbitCloseError (worker state0);
                      delivery := Some dl |}
    /\ made state0 r
       = [Dial "amqp://mq" (inl c);
          NotifyClose c (rabbitCloseError (worker state0));
          OpenChannel c (inl ch);
          ExchangeDeclare ch "work.ex" "fanout" true false false false ∅ None;
          QueueDeclare ch "work.queue" true false false false work_queue_args
            None;
          QueueBind ch "work.queue" "" "work.ex" false ∅ None;
          Qos ch 1 0 false None;
          Consume ch "work.queue" "" false false false false ∅ (inl dl)]
         ++ started.
Proof.
  apply (Start_wires "amqp://mq" (flaky_broker 0) state0).
  vm_compute. reflexivity.
Defined.

(** A start-up with a broker that refuses the dial: one fatal log entry,
    and nothing else is called. *)
Example Start_refused :
  made state0 (Start "amqp://mq" (flaky_broker 1) state0)
  = [Dial "amqp://mq" (inr "dial tcp: connection refused");
     Fatal [("err", FStr "dial tcp: connection refused")]
       "Failed to connect to RabbitMQ"].
Proof. by vm_compute. Qed.

End lifecycle_facts.

(** * The earlier worker *)

Module legacy_facts.
Import legacy.

Lemma made_app {A} (r : result (list action) A) a tr evs :
  r = Return a (tr ++ evs) -> made tr r = evs.
Proof. intros ->. unfold made. simpl. by rewrite drop_app_length. Qed.

Lemma made_nil {A} (r : result (list action) A) a tr :
  r = Return a tr -> made tr r = [].
Proof. intros ->. unfold made. simpl. by rewrite drop_all. Qed.

(** The loop over the ops returns: early, after an encryption that failed,
    or at its end, with the ops the mailer accepted. *)
Lemma emailToOps_loop_run c env request subject token ops :
  forall assignees count tr,
  exists res evs,
    emailToOps_loop c env request subject token ops assignees count tr
    = Return res (tr ++ evs)
    /\ filter settles evs = []
    /\ match res with
       | inl (n, err) =>
           n = 0 /\ err <> None /\ filter encryption_failed evs <> []
       | inr (assignees', count') =>
           filter encryption_failed evs = []
           /\ assignees' = assignees ++ omap op_mailed evs
           /\ count' = count + Z.of_nat (length (omap op_mailed evs))
           /\ omap op_addressed evs = ops
       end.
Proof.
  induction ops as [|op rest IH]; intros assignees count tr.
  - exists (inr (assignees, count)), []. rewrite app_nil_r. simpl.
    repeat split; [by rewrite app_nil_r | lia].
  - cbn [emailToOps_loop].
    unfold andThen at 1, EncodeAndEncrypt at 1, ask at 1.
    destruct (utils_EncodeAndEncrypt env tr op (PassPhrase c)) as [tok|e] eqn:He.
    + unfold andThen at 1, Send_ at 1, ask at 1.
      match goal with
      | |- context [mailer_Send env ?t ?a ?b ?s ?o] =>
          destruct (mailer_Send env t a b s o) as [e|] eqn:Hs
      end.
      * unfold andThen at 1, log at 1, act at 1.
        match goal with
        | |- context [emailToOps_loop _ _ _ _ _ rest ?a ?n ?t] =>
            destruct (IH a n t) as (res & evs & -> & Hset & Hres)
        end.
        eexists res, (_ :: _ :: _ :: evs). split.
        { f_equal. rewrite <- !app_assoc. reflexivity. }
        split; [exact Hset |].
        destruct res as [[n err]|[a' n']]; [exact Hres |].
        destruct Hres as (H1 & H2 & H3 & H4). cbn. rewrite H4.
        repeat split; assumption.
      * unfold andThen at 1, log at 1, act at 1.
        match goal with
        | |- context [emailToOps_loop _ _ _ _ _ rest ?a ?n ?t] =>
            destruct (IH a n t) as (res & evs & -> & Hset & Hres)
        end.
        eexists res, (_ :: _ :: _ :: evs). split.
        { f_equal. rewrite <- !app_assoc. reflexivity. }
        split; [exact Hset |].
        destruct res as [[n err]|[a' n']]; [exact Hres |].
        destruct Hres as (H1 & H2 & H3 & H4). cbn. rewrite H4. repeat split.
        -- exact H1.
        -- rewrite H2, <- app_assoc. reflexivity.
        -- rewrite H3. cbn [length]. lia.
    + unfold andThen, log, act, pure.
      eexists (inl (0, Some e)), [_; _]. split.
      { f_equal. rewrite <- !app_assoc. reflexivity. }
      repeat split; done.
Qed.

Ltac evaluate_legacy_in H :=
  cbv beta iota zeta delta
    [andThen pure halts act ask log Ack_ Nack_ EncodeAndEncrypt Send_
     dbService_UpdateRequest received] in H.

Ltac step_legacy_in H :=
  evaluate_legacy_in H;
  lazymatch type of H with
  | context [match ?x with _ => _ end] =>
      innermost x ltac:(fun y => destruct y eqn:?)
  end.

Ltac run_legacy_in H :=
  repeat step_legacy_in H; evaluate_legacy_in H;
  rewrite <- ?app_assoc in H; cbn [app] in H.

Ltac decision_case Hr :=
  unfold decision_settled; rewrite !(made_app _ _ _ _ Hr);
  split; [exact Hr |]; do 3 (split; [reflexivity |]);
  intros ? ? ? ? ? Hin; members Hin; try discriminate;
  inversion Hin; subst;
  match goal with
  | Hs : String.eqb _ _ = _ |- _ => rewrite Hs
  end; split; reflexivity.

Lemma processApproval_settled c env d request tr :
  decision_settled request d tr (processApproval c env d request tr).
Proof.
  pose proof (eq_refl (processApproval c env d request tr)) as Hr.
  revert Hr. generalize (processApproval c env d request tr) at 1 3.
  intros r Hr. unfold processApproval, emailDecision in Hr.
  run_legacy_in Hr; decision_case Hr.
Qed.

Lemma processDenial_settled c env d request tr :
  decision_settled request d tr (processDenial c env d request tr).
Proof.
  pose proof (eq_refl (processDenial c env d request tr)) as Hr.
  revert Hr. generalize (processDenial c env d request tr) at 1 3.
  intros r Hr. unfold processDenial, emailDecision in Hr.
  run_legacy_in Hr; decision_case Hr.
Qed.

Lemma getTargetOps_selects c env tr :
  dispatcher_returns c ->
  exists selected,
    getTargetOps c env tr = Return selected tr
    /\ dispatched c (elems selected).
Proof.
  unfold dispatcher_returns, getTargetOps, dispatched.
  destruct (String.eqb _ _) eqn:Hb; [by eexists |].
  intros [?|[H0 Hcap]]; [discriminate |].
  unfold cap in *. simpl. rewrite length_app in *.
  rewrite (Permutation_length (Shuffle_Permutation _ _ _)).
  destruct (Z.leb_spec 0 (RandomDispatchingThreshold c)); [| lia].
  destruct (Z.leb_spec (RandomDispatchingThreshold c)
              (Z.of_nat (length (elems (Ops c)) + length (spare (Ops c)))));
    [| lia].
  eexists. split; [reflexivity |]. simpl.
  rewrite length_take, length_app,
    (Permutation_length (Shuffle_Permutation _ _ _)). lia.
Qed.

Lemma omap_none {A B} (f : A -> option B) (l : list A) :
  (forall a, a ∈ l -> f a = None) -> omap f l = [].
Proof.
  induction l as [|a l IH]; intros Hl; [reflexivity |]. cbn.
  rewrite (Hl a) by apply list_elem_of_here.
  apply IH. intros b Hb. apply Hl. by apply list_elem_of_further.
Qed.

(** The runs of [emailToOps] with a dispatcher that returns. *)
Lemma emailToOps_run c env request quoram tr :
  dispatcher_returns c ->
  exists n err evs,
    emailToOps c env request quoram tr = Return (n, err) (tr ++ evs)
    /\ filter settles evs = []
    /\ (err = None ->
        quoram <= Z.of_nat (length (omap op_mailed evs))
        /\ (omap op_mailed evs <> [] ->
            exists e, Did (UpdateRequest (ID request) "assignees"
                             (DStrings (omap op_mailed evs)) e) ∈ evs))
    /\ (filter encryption_failed evs = [] ->
        dispatched c (omap op_addressed evs)
        /\ (quoram <= Z.of_nat (length (omap op_mailed evs)) -> err = None)).
Proof.
  intros Hc. unfold emailToOps.
  unfold andThen at 1, EncodeAndEncrypt at 1, ask at 1.
  destruct (utils_EncodeAndEncrypt env tr (ID request) (PassPhrase c))
    as [tok|e] eqn:He.
  2: { unfold andThen, log, act, pure. eexists 0, (Some e), [_; _]. split.
       { f_equal. rewrite <- !app_assoc. reflexivity. }
       split; [reflexivity |]. split; [discriminate |]. intros H. discriminate. }
  unfold andThen at 1.
  destruct (getTargetOps_selects c env
              (tr ++ [Did (Encrypt (ID request) (PassPhrase c) (inl tok))]) Hc)
    as (selected & -> & Hsel).
  unfold andThen at 1.
  match goal with
  | |- context [emailToOps_loop c env request ?s ?k ?o ?a ?n ?t] =>
      destruct (emailToOps_loop_run c env request s k o a n t)
        as (res & evs & -> & Hset & Hres)
  end.
  destruct res as [[n err]|[assignees count]].
  { destruct Hres as (-> & Herr & Hfail). unfold pure.
    eexists 0, err, (_ :: evs). split.
    { f_equal. rewrite <- !app_assoc. reflexivity. }
    split; [exact Hset |]. split; [intros ->; by destruct Herr |].
    cbn. intros H. by destruct Hfail. }
  destruct Hres as (Hnone & -> & -> & Haddr). rewrite app_nil_l.
  rewrite <- Haddr in Hsel. clear Haddr.
  set (mailed := omap op_mailed evs) in *.
  set (first := Did (Encrypt (ID request) (PassPhrase c) (inl tok))).
  assert (Hmailed : forall tl, (forall a, a ∈ tl -> op_mailed a = None) ->
            omap op_mailed (first :: evs ++ tl) = mailed).
  { intros tl Htl. cbn. rewrite omap_app, (omap_none _ tl Htl).
    by rewrite app_nil_r. }
  assert (Haddressed : forall tl, (forall a, a ∈ tl -> op_addressed a = None) ->
            dispatched c (omap op_addressed (first :: evs ++ tl))).
  { intros tl Htl. cbn. rewrite omap_app, (omap_none _ tl Htl).
    by rewrite app_nil_r. }
  assert (Hsettles : forall tl, filter settles tl = [] ->
            filter settles (first :: evs ++ tl) = []).
  { intros tl Htl. change (filter settles (evs ++ tl) = []).
    by rewrite filter_app, Hset, Htl. }
  unfold andThen at 1.
  destruct (0 <? length mailed)%nat eqn:Hlen.
  - unfold andThen at 1, dbService_UpdateRequest at 1, ask at 1.
    match goal with
    | |- context [db_UpdateRequest env ?t ?i ?f ?v] =>
        destruct (db_UpdateRequest env t i f v) as [e|] eqn:Hu
    end.
    + unfold log, act.
      destruct (0 + Z.of_nat (length mailed) >=? quoram) eqn:Hq; unfold pure.
      * eexists _, None, (first :: evs ++ [_; _]). split.
        { f_equal. rewrite <- !app_assoc. reflexivity. }
        split; [by apply Hsettles |].
        rewrite Hmailed by (intros a Ha; members Ha; by subst).
        split.
        -- intros _. split; [lia |]. intros _. exists (Some e).
           apply list_elem_of_further, elem_of_app. right.
           apply list_elem_of_here.
        -- intros _. split; [| done].
           apply Haddressed. intros a Ha; members Ha; by subst.
      * eexists _, (Some _), (first :: evs ++ [_; _]). split.
        { f_equal. rewrite <- !app_assoc. reflexivity. }
        split; [by apply Hsettles |].
        rewrite Hmailed by (intros a Ha; members Ha; by subst).
        split; [discriminate |]. intros _. split; [| intros ?; lia].
        apply Haddressed. intros a Ha; members Ha; by subst.
    + destruct (0 + Z.of_nat (length mailed) >=? quoram) eqn:Hq; unfold pure.
      * eexists _, None, (first :: evs ++ [_]). split.
        { f_equal. rewrite <- !app_assoc. reflexivity. }
        split; [by apply Hsettles |].
        rewrite Hmailed by (intros a Ha; members Ha; by subst).
        split.
        -- intros _. split; [lia |]. intros _. exists None.
           apply list_elem_of_further, elem_of_app. right.
           apply list_elem_of_here.
        -- intros _. split; [| done].
           apply Haddressed. intros a Ha; members Ha; by subst.
      * eexists _, (Some _), (first :: evs ++ [_]). split.
        { f_equal. rewrite <- !app_assoc. reflexivity. }
        split; [by apply Hsettles |].
        rewrite Hmailed by (intros a Ha; members Ha; by subst).
        split; [discriminate |]. intros _. split; [| intros ?; lia].
        apply Haddressed. intros a Ha; members Ha; by subst.
  - unfold pure at 1.
    assert (mailed = []) as Hnil.
    { destruct mailed; [reflexivity |]. simpl in Hlen. discriminate. }
    destruct (0 + Z.of_nat (length mailed) >=? quoram) eqn:Hq; unfold pure.
    + eexists _, None, (first :: evs ++ []). split.
      { f_equal. rewrite app_nil_r, <- !app_assoc. reflexivity. }
      split; [by apply Hsettles |].
      rewrite Hmailed by (intros a Ha; members Ha).
      split.
      * intros _. split; [lia |]. intros Hne. by destruct Hne.
      * intros _. split; [| done]. apply Haddressed. intros a Ha; members Ha.
    + eexists _, (Some _), (first :: evs ++ []). split.
      { f_equal. rewrite app_nil_r, <- !app_assoc. reflexivity. }
      split; [by apply Hsettles |].
      rewrite Hmailed by (intros a Ha; members Ha).
      split; [discriminate |]. intros _. split; [| intros ?; lia].
      apply Haddressed. intros a Ha; members Ha.
Qed.

(** The runs of [emailConfirmation]. *)
Lemma emailConfirmation_run c env request tr :
  exists err evs,
    emailConfirmation c env request tr = Return err (tr ++ evs)
    /\ filter settles evs = []
    /\ omap op_mailed evs = []
    /\ omap op_addressed evs = []
    /\ (filter encryption_failed evs = [] ->
        exists link e,
          Did (Send "./mailer/templates/confirmation.html" link
                 "Your request to join the server has been received"
                 (Email request) e) ∈ evs).
Proof.
  pose proof (eq_refl (emailConfirmation c env request tr)) as Hr.
  revert Hr. generalize (emailConfirmation c env request tr) at 1 3.
  intros r Hr. unfold emailConfirmation in Hr.
  run_legacy_in Hr; subst r; eexists _, _; (split; [reflexivity |]);
    do 3 (split; [reflexivity |]); intros H; try discriminate;
    eexists _, _; apply list_elem_of_further, list_elem_of_here.
Qed.

Lemma filter_app_nil {A} (P : A -> Prop) `{!forall x, Decision (P x)}
    (l1 l2 : list A) :
  filter P (l1 ++ l2) = [] -> filter P l1 = [] /\ filter P l2 = [].
Proof. rewrite filter_app. apply app_eq_nil. Qed.

Lemma processNewRequest_run c env d request tr :
  dispatcher_returns c ->
  let r := processNewRequest c env d request tr in
  let mailed := omap op_mailed (made tr r) in
  exists served,
    r = Return tt (tr ++ made tr r)
    /\ filter settles (made tr r) = [settlement d served]
    /\ last (made tr r) = Some (settlement d served)
    /\ (served = true ->
        mailed <> []
        /\ exists e, Did (UpdateRequest (ID request) "assignees"
                            (DStrings mailed) e) ∈ made tr r)
    /\ (filter encryption_failed (made tr r) = [] ->
        dispatched c (omap op_addressed (made tr r))
        /\ (mailed <> [] -> served = true)
        /\ exists link e,
             Did (Send "./mailer/templates/confirmation.html" link
                    "Your request to join the server has been received"
                    (Email request) e) ∈ made tr r).
Proof.
  intros Hc r. pose proof (eq_refl : r = processNewRequest c env d request tr) as Hr.
  clearbody r. unfold processNewRequest in Hr.
  unfold andThen at 1, received at 1, log at 1, act at 1 in Hr.
  set (first := Did (Log _ _ _)) in Hr.
  unfold andThen at 1 in Hr.
  destruct (emailConfirmation_run c env request (tr ++ [first]))
    as (e1 & evs1 & Hrun1 & Hset1 & Hmailed1 & Haddr1 & Hconf).
  rewrite Hrun1 in Hr. clear Hrun1.
  unfold andThen at 1 in Hr.
  destruct (emailToOps_run c env request 1 ((tr ++ [first]) ++ evs1) Hc)
    as (n & err & evs2 & Hrun2 & Hset2 & Hok & Hclean).
  rewrite Hrun2 in Hr. clear Hrun2.
  assert (Hsettles : forall tl,
            filter settles (first :: evs1 ++ evs2 ++ tl) = filter settles tl).
  { intros tl. change (filter settles (evs1 ++ evs2 ++ tl) = filter settles tl).
    by rewrite !filter_app, Hset1, Hset2. }
  assert (Hmailed : forall tl, omap op_mailed tl = [] ->
            omap op_mailed (first :: evs1 ++ evs2 ++ tl) = omap op_mailed evs2).
  { intros tl Htl. change (omap op_mailed (evs1 ++ evs2 ++ tl) = omap op_mailed evs2).
    by rewrite !omap_app, Hmailed1, Htl, app_nil_r. }
  assert (Haddressed : forall tl, omap op_addressed tl = [] ->
            omap op_addressed (first :: evs1 ++ evs2 ++ tl)
            = omap op_addressed evs2).
  { intros tl Htl.
    change (omap op_addressed (evs1 ++ evs2 ++ tl) = omap op_addressed evs2).
    by rewrite !omap_app, Haddr1, Htl, app_nil_r. }
  assert (Hfailed : forall tl,
            filter encryption_failed (first :: evs1 ++ evs2 ++ tl) = [] ->
            filter encryption_failed evs1 = []
            /\ filter encryption_failed evs2 = []).
  { intros tl H.
    change (filter encryption_failed (evs1 ++ evs2 ++ tl) = []) in H.
    apply filter_app_nil in H as [H1 H]. apply filter_app_nil in H as [H2 _].
    by split. }
  destruct err as [e|].
  - unfold andThen, log, Nack_, act in Hr.
    assert (Hr' : r = Return tt (tr ++ first :: evs1 ++ evs2 ++ [
                        Did (Log ErrorLevel
                               [("message", FRequest request);
                                ("successCount", FInt n)]
                               "Failed to dispatch action emails to required number of ops");
                        Nack (DeliveryTag d) false false])).
    { rewrite Hr. f_equal. rewrite <- !app_assoc. reflexivity. }
    clear Hr. cbv zeta. rewrite !(made_app _ _ _ _ Hr').
    exists false. split; [exact Hr' |].
    split; [by rewrite Hsettles |].
    split.
    { rewrite app_comm_cons, !app_assoc.
      change [?a; ?b] with ([a] ++ [b]). rewrite !app_assoc.
      by rewrite last_snoc. }
    split; [discriminate |].
    intros Hnone. apply Hfailed in Hnone as [Hn1 Hn2].
    destruct (Hclean Hn2) as [Hdisp Henough].
    rewrite Hmailed, Haddressed by reflexivity.
    split; [exact Hdisp |]. split.
    + intros Hne. assert (Some e = None); [| discriminate].
      apply Henough. destruct (omap op_mailed evs2); [done |]. simpl. lia.
    + destruct (Hconf Hn1) as (link & e' & Hin). exists link, e'.
      apply list_elem_of_further, elem_of_app. by left.
  - unfold Ack_, act in Hr.
    assert (Hr' : r = Return tt (tr ++ first :: evs1 ++ evs2 ++ [
                        Did (Ack (DeliveryTag d))])).
    { rewrite Hr. f_equal. rewrite <- !app_assoc. reflexivity. }
    clear Hr. cbv zeta. rewrite !(made_app _ _ _ _ Hr').
    exists true. split; [exact Hr' |].
    split; [by rewrite Hsettles |].
    split.
    { rewrite app_comm_cons, !app_assoc. by rewrite last_snoc. }
    rewrite Hmailed, Haddressed by reflexivity.
    destruct (Hok eq_refl) as [Hone Hupd].
    assert (Hne : omap op_mailed evs2 <> []).
    { destruct (omap op_mailed evs2); [simpl in Hone; lia | done]. }
    split.
    + intros _. split; [exact Hne |].
      destruct (Hupd Hne) as [e He]. exists e.
      apply list_elem_of_further, elem_of_app. right.
      apply elem_of_app. by left.
    + intros Hnone. apply Hfailed in Hnone as [Hn1 Hn2].
      destruct (Hclean Hn2) as [Hdisp _].
      split; [exact Hdisp |]. split; [done |].
      destruct (Hconf Hn1) as (link & e' & Hin). exists link, e'.
      apply list_elem_of_further, elem_of_app. by left.
Qed.

(** X19.  Each of the two decision handlers returns and settles the
    delivery as its last action, once: with an acknowledgement when the
    mailer accepted the decision e-mail, and by rejecting it without requeue
    when the mailer refused it or the request ID could not be encrypted.  It
    sends one e-mail unless the encryption failed, to the applicant, with
    the template of the request's status. *)
Theorem decisions_settled c env d request tr :
  decision_settled request d tr (processApproval c env d request tr)
  /\ decision_settled request d tr (processDenial c env d request tr).
Proof.
  split; [apply processApproval_settled | apply processDenial_settled].
Qed.

(** X20.  With a dispatcher that returns, the handler of a new request
    returns and settles the delivery as its last action, once.  It
    acknowledges only when the mailer accepted the action e-mail of at
    least one op, and then the ops it mailed were sent to the store as the
    assignees of the request, whatever the store answered; otherwise it
    rejects the delivery without requeue.  When no encryption failed, the
    confirmation e-mail was sent to the applicant, the action e-mails went
    to the ops the dispatching strategy selects, and one accepted action
    e-mail is enough for the acknowledgement: the confirmation e-mail
    counts for nothing. *)
Theorem new_request_settled c env d request tr :
  dispatcher_returns c ->
  let r := processNewRequest c env d request tr in
  let mailed := omap op_mailed (made tr r) in
  exists served,
    r = Return tt (tr ++ made tr r)
    /\ filter settles (made tr r) = [settlement d served]
    /\ last (made tr r) = Some (settlement d served)
    /\ (served = true ->
        mailed <> []
        /\ exists e, Did (UpdateRequest (ID request) "assignees"
                            (DStrings mailed) e) ∈ made tr r)
    /\ (filter encryption_failed (made tr r) = [] ->
        dispatched c (omap op_addressed (made tr r))
        /\ (mailed <> [] -> served = true)
        /\ exists link e,
             Did (Send "./mailer/templates/confirmation.html" link
                    "Your request to join the server has been received"
                    (Email request) e) ∈ made tr r).
Proof. apply processNewRequest_run. Qed.

(** Three ops, the mailer refuses the first: the delivery is acknowledged
    and the two others are the assignees. *)
Lemma new_request_settled_witness :
  let c := sample_config "Broadcast" 0 ["m1@x"; "m2@x"; "m3@x"] in
  let r := processNewRequest c (sample_env [] ["m1@x"])
             (Sample.delivery ∅ "{}") (Sample.alice "Pending") [] in
  dispatcher_returns c
  /\ last (made [] r) = Some (Did (Ack 1))
  /\ exists e, Did (UpdateRequest (ID (Sample.alice "Pending")) "assignees"
                      (DStrings ["m2@x"; "m3@x"]) e) ∈ made [] r.
Proof.
  intros c r. assert (Hc : dispatcher_returns c) by (left; reflexivity).
  split; [exact Hc |].
  destruct (new_request_settled c (sample_env [] ["m1@x"])
              (Sample.delivery ∅ "{}") (Sample.alice "Pending") [] Hc)
    as (served & _ & _ & Hlast & Hserved & _).
  destruct served.
  - split; [exact Hlast |]. destruct (Hserved eq_refl) as [_ Hupd]. exact Hupd.
  - exfalso. vm_compute in Hlast. discriminate.
Defined.

(** X21.  With a dispatcher that returns, the loop returns from every
    delivery.  A body the decoder refuses, a nil body included, is logged
    and rejected without requeue, and no handler runs.  A request whose
    status is Approved, Denied or Pending is settled once, as the last
    action, with an acknowledgement or a rejection without requeue, of
    this delivery alone.  For a request of any other status the loop does
    nothing at all: the delivery is neither acknowledged nor rejected. *)
Theorem delivery_settled_or_ignored c env d tr :
  dispatcher_returns c ->
  let r := runLoop_delivery c env d tr in
  let (request, err) := deserialize (buffered (Body d)) in
  r = Return tt (tr ++ made tr r)
  /\ match err with
     | Some e => made tr r = rejected d e
     | None =>
         if has_handler (Status request)
         then exists served,
                filter settles (made tr r) = [settlement d served]
                /\ last (made tr r) = Some (settlement d served)
         else made tr r = []
     end.
Proof.
  intros Hc r. subst r. unfold runLoop_delivery, has_handler.
  destruct (deserialize (buffered (Body d))) as [request [e|]].
  - unfold andThen, log, Nack_, act, rejected.
    rewrite <- app_assoc. cbn [app].
    by rewrite (made_app _ tt tr _ eq_refl).
  - destruct (String.eqb (Status request) "Approved").
    { destruct (processApproval_settled c env d request tr)
        as (Hr & Hset & Hlast & _).
      split; [exact Hr |]. cbn [orb]. eexists. split; [exact Hset | exact Hlast]. }
    destruct (String.eqb (Status request) "Denied").
    { destruct (processDenial_settled c env d request tr)
        as (Hr & Hset & Hlast & _).
      split; [exact Hr |]. cbn [orb]. eexists. split; [exact Hset | exact Hlast]. }
    destruct (String.eqb (Status request) "Pending").
    { destruct (processNewRequest_run c env d request tr Hc)
        as (served & Hr & Hset & Hlast & _).
      split; [exact Hr |]. cbn [orb]. eexists. split; [exact Hset | exact Hlast]. }
    cbn [orb]. unfold pure. rewrite (made_nil _ tt tr eq_refl).
    by rewrite app_nil_r.
Qed.

(** A request that was deactivated, which the earlier worker has no case
    for, and a nil body. *)
Lemma delivery_settled_or_ignored_witness :
  let c := sample_config "Broadcast" 0 ["m1@x"; "m2@x"; "m3@x"] in
  let env := sample_env [] [] in
  dispatcher_returns c
  /\ made [] (runLoop_delivery c env
                (Sample.delivery ∅ (Sample.body "Deactivated")) []) = []
  /\ exists e,
       made [] (runLoop_delivery c env
                  {| Headers := ∅; DeliveryTag := 7; Body := None |} [])
       = [Did (Log ErrorLevel [("messageBody", FBody None); ("err", FStr e)]
                 "Unable to decode message into whitelistRequest");
          Nack 7 false false].
Proof.
  intros c env. assert (Hc : dispatcher_returns c) by (left; reflexivity).
  split; [exact Hc |]. split.
  - pose proof (delivery_settled_or_ignored c env
                  (Sample.delivery ∅ (Sample.body "Deactivated")) [] Hc) as H.
    cbv zeta in H.
    destruct (deserialize _) as [request err] eqn:Hd in H.
    vm_compute in Hd. injection Hd as <- <-. exact (proj2 H).
  - pose proof (delivery_settled_or_ignored c env
                  {| Headers := ∅; DeliveryTag := 7; Body := None |} [] Hc)
      as H.
    cbv zeta in H.
    destruct (deserialize _) as [request err] eqn:Hd in H.
    vm_compute in Hd. injection Hd as <- <-. eexists. exact (proj2 H).
Defined.

End legacy_facts.
